(** * A model of the travel-assistant retrieval server (server.js)

    The development embeds the retrieval core of [server.js] in Rocq:
    the ranking functions [cosineSimilarity] and [getTopKDocuments], the
    record normaliser [loadDocuments], the batched embedding loop
    [embedDocumentsInBatches], the embedding cache
    ([saveEmbeddingsToFile], [loadEmbeddingsFromFile]), the start-up routine
    [initializeDocuments] and the two request handlers [/generate] and
    [/holiday].

    JavaScript numbers are IEEE 754 binary64 values: they are modelled by
    Rocq's primitive floats, whose operations are the same ones.  Values
    that JavaScript leaves untyped (the records of the corpus files, request
    bodies, titles and snippets) are modelled by the type [value].
    Asynchronous functions are modelled in a state-and-exception monad over
    a [world] that holds the files, the external provider, the process-wide
    variable [cachedDocuments] and the trace of effects. *)

From Stdlib Require Import ZArith List String Ascii Lia Bool.
From Stdlib Require Import Floats.
From Stdlib Require Import Sorting.Sorted Sorting.Permutation.
From stdpp Require Import base gmap strings list sorting pretty.

Set Warnings "-register-all,-inexact-float".

Local Open Scope string_scope.
Local Open Scope Z_scope.

(** ** Numbers *)

Module Number.

(** [10^n] for a natural exponent. *)
Definition pow10 (n : Z) : Z := 10 ^ (Z.max n 0).

Definition pow2 (n : Z) : Z := 2 ^ (Z.max n 0).

(** The decimal digits of a non-negative integer. *)
Definition digits (s : Z) : string := pretty (Z.to_N s).

Definition zeros (n : Z) : string := String.concat "" (repeat "0" (Z.to_nat n)).

(** A positive binary64 value [m * 2^e] is kept with its rounding interval as
    three integers in units of [2^(e-2)]: the value itself is [4m], the upper
    midpoint is [4m+2], and the lower midpoint is [4m-2], or [4m-1] when [m]
    is the least normal mantissa (the gap below is then half the gap above). *)
Record interval := { lo : Z; mid : Z; hi : Z; unit_exp : Z; closed : bool }.

Definition interval_of (m : positive) (e : Z) : interval :=
  let below := if (Z.pos m =? 2 ^ 52) && (-1074 <? e) then 1 else 2 in
  {| lo := 4 * Z.pos m - below; mid := 4 * Z.pos m; hi := 4 * Z.pos m + 2;
     unit_exp := e - 2; closed := Z.even (Z.pos m) |}.

(** [a * 2^q] and [s * 10^t] brought to a common integer scale. *)
Definition binary_side (a q t : Z) : Z := a * pow2 q * pow10 (- t).
Definition decimal_side (s q t : Z) : Z := s * pow10 t * pow2 (- q).

(** Whether [s * 10^t] rounds to the value of the interval. *)
Definition rounds_to (i : interval) (s t : Z) : bool :=
  let d := decimal_side s (unit_exp i) t in
  let l := binary_side (lo i) (unit_exp i) t in
  let h := binary_side (hi i) (unit_exp i) t in
  if closed i then (l <=? d) && (d <=? h) else (l <? d) && (d <? h).

(** The least [n] from [n0] on with [value < 10^n]. *)
Fixpoint decimal_exponent (fuel : nat) (i : interval) (n : Z) : Z :=
  match fuel with
  | O => n
  | S fuel' =>
      if binary_side (mid i) (unit_exp i) n <? decimal_side 1 (unit_exp i) n
      then n else decimal_exponent fuel' i (n + 1)
  end.

(** The shortest digit string [s] (of [k] digits) with its exponent [n] such
    that [s * 10^(n-k)] rounds to the value; among two candidates of the same
    length the one closer to the value, then the even one. *)
Fixpoint shortest (fuel : nat) (i : interval) (n k : Z) : Z * Z * Z :=
  let t := n - k in
  let s_lo := binary_side (mid i) (unit_exp i) t / decimal_side 1 (unit_exp i) t in
  let s_hi := s_lo + 1 in
  let ok_lo := rounds_to i s_lo t in
  let ok_hi := rounds_to i s_hi t in
  let up := if s_hi =? pow10 k then (pow10 (k - 1), k, n + 1) else (s_hi, k, n) in
  let down := (s_lo, k, n) in
  match fuel with
  | O => down
  | S fuel' =>
      if ok_lo && ok_hi then
        match decimal_side (s_lo + s_hi) (unit_exp i) t ?= 2 * binary_side (mid i) (unit_exp i) t with
        | Gt => down
        | Lt => up
        | Eq => if Z.even s_lo then down else up
        end
      else if ok_lo then down
      else if ok_hi then up
      else shortest fuel' i n (k + 1)
  end.

(** The layout rules of Number::toString for the digits [s] (there are [k] of
    them) and the exponent [n]. *)
Definition layout (s k n : Z) : string :=
  let ds := digits s in
  if (k <=? n) && (n <=? 21) then ds +:+ zeros (n - k)
  else if (0 <? n) && (n <=? 21) then
    String.substring 0 (Z.to_nat n) ds +:+ "." +:+ String.substring (Z.to_nat n) (Z.to_nat (k - n)) ds
  else if (-6 <? n) && (n <=? 0) then "0." +:+ zeros (- n) +:+ ds
  else
    let e := n - 1 in
    let exponent := (if 0 <=? e then "e+" else "e-") +:+ digits (Z.abs e) in
    if k =? 1 then ds +:+ exponent
    else String.substring 0 1 ds +:+ "." +:+ String.substring 1 (Z.to_nat (k - 1)) ds +:+ exponent.

Definition positive_toString (m : positive) (e : Z) : string :=
  let i := interval_of m e in
  let bits := Z.log2 (Z.pos m) + e in
  let n := decimal_exponent 8 i (bits * 30103 / 100000 - 2) in
  let '(s, k, n') := shortest 17 i n 1 in
  layout s k n'.

(** Number::toString(x) in radix 10 (ECMA-262, 6.1.6.1.20). *)
Definition toString (x : float) : string :=
  match Prim2SF x with
  | S754_nan => "NaN"
  | S754_zero _ => "0"
  | S754_infinity s => if s then "-Infinity" else "Infinity"
  | S754_finite s m e => (if s then "-" else "") +:+ positive_toString m e
  end.

(** A length or a count rendered in a template literal. *)
Definition of_nat (n : nat) : string := pretty n.

End Number.

(** ** Values, errors and completions *)

(** A JavaScript value as the server meets it: the result of [JSON.parse],
    or [undefined] where a property is missing.  An object is the list of its
    own properties in enumeration order, each key once. *)
Inductive value : Type :=
| VUndefined
| VNull
| VBool (b : bool)
| VNumber (x : float)
| VString (s : string)
| VArray (items : list value)
| VObject (props : list (string * value)).

Inductive error : Type :=
| TypeError       (* a property read on null or undefined, a call of a non-function *)
| SyntaxError     (* JSON.parse on text that is not JSON *)
| FileError       (* fs.readFile of a missing file, fs.writeFile that fails *)
| ProviderError.  (* a rejected call to the Cohere API *)

(** How the evaluation of an expression ends: with a value, or by throwing. *)
Inductive completion (A : Type) : Type :=
| Normal (a : A)
| Throw (e : error).

Arguments Normal {A} a.
Arguments Throw {A} e.

Definition bind_completion {A B : Type} (c : completion A) (k : A -> completion B) : completion B :=
  match c with
  | Normal a => k a
  | Throw e => Throw e
  end.

Notation "'let!' x ':=' c 'in' k" := (bind_completion c (fun x => k))
  (at level 10, x pattern, c at level 100, k at level 200).

(** [Array.prototype.map] with a callback that may throw. *)
Fixpoint map_completion {A B : Type} (f : A -> completion B) (l : list A) : completion (list B) :=
  match l with
  | [] => Normal []
  | a :: rest =>
      let! b := f a in
      let! bs := map_completion f rest in
      Normal (b :: bs)
  end.

Definition is_nullish (v : value) : bool :=
  match v with
  | VUndefined | VNull => true
  | _ => false
  end.

(** ToBoolean: what [!v] and [v || w] test. *)
Definition ToBoolean (v : value) : bool :=
  match v with
  | VUndefined | VNull => false
  | VBool b => b
  | VNumber x => negb (PrimFloat.eqb x 0 || is_nan x)
  | VString s => negb (String.eqb s "")
  | VArray _ | VObject _ => true
  end.

(** [a || b] *)
Definition or_else (a b : value) : value := if ToBoolean a then a else b.

(** [a ?? b] *)
Definition coalesce (a b : value) : value := if is_nullish a then b else a.

(** The own property [key] of an object. *)
Fixpoint own (props : list (string * value)) (key : string) : option value :=
  match props with
  | [] => None
  | (k, v) :: rest => if String.eqb k key then Some v else own rest key
  end.

(** [v.key] for the property names the server reads (name, details, body,
    description, product_line, languages, common, official, capital, region,
    subregion, population, area, query, row, site, short_description,
    language, currency, prompt, userInput): none of them is a property of a
    built-in prototype, so only an object can have one. *)
Definition get (v : value) (key : string) : completion value :=
  match v with
  | VUndefined | VNull => Throw TypeError
  | VObject props => Normal (default VUndefined (own props key))
  | _ => Normal VUndefined
  end.

(** [v?.key] *)
Definition get_optional (v : value) (key : string) : completion value :=
  if is_nullish v then Normal VUndefined else get v key.

(** A string holds its text in UTF-8, and JavaScript indexes a string by
    UTF-16 code unit.  A character of one, two or three bytes is one code
    unit; a character of four bytes is two, its surrogates, and a surrogate
    that stands alone is written in three bytes like the characters around
    it.  [unit_of u] is the code unit [u] of three bytes as a string. *)
Definition unit_of (u : N) : string :=
  String (ascii_of_N (224 + u / 4096))
    (String (ascii_of_N (128 + (u / 64) mod 64))
       (String (ascii_of_N (128 + u mod 64)) "")).

(** The code units of a text, each as a string.  The text is well formed: a
    first byte is followed by the bytes it announces. *)
Fixpoint code_units (text : list ascii) : list string :=
  match text with
  | [] => []
  | b0 :: rest =>
      if (N_of_ascii b0 <? 192)%N then String b0 "" :: code_units rest
      else if (N_of_ascii b0 <? 224)%N then
        match rest with
        | b1 :: rest1 => String b0 (String b1 "") :: code_units rest1
        | [] => [String b0 ""]
        end
      else if (N_of_ascii b0 <? 240)%N then
        match rest with
        | b1 :: b2 :: rest2 => String b0 (String b1 (String b2 "")) :: code_units rest2
        | _ => String b0 "" :: code_units rest
        end
      else
        match rest with
        | b1 :: b2 :: b3 :: rest3 =>
            let point :=
              ((N_of_ascii b0 mod 8) * 262144 + (N_of_ascii b1 mod 64) * 4096
               + (N_of_ascii b2 mod 64) * 64 + N_of_ascii b3 mod 64)%N in
            let offset := (point - 65536)%N in
            unit_of (55296 + offset / 1024) :: unit_of (56320 + offset mod 1024)
              :: code_units rest3
        | _ => String b0 "" :: code_units rest
        end
  end.

(** [v?.[0]] *)
Definition first_optional (v : value) : value :=
  match v with
  | VArray items => default VUndefined (head items)
  | VString s => default VUndefined (head (map VString (code_units (list_ascii_of_string s))))
  | VObject props => default VUndefined (own props "0")
  | _ => VUndefined
  end.

(** [Array.prototype.join] over the strings of the elements: [to_string] is
    applied to every element but null and undefined, which give the empty
    string. *)
Fixpoint join_with (to_string : value -> completion string) (separator : string)
    (items : list value) : completion string :=
  let element v := if is_nullish v then Normal "" else to_string v in
  match items with
  | [] => Normal ""
  | [v] => element v
  | v :: rest =>
      let! s := element v in
      let! tail := join_with to_string separator rest in
      Normal (s +:+ separator +:+ tail)
  end.

(** ToString, as a template literal and string concatenation apply it.  An
    array is joined with commas; a plain object gives "[object Object]",
    unless a property named toString shadows the inherited method: a value
    read from JSON is never callable, so the conversion throws. *)
Fixpoint ToString (v : value) : completion string :=
  match v with
  | VUndefined => Normal "undefined"
  | VNull => Normal "null"
  | VBool b => Normal (if b then "true" else "false")
  | VNumber x => Normal (Number.toString x)
  | VString s => Normal s
  | VArray items => join_with ToString "," items
  | VObject props =>
      match own props "toString" with
      | Some _ => Throw TypeError
      | None => Normal "[object Object]"
      end
  end.

(** [items.join(separator)] *)
Definition join (separator : string) (items : list value) : completion string :=
  join_with ToString separator items.

(** [Object.values(v)] *)
Definition Object_values (v : value) : completion (list value) :=
  match v with
  | VUndefined | VNull => Throw TypeError
  | VObject props => Normal (map snd props)
  | VArray items => Normal items
  | VString s => Normal (map VString (code_units (list_ascii_of_string s)))
  | VBool _ | VNumber _ => Normal []
  end.

(** [hay.includes(needle)] *)
Fixpoint includes (hay needle : string) : bool :=
  String.prefix needle hay ||
  match hay with
  | "" => false
  | String _ rest => includes rest needle
  end.

Definition is_lt (c : ascii) : bool := Ascii.eqb c "<".
Definition is_gt (c : ascii) : bool := Ascii.eqb c ">".

(** [text.replace(/<[^>]+>/g, '')]: a match starts at a "<" that is followed
    by one or more characters other than ">" and then by ">". *)
Fixpoint strip_from (inside : bool) (text : list ascii) : list ascii :=
  match text with
  | [] => []
  | c :: rest =>
      if inside then
        if is_gt c then strip_from false rest else strip_from true rest
      else if is_lt c then
        match rest with
        | c1 :: _ =>
            if negb (is_gt c1) && existsb is_gt rest
            then strip_from true rest
            else c :: strip_from false rest
        | [] => [c]
        end
      else c :: strip_from false rest
  end.

Definition strip_tags (text : string) : string :=
  string_of_list_ascii (strip_from false (list_ascii_of_string text)).

(** ** Documents *)

(** A component of a stored vector: a number, or the [null] that
    [JSON.stringify] writes in place of a number that is not finite. *)
Inductive component : Type :=
| Num (x : float)
| Null.

(** [doc.data] *)
Record doc_data : Type := { title : value; snippet : value }.

(** A document [{ id, data: { title, snippet }, embedding }]; [embedding] is
    [None] while the property is undefined. *)
Record document : Type := {
  id : value;
  data : doc_data;
  embedding : option (list component)
}.

(** ** Similarity search *)

(** [array.reduce(callback, initial)] with the callback [(acc, x, idx)]. *)
Fixpoint reduce {A B : Type} (callback : B -> A -> nat -> B) (array : list A)
    (idx : nat) (acc : B) : B :=
  match array with
  | [] => acc
  | x :: rest => reduce callback rest (S idx) (callback acc x idx)
  end.

(** ToNumber of [vecB[idx]]: a missing element is undefined and gives NaN,
    null gives +0. *)
Definition ToNumber (c : option component) : float :=
  match c with
  | None => nan
  | Some Null => 0%float
  | Some (Num x) => x
  end.

(** [vecA.reduce((sum, a, idx) => sum + a * vecB[idx], 0)] *)
Definition dotProduct (vecA : list float) (vecB : list component) : float :=
  reduce (fun sum a idx => (sum + a * ToNumber (vecB !! idx))%float) vecA 0%nat 0%float.

(** [Math.sqrt(vecA.reduce((sum, a) => sum + a * a, 0))] *)
Definition magA (vecA : list float) : float :=
  sqrt (reduce (fun sum a _ => (sum + a * a)%float) vecA 0%nat 0%float).

(** [Math.sqrt(vecB.reduce((sum, b) => sum + b * b, 0))] *)
Definition magB (vecB : list component) : float :=
  sqrt (reduce (fun sum b _ => (sum + ToNumber (Some b) * ToNumber (Some b))%float)
          vecB 0%nat 0%float).

(** The arithmetic of [cosineSimilarity] on two arrays. *)
Definition cosine (vecA : list float) (vecB : list component) : float :=
  (dotProduct vecA vecB / (magA vecA * magB vecB))%float.

(** [cosineSimilarity(vecA, vecB)]: [vecA.reduce] and [vecB.reduce] throw a
    TypeError when the array is undefined. *)
Definition cosineSimilarity (vecA : option (list float)) (vecB : option (list component))
    : completion float :=
  match vecA, vecB with
  | Some a, Some b => Normal (cosine a b)
  | _, _ => Throw TypeError
  end.

(** An element [{ doc, score }] of [similarities]. *)
Record scored : Type := { doc : document; score : float }.

(** The comparator [(a, b) => b.score - a.score]. *)
Definition comparefn (a b : scored) : float := (score b - score a)%float.

(** SortCompare of [Array.prototype.sort]: a comparator result that is NaN
    counts as +0. *)
Definition SortCompare (a b : scored) : float :=
  let v := comparefn a b in
  if is_nan v then 0%float else v.

(** [Array.prototype.sort] is a stable sort; it is modelled by insertion,
    where an element moves past the elements it must come after
    ([SortCompare x y > 0]).  With a comparator that orders the elements
    consistently every stable sort returns the same array; with scores that
    are NaN the comparator is not consistent, ECMAScript leaves the order to
    the implementation, and the model fixes the order insertion gives.  That
    order need not be the order of an engine (for the scores 0.316, 0.707,
    NaN, 1 the sort of V8 ends with NaN, insertion ends with 1); it is the
    order of every stable sort where every comparison is a tie, and on
    arrays of at most two elements. *)
Fixpoint sort_insert (x : scored) (sorted : list scored) : list scored :=
  match sorted with
  | [] => [x]
  | y :: rest =>
      if (0 <? SortCompare x y)%float then y :: sort_insert x rest else x :: y :: rest
  end.

Definition Array_sort (array : list scored) : list scored :=
  fold_right sort_insert [] array.

(** [getTopKDocuments(queryEmbedding, documents, k)]; [documents] is [None]
    when the argument is null. *)
Definition getTopKDocuments (queryEmbedding : option (list float))
    (documents : option (list document)) (k : nat) : completion (list document) :=
  match documents with
  | None => Throw TypeError
  | Some docs =>
      let! similarities :=
        map_completion
          (fun d =>
             let! s := cosineSimilarity queryEmbedding (embedding d) in
             Normal {| doc := d; score := s |})
          docs in
      Normal (map doc (take k (Array_sort similarities)))
  end.

(** ** The world of the server *)

(** The text of a corpus file, as [JSON.parse] reads it. *)
Inductive file_text : Type :=
| NotJson                (* text that JSON.parse rejects *)
| Json (content : value).

(** A record [{ id, title, snippet, embedding }] of the embeddings file; a
    key that is absent reads as undefined ([VUndefined], [None]). *)
Record cache_item : Type := {
  item_id : value;
  item_title : value;
  item_snippet : value;
  item_embedding : option (list component)
}.

(** The text of the embeddings file: the JSON array of its records, or text
    that [JSON.parse] rejects.  JSON of another shape (an object, an array
    that holds null) is not a text of the model; the source then throws on
    [.map] or on [item.id], after the line "Loaded ..." where the value has a
    length, and ends as for [CacheNotJson], with the warning and null. *)
Inductive cache_text : Type :=
| CacheNotJson
| CacheJson (items : list cache_item).

Record embed_request : Type := {
  texts : list value;
  model : string;
  input_type : string
}.

Record chat_request : Type := {
  chat_model : option string;
  message : value;
  documents : option (list string);   (* the [text] of each document *)
  preamble : option string;
  temperature : float;
  max_tokens : option nat
}.

Record chat_response : Type := { text : value; citations : value }.

(** The Cohere API: what the [n]-th call of each kind answers ([None]: the
    call is rejected). *)
Record provider : Type := {
  embed_reply : nat -> embed_request -> option (list (list float));
  chat_reply : nat -> chat_request -> option chat_response
}.

Inductive level : Type := LogLevel | WarnLevel | ErrorLevel.

(** What the server does to the outside, in order. *)
Inductive event : Type :=
| Console (l : level) (line : string)
| Embed (request : embed_request)
| Chat (request : chat_request)
| Sleep (ms : Z)
| FileWritten (path : string).

Record world : Type := {
  files : gmap string file_text;          (* the corpus files, by path *)
  embeddings_file : option cache_text;    (* EMBEDDINGS_FILE *)
  disk_writable : bool;                   (* whether fs.writeFile succeeds *)
  cohere : provider;
  cachedDocuments : option (list document);   (* [None] is null *)
  trace : list event
}.

Definition EMBEDDINGS_FILE : string := "./documents/embeddings.json".

(** [let cachedDocuments = []] and nothing done yet. *)
Definition initial_world (fs : gmap string file_text) (cache : option cache_text)
    (writable : bool) (api : provider) : world :=
  {| files := fs; embeddings_file := cache; disk_writable := writable;
     cohere := api; cachedDocuments := Some []; trace := [] |}.

(** An asynchronous function: it changes the world, and settles with a value
    or with a rejection. *)
Definition M (A : Type) : Type := world -> completion A * world.

Definition ret {A : Type} (a : A) : M A := fun w => (Normal a, w).

Definition bind {A B : Type} (m : M A) (k : A -> M B) : M B :=
  fun w =>
    match m w with
    | (Normal a, w') => k a w'
    | (Throw e, w') => (Throw e, w')
    end.

Notation "'let*' x ':=' m 'in' k" := (bind m (fun x => k))
  (at level 10, x pattern, m at level 100, k at level 200).

(** [try { body } catch (err) { handler }] *)
Definition try_catch {A : Type} (body : M A) (handler : error -> M A) : M A :=
  fun w =>
    match body w with
    | (Normal a, w') => (Normal a, w')
    | (Throw e, w') => handler e w'
    end.

Definition lift {A : Type} (c : completion A) : M A := fun w => (c, w).

(** The world with more events in its trace. *)
Definition add_events (w : world) (events : list event) : world :=
  {| files := files w; embeddings_file := embeddings_file w;
     disk_writable := disk_writable w; cohere := cohere w;
     cachedDocuments := cachedDocuments w; trace := trace w ++ events |}.

(** The world with another value of [cachedDocuments]. *)
Definition with_cachedDocuments (w : world) (docs : option (list document)) : world :=
  {| files := files w; embeddings_file := embeddings_file w;
     disk_writable := disk_writable w; cohere := cohere w;
     cachedDocuments := docs; trace := trace w |}.

(** The world with another text in the embeddings file. *)
Definition with_embeddings_file (w : world) (content : cache_text) : world :=
  {| files := files w; embeddings_file := Some content;
     disk_writable := disk_writable w; cohere := cohere w;
     cachedDocuments := cachedDocuments w; trace := trace w |}.

Definition emit (e : event) : M unit := fun w => (Normal tt, add_events w [e]).

Definition console_log (line : string) : M unit := emit (Console LogLevel line).
Definition console_warn (line : string) : M unit := emit (Console WarnLevel line).
Definition console_error (line : string) : M unit := emit (Console ErrorLevel line).

(** [cachedDocuments = docs] *)
Definition set_cachedDocuments (docs : option (list document)) : M unit :=
  fun w => (Normal tt, with_cachedDocuments w docs).

Definition get_cachedDocuments : M (option (list document)) :=
  fun w => (Normal (cachedDocuments w), w).

Definition is_embed (e : event) : bool :=
  match e with Embed _ => true | _ => false end.

Definition is_chat (e : event) : bool :=
  match e with Chat _ => true | _ => false end.

(** The calls made to the embedding endpoint and to the chat endpoint. *)
Definition embed_calls (w : world) : nat := length (List.filter is_embed (trace w)).
Definition chat_calls (w : world) : nat := length (List.filter is_chat (trace w)).

(** [await cohere.embed(request)], giving [response.embeddings]. *)
Definition cohere_embed (request : embed_request) : M (list (list float)) :=
  fun w =>
    let reply := embed_reply (cohere w) (embed_calls w) request in
    match emit (Embed request) w with
    | (_, w') =>
        match reply with
        | Some embeddings => (Normal embeddings, w')
        | None => (Throw ProviderError, w')
        end
    end.

(** [await cohere.chat(request)] *)
Definition cohere_chat (request : chat_request) : M chat_response :=
  fun w =>
    let reply := chat_reply (cohere w) (chat_calls w) request in
    match emit (Chat request) w with
    | (_, w') =>
        match reply with
        | Some response => (Normal response, w')
        | None => (Throw ProviderError, w')
        end
    end.

(** [await sleep(ms)] *)
Definition sleep (ms : Z) : M unit := emit (Sleep ms).

(** [await fs.readFile(file, 'utf-8')] of a corpus file. *)
Definition readFile (file : string) : M file_text :=
  fun w =>
    match files w !! file with
    | Some content => (Normal content, w)
    | None => (Throw FileError, w)
    end.

(** [JSON.parse(content)] *)
Definition JSON_parse (content : file_text) : completion value :=
  match content with
  | Json v => Normal v
  | NotJson => Throw SyntaxError
  end.

(** ** The normaliser: loadDocuments *)

(** A template literal: its literal text and its substitutions, in order. *)
Inductive piece : Type :=
| Lit (s : string)
| Sub (v : value).

Fixpoint template (pieces : list piece) : completion string :=
  match pieces with
  | [] => Normal ""
  | Lit s :: rest =>
      let! tail := template rest in
      Normal (s +:+ tail)
  | Sub v :: rest =>
      let! s := ToString v in
      let! tail := template rest in
      Normal (s +:+ tail)
  end.

(** The receiver of [.forEach] and [.map]: only an array has the method. *)
Definition array_items (v : value) : completion (list value) :=
  match v with
  | VArray items => Normal items
  | _ => Throw TypeError
  end.

(** The callback of the tour_details branch, giving the pushed document. *)
Definition tour_details_document (tour : value) : completion document :=
  let! details := get tour "details" in
  let! joined :=
    if is_nullish details then Normal VUndefined
    else
      let! items := array_items details in
      let! bodies := map_completion (fun d => get d "body") items in
      let! s := join " " bodies in
      Normal (VString s) in
  let detailsSnippet := or_else joined (VString "") in
  let! name := get tour "name" in
  let! id_text := template [Lit "tour_details_"; Sub name] in
  let! description := get tour "description" in
  let! snippet_text :=
    template [Sub (or_else description (VString "")); Lit " "; Sub detailsSnippet] in
  Normal {| id := VString id_text;
            data := {| title := name; snippet := VString snippet_text |};
            embedding := None |}.

(** The callback of the tours branch. *)
Definition tours_document (tour : value) : completion document :=
  let! name := get tour "name" in
  let! id_text := template [Lit "tours_"; Sub name] in
  let! product_line := get tour "product_line" in
  Normal {| id := VString id_text;
            data := {| title := name; snippet := or_else product_line (VString "") |};
            embedding := None |}.

(** The callback of the rest_countries branch. *)
Definition rest_countries_document (country : value) : completion document :=
  let! languages := get country "languages" in
  let! values := Object_values (or_else languages (VObject [])) in
  let! languageList := join ", " values in
  let! name := get country "name" in
  let! common := get_optional name "common" in
  let! id_text := template [Lit "rest_countries_"; Sub common] in
  let! official := get_optional name "official" in
  let! capital := get country "capital" in
  let! region := get country "region" in
  let! subregion := get country "subregion" in
  let! population := get country "population" in
  let! area := get country "area" in
  let! snippet_text :=
    template [Lit "Official Name: "; Sub official;
              Lit ". Capital: "; Sub (or_else (first_optional capital) (VString ""));
              Lit ". Region: "; Sub region;
              Lit ". Subregion: "; Sub subregion;
              Lit ". Population: "; Sub population;
              Lit ". Languages: "; Lit languageList;
              Lit ". Area: "; Sub area; Lit " sq km."] in
  Normal {| id := VString id_text;
            data := {| title := or_else common (VString "");
                       snippet := VString snippet_text |};
            embedding := None |}.

(** The callback of the unesco_sites branch. *)
Definition unesco_sites_document (site : value) : completion document :=
  let! name := get site "site" in
  let! id_text := template [Lit "unesco_sites_"; Sub name] in
  let! short_description := get site "short_description" in
  let! stripped :=
    match short_description with
    | VUndefined | VNull => Normal VUndefined
    | VString s => Normal (VString (strip_tags s))
    | _ => Throw TypeError     (* no [replace] method *)
    end in
  Normal {| id := VString id_text;
            data := {| title := or_else name (VString "");
                       snippet := or_else stripped (VString "") |};
            embedding := None |}.

(** The callback of the merged_countries branch. *)
Definition merged_countries_document (country : value) : completion document :=
  let! name := get country "name" in
  let! id_text := template [Lit "merged_countries_"; Sub name] in
  let! capital := get country "capital" in
  let! region := get country "region" in
  let! population := get country "population" in
  let! language := get country "language" in
  let! currency := get country "currency" in
  let! snippet_text :=
    template [Lit "Capital: "; Sub capital; Lit ", Region: "; Sub region;
              Lit ", Population: "; Sub population; Lit ", Language: "; Sub language;
              Lit ", Currency: "; Sub currency] in
  Normal {| id := VString id_text;
            data := {| title := or_else name (VString "");
                       snippet := VString snippet_text |};
            embedding := None |}.

(** [records.forEach(r => documents.push(callback(r)))]: the array
    [documents] keeps what was pushed before a callback throws. *)
Fixpoint forEach_push (callback : value -> completion document) (records : list value)
    (documents : list document) : completion unit * list document :=
  match records with
  | [] => (Normal tt, documents)
  | r :: rest =>
      match callback r with
      | Normal d => forEach_push callback rest (documents ++ [d])
      | Throw e => (Throw e, documents)
      end
  end.

(** [json.forEach(callback)] *)
Definition forEach_json (callback : value -> completion document) (json : value)
    (documents : list document) : completion unit * list document :=
  match array_items json with
  | Normal records => forEach_push callback records documents
  | Throw e => (Throw e, documents)
  end.

(** [json.query?.row?.forEach(callback)] *)
Definition forEach_rows (callback : value -> completion document) (json : value)
    (documents : list document) : completion unit * list document :=
  match get json "query" with
  | Throw e => (Throw e, documents)
  | Normal query =>
      match get_optional query "row" with
      | Throw e => (Throw e, documents)
      | Normal row =>
          if is_nullish row then (Normal tt, documents)
          else forEach_json callback row documents
      end
  end.

(** The branches on the name of the file, inside the [try]. *)
Definition push_documents (file : string) (json : value) (documents : list document)
    : completion unit * list document :=
  if includes file "tour_details" then forEach_json tour_details_document json documents
  else if includes file "tours" then forEach_json tours_document json documents
  else if includes file "rest_countries" then forEach_json rest_countries_document json documents
  else if includes file "unesco_sites" then forEach_rows unesco_sites_document json documents
  else if includes file "merged_countries" then forEach_json merged_countries_document json documents
  else (Normal tt, documents).

Definition corpus_files : list string :=
  [ "./documents/tour_details.json";
    "./documents/tours.json";
    "./documents/rest_countries.json";
    "./documents/unesco_sites.json";
    "./documents/merged_countries.json" ].

(** One round of [for (const file of files) { try { ... } catch (err) { ... } }]. *)
Definition load_file (file : string) (documents : list document) : M (list document) :=
  try_catch
    (let* content := readFile file in
     let* json := lift (JSON_parse content) in
     match push_documents file json documents with
     | (Normal _, documents') => ret documents'
     | (Throw e, documents') =>
         (* the pushes made before the throw stay in the array *)
         let* _ := console_error ("Error reading " +:+ file +:+ ":") in
         ret documents'
     end)
    (fun err =>
       let* _ := console_error ("Error reading " +:+ file +:+ ":") in
       ret documents).

Fixpoint load_files (files : list string) (documents : list document) : M (list document) :=
  match files with
  | [] => ret documents
  | file :: rest =>
      let* documents' := load_file file documents in
      load_files rest documents'
  end.

(** [loadDocuments()] *)
Definition loadDocuments : M (list document) :=
  let* documents := load_files corpus_files [] in
  let* _ := console_log ("Loaded " +:+ Number.of_nat (length documents) +:+ " documents") in
  ret documents.

(** ** The embedding pipeline *)

(** [Math.ceil(n / size)] for a positive [size]. *)
Definition ceil_div (n size : nat) : nat := ((n + size - 1) / size)%nat.

(** The text sent for a document: [`${doc.data.title}. ${doc.data.snippet}`]. *)
Definition document_text (d : document) : completion string :=
  template [Sub (title (data d)); Lit ". "; Sub (snippet (data d))].

(** The loop of [embedDocumentsInBatches], from index [i] on.  [fuel] bounds
    the rounds; with a positive [batchSize] the loop test ends the loop
    first (with [batchSize = 0] the source never leaves the loop). *)
Fixpoint embed_loop (fuel : nat) (documents : list document) (batchSize i : nat)
    (allEmbeddings : list (list float)) : M (list (list float)) :=
  if (i <? length documents)%nat then
    match fuel with
    | O => ret allEmbeddings
    | S fuel' =>
        let batch := take batchSize (drop i documents) in
        let* _ :=
          console_log ("Embedding batch " +:+ Number.of_nat (i / batchSize + 1) +:+ " of "
                       +:+ Number.of_nat (ceil_div (length documents) batchSize) +:+ "...") in
        let* batch_texts := lift (map_completion document_text batch) in
        let* embeddings :=
          cohere_embed {| texts := map VString batch_texts;
                          model := "embed-multilingual-v3.0";
                          input_type := "search_document" |} in
        let* _ := sleep 10000 in
        embed_loop fuel' documents batchSize (i + batchSize) (allEmbeddings ++ embeddings)
    end
  else ret allEmbeddings.

(** [embedDocumentsInBatches(documents, batchSize = 96)] *)
Definition embedDocumentsInBatches (documents : list document) (batchSize : nat)
    : M (list (list float)) :=
  embed_loop (length documents) documents batchSize 0 [].

(** What [JSON.parse] reads back from the text [JSON.stringify] writes for a
    number of a vector: null for NaN and the infinities, and 0 for -0. *)
Definition JSON_component (c : component) : component :=
  match c with
  | Num x => if is_finite x then Num (if is_zero x then 0%float else x) else Null
  | Null => Null
  end.

(** The same for a value inside an array or an object: undefined becomes
    null in an array, and a property whose value is undefined is left out. *)
Fixpoint JSON_value (v : value) : value :=
  match v with
  | VUndefined => VNull
  | VNull => VNull
  | VBool b => VBool b
  | VNumber x => if is_finite x then VNumber (if is_zero x then 0%float else x) else VNull
  | VString s => VString s
  | VArray items => VArray (map JSON_value items)
  | VObject props =>
      VObject
        ((fix properties (ps : list (string * value)) : list (string * value) :=
            match ps with
            | [] => []
            | (k, VUndefined) :: rest => properties rest
            | (k, p) :: rest => (k, JSON_value p) :: properties rest
            end) props)
  end.

(** The same for a property of a record: left out when undefined, and then
    read back as undefined. *)
Definition JSON_property (v : value) : value :=
  match v with
  | VUndefined => VUndefined
  | _ => JSON_value v
  end.

Definition JSON_item (item : cache_item) : cache_item :=
  {| item_id := JSON_property (item_id item);
     item_title := JSON_property (item_title item);
     item_snippet := JSON_property (item_snippet item);
     item_embedding := option_map (map JSON_component) (item_embedding item) |}.

(** [JSON.stringify(embeddingsData, null, 2)], as the text of the file. *)
Definition JSON_stringify (embeddingsData : list cache_item) : cache_text :=
  CacheJson (map JSON_item embeddingsData).

(** [await fs.writeFile(EMBEDDINGS_FILE, content, 'utf-8')] *)
Definition writeFile (content : cache_text) : M unit :=
  fun w =>
    if disk_writable w then emit (FileWritten EMBEDDINGS_FILE) (with_embeddings_file w content)
    else (Throw FileError, w).

(** [saveEmbeddingsToFile(documents)] *)
Definition saveEmbeddingsToFile (documents : list document) : M unit :=
  let embeddingsData :=
    map (fun d => {| item_id := id d;
                     item_title := title (data d);
                     item_snippet := snippet (data d);
                     item_embedding := embedding d |}) documents in
  let* _ := writeFile (JSON_stringify embeddingsData) in
  console_log ("Embeddings saved to " +:+ EMBEDDINGS_FILE).

(** [await fs.readFile(EMBEDDINGS_FILE, 'utf-8')] *)
Definition readEmbeddingsFile : M cache_text :=
  fun w =>
    match embeddings_file w with
    | Some content => (Normal content, w)
    | None => (Throw FileError, w)
    end.

(** [JSON.parse(content)] on the text of the embeddings file. *)
Definition JSON_parse_cache (content : cache_text) : completion (list cache_item) :=
  match content with
  | CacheJson items => Normal items
  | CacheNotJson => Throw SyntaxError
  end.

(** [loadEmbeddingsFromFile()]: the documents, or [None] for null. *)
Definition loadEmbeddingsFromFile : M (option (list document)) :=
  try_catch
    (let* content := readEmbeddingsFile in
     let* embeddingsData := lift (JSON_parse_cache content) in
     let* _ :=
       console_log ("Loaded " +:+ Number.of_nat (length embeddingsData)
                    +:+ " embeddings from " +:+ EMBEDDINGS_FILE) in
     ret (Some (map (fun item =>
                       {| id := item_id item;
                          data := {| title := item_title item; snippet := item_snippet item |};
                          embedding := item_embedding item |}) embeddingsData)))
    (fun err =>
       let* _ := console_warn "No existing embeddings file found. Will compute embeddings." in
       ret None).

(** [documents[i].embedding = embedding] *)
Definition set_embedding (d : document) (e : list float) : document :=
  {| id := id d; data := data d; embedding := Some (map Num e) |}.

(** [allEmbeddings.forEach((embedding, i) => { documents[i].embedding = embedding })],
    from index [i] on: the assignment throws when [documents[i]] is undefined. *)
Fixpoint assign_embeddings (allEmbeddings : list (list float)) (i : nat)
    (documents : list document) : completion (list document) :=
  match allEmbeddings with
  | [] => Normal documents
  | e :: rest =>
      match documents !! i with
      | Some d => assign_embeddings rest (S i) (<[i := set_embedding d e]> documents)
      | None => Throw TypeError
      end
  end.

(** The body of [if (!cachedDocuments) { ... }] down to the call of
    [saveEmbeddingsToFile]: the documents are loaded, embedded and saved. *)
Definition embed_corpus : M (list document) :=
  let* documents := loadDocuments in
  let* _ := console_log "Embedding documents..." in
  let* allEmbeddings := embedDocumentsInBatches documents 96 in
  let* documents := lift (assign_embeddings allEmbeddings 0 documents) in
  let* _ := saveEmbeddingsToFile documents in
  ret documents.

(** The whole body: the corpus build, ending with the assignment
    [cachedDocuments = documents]. *)
Definition build_corpus : M unit :=
  let* documents := embed_corpus in
  let* _ := set_cachedDocuments (Some documents) in
  console_log "Embeddings ready.".

(** [initializeDocuments()] *)
Definition initializeDocuments : M unit :=
  let* loaded := loadEmbeddingsFromFile in
  let* _ := set_cachedDocuments loaded in
  let* cached := get_cachedDocuments in
  match cached with
  | Some _ => ret tt
  | None => build_corpus
  end.

(** ** The request handlers *)

Record http_response : Type := { status : nat; body : value }.

Definition generate_preamble : string :=
  "You are a professional and friendly expert travel assistant named Y-TravelBot, working for Y-Travels. You must answer the users questions using ONLY the information provided in the documents below whenever possible. If a topic is not covered by the documents, you may use your own knowledge â€” but ONLY in the domain of travel and tourism. Stay strictly within this domain: travel, countries, cities, attractions, history, geography, local cuisine, culture, and things to do. DO NOT provide information about politics, economics, safety advice, or unrelated topics. Always write in a helpful, engaging tone suitable for a travel website audience. If country or place not refered to in documents please tell user to click generate itinerary in the nav bar".

(** [const { prompt } = req.body]; [request_body] is [req.body], the object
    that [express.json()] parsed. *)
Definition prompt_of (request_body : list (string * value)) : value :=
  default VUndefined (own request_body "prompt").

(** [app.post('/generate', ...)] *)
Definition generate (request_body : list (string * value)) : M http_response :=
  let prompt := prompt_of request_body in
  if negb (ToBoolean prompt) then
    ret {| status := 400; body := VObject [("error", VString "Prompt is required")] |}
  else
    try_catch
      (let* _ := console_log "Embedding user prompt..." in
       let* embeddings :=
         cohere_embed {| texts := [prompt];
                         model := "embed-multilingual-v3.0";
                         input_type := "search_document" |} in
       let queryEmbedding := head embeddings in
       let* cached := get_cachedDocuments in
       let* topDocuments := lift (getTopKDocuments queryEmbedding cached 10) in
       let* _ :=
         console_log ("Retrieved top " +:+ Number.of_nat (length topDocuments)
                      +:+ " documents.") in
       let* document_texts := lift (map_completion document_text topDocuments) in
       let* response :=
         cohere_chat {| chat_model := Some "command-r-plus";
                        message := prompt;
                        documents := Some document_texts;
                        preamble := Some generate_preamble;
                        temperature := 0.3%float;
                        max_tokens := None |} in
       let* _ := console_log "Cohere chat response:" in
       ret {| status := 200;
              body := VObject [("text", text response);
                               ("citations", coalesce (citations response) (VArray []))] |})
      (fun err =>
         let* _ := console_error "Error communicating with Cohere API:" in
         ret {| status := 500; body := VObject [("error", VString "Cohere request failed")] |}).

Definition double_quote : string := String "034"%char "".

(** [const { userInput } = req.body] *)
Definition userInput_of (request_body : list (string * value)) : value :=
  default VUndefined (own request_body "userInput").

(** [app.post('/holiday', ...)] *)
Definition holiday (request_body : list (string * value)) : M http_response :=
  let userInput := userInput_of request_body in
  try_catch
    (let* message_text :=
       lift (template [Lit "Generate a holiday itinerary based on this request: ";
                       Lit double_quote; Sub userInput; Lit double_quote;
                       Lit ". Format the response as Day-wise itinerary."]) in
     let* response :=
       cohere_chat {| chat_model := None;
                      message := VString message_text;
                      documents := None;
                      preamble := None;
                      temperature := 0.7%float;
                      max_tokens := Some 1000%nat |} in
     ret {| status := 200; body := VObject [("itinerary", text response)] |})
    (fun err =>
       let* _ := console_error "Error:" in
       ret {| status := 500; body := VObject [("error", VString "Failed to generate itinerary")] |}).

(** An entry of [users]. *)
Record user : Type := { email : string; password : string }.

(** [const users = [...]] *)
Definition users : list user :=
  [ {| email := "test@cohere.com"; password := "123456" |} ].

(** [s === v] for a string [s]: no conversion is made, [v] must be the same
    string. *)
Definition strict_equals (s : string) (v : value) : bool :=
  match v with
  | VString t => String.eqb s t
  | _ => false
  end.

(** [app.post('/api/auth/login', ...)] *)
Definition login (request_body : list (string * value)) : http_response :=
  let matches (e p : value) (u : user) :=
    strict_equals (email u) e && strict_equals (password u) p in
  let email := default VUndefined (own request_body "email") in
  let password := default VUndefined (own request_body "password") in
  if negb (ToBoolean email) || negb (ToBoolean password) then
    {| status := 400;
       body := VObject [("success", VBool false);
                        ("message", VString "Email and password are required")] |}
  else
    match List.find (matches email password) users with
    | Some _ =>
        {| status := 200;
           body := VObject [("success", VBool true);
                            ("message", VString "Login successful");
                            ("token", VString "dummy-token")] |}
    | None =>
        {| status := 401;
           body := VObject [("success", VBool false);
                            ("message", VString "Invalid credentials")] |}
    end.

(** ** Notions used in the statements *)

(** The rank of a value in the order of the numbers: comparing two values
    that are not NaN is comparing their ranks. *)
Definition rank_SF (x : spec_float) : Z :=
  match x with
  | S754_zero _ => 0
  | S754_infinity s => if s then - 2 ^ 70 else 2 ^ 70
  | S754_nan => 0
  | S754_finite s m e => cond_Zopp s ((e + 1075) * 2 ^ 53 + Z.pos m)
  end.

Definition rank (x : float) : Z := rank_SF (Prim2SF x).

(** A finite value as an integer multiple of [2^ez]. *)
Definition scaled (s : bool) (m : positive) (e ez : Z) : Z :=
  cond_Zopp s (Z.pos (fst (shl_align m e ez))).

(** Zero (of either sign) or NaN. *)
Definition zero_or_nan_SF (x : spec_float) : Prop :=
  match x with
  | S754_zero _ | S754_nan => True
  | _ => False
  end.

Definition zero_or_nan (x : float) : Prop := zero_or_nan_SF (Prim2SF x).

(** The similarity of a document to the query, as [getTopKDocuments]
    computes it. *)
Definition similarity (queryEmbedding : list float) (d : document) : float :=
  match embedding d with
  | Some v => cosine queryEmbedding v
  | None => nan
  end.

(** The document has a vector and its similarity to the query is a number. *)
Definition comparable (queryEmbedding : list float) (d : document) : bool :=
  match embedding d with
  | Some v => negb (is_nan (cosine queryEmbedding v))
  | None => false
  end.

(** [a] may stand before [b] in a descending order of similarity. *)
Definition descending (queryEmbedding : list float) (a b : document) : Prop :=
  (similarity queryEmbedding b <=? similarity queryEmbedding a)%float = true.

(** The documents whose similarity equals [s]. *)
Definition with_similarity (queryEmbedding : list float) (s : float) (docs : list document)
    : list document :=
  List.filter (fun d => (similarity queryEmbedding d =? s)%float) docs.

(** [{ doc, score }] for a document. *)
Definition scored_document (queryEmbedding : list float) (d : document) : scored :=
  {| doc := d; score := similarity queryEmbedding d |}.

(** The documents that [loadDocuments] returns in the world [w]: the corpus. *)
Definition corpus (w : world) : list document :=
  match fst (loadDocuments w) with
  | Normal documents => documents
  | Throw _ => []
  end.

(** The text of the document can be built. *)
Definition renders (d : document) : Prop := exists s, document_text d = Normal s.

(** Every call to the embedding endpoint is answered, with one vector for
    each text. *)
Definition answers_embed (api : provider) : Prop :=
  forall n request, exists embeddings,
    embed_reply api n request = Some embeddings /\
    length embeddings = length (texts request).

(** The embeddings file holds no usable cache: it is absent, or its text is
    not JSON. *)
Definition no_cache (w : world) : Prop :=
  embeddings_file w = None \/ embeddings_file w = Some CacheNotJson.

(** The computation never assigns [cachedDocuments], however it ends. *)
Definition keeps_cachedDocuments {A : Type} (m : M A) : Prop :=
  forall w, cachedDocuments (snd (m w)) = cachedDocuments w.

Definition is_write (e : event) : bool :=
  match e with FileWritten _ => true | _ => false end.

(** The calls to the embedding endpoint among some events, and the writes of
    the embeddings file. *)
Definition embeds (events : list event) : nat := length (List.filter is_embed events).
Definition chats (events : list event) : nat := length (List.filter is_chat events).
Definition writes (events : list event) : nat := length (List.filter is_write events).

(** The document that [loadEmbeddingsFromFile] builds from a record. *)
Definition document_of_item (item : cache_item) : document :=
  {| id := item_id item;
     data := {| title := item_title item; snippet := item_snippet item |};
     embedding := item_embedding item |}.

(** The record that [saveEmbeddingsToFile] builds from a document. *)
Definition item_of_document (d : document) : cache_item :=
  {| item_id := id d; item_title := title (data d);
     item_snippet := snippet (data d); item_embedding := embedding d |}.

(** The score is a number. *)
Definition numeric (a : scored) : Prop := is_nan (score a) = false.

(** [a] may stand before [b] in the order of the ranks of the scores. *)
Definition by_rank (a b : scored) : Prop := rank (score b) <= rank (score a).

(** A component that counts as zero in the arithmetic: +0, -0 or null. *)
Definition zero_component (c : component) : bool :=
  match c with
  | Num x => is_zero x
  | Null => true
  end.

(** The requests that [/generate] sends for a prompt. *)
Definition prompt_embed_request (prompt : value) : embed_request :=
  {| texts := [prompt]; model := "embed-multilingual-v3.0"; input_type := "search_document" |}.

Definition generate_chat_request (prompt : value) (document_texts : list string)
    : chat_request :=
  {| chat_model := Some "command-r-plus";
     message := prompt;
     documents := Some document_texts;
     preamble := Some generate_preamble;
     temperature := 0.3%float;
     max_tokens := None |}.

(** The replies of [/generate]. *)
Definition prompt_required : http_response :=
  {| status := 400; body := VObject [("error", VString "Prompt is required")] |}.

Definition cohere_request_failed : http_response :=
  {| status := 500; body := VObject [("error", VString "Cohere request failed")] |}.

Definition generated (response : chat_response) : http_response :=
  {| status := 200;
     body := VObject [("text", text response);
                      ("citations", coalesce (citations response) (VArray []))] |}.

(** A number that [JSON.stringify] writes and [JSON.parse] reads back as
    the same number: finite, and not the negative zero. *)
Definition JSON_safe_number (x : float) : bool :=
  is_finite x && (negb (is_zero x) || PrimFloat.Leibniz.eqb x 0%float).

Definition JSON_safe_component (c : component) : bool :=
  match c with
  | Num x => JSON_safe_number x
  | Null => true
  end.

(** A value that comes back unchanged from inside an array or an object. *)
Fixpoint JSON_safe (v : value) : bool :=
  match v with
  | VUndefined => false
  | VNull | VBool _ | VString _ => true
  | VNumber x => JSON_safe_number x
  | VArray items => forallb JSON_safe items
  | VObject props =>
      (fix properties (ps : list (string * value)) : bool :=
         match ps with
         | [] => true
         | (_, p) :: rest => JSON_safe p && properties rest
         end) props
  end.

(** A property of a record may also be undefined. *)
Definition JSON_safe_property (v : value) : bool :=
  match v with
  | VUndefined => true
  | _ => JSON_safe v
  end.

Definition JSON_safe_document (d : document) : bool :=
  JSON_safe_property (id d) && JSON_safe_property (title (data d)) &&
  JSON_safe_property (snippet (data d)) &&
  match embedding d with
  | Some vector => forallb JSON_safe_component vector
  | None => true
  end.

(** No part of the text matches [/<[^>]+>/]: every "<" is followed at once
    by ">", or by no ">" at all. *)
Fixpoint plain (text : list ascii) : bool :=
  match text with
  | [] => true
  | c :: rest =>
      (if is_lt c then
         match rest with
         | [] => true
         | c1 :: _ => is_gt c1 || negb (existsb is_gt rest)
         end
       else true) && plain rest
  end.

(** The line that [loadDocuments] writes when a file cannot be used. *)
Definition error_line (file : string) : event :=
  Console ErrorLevel ("Error reading " +:+ file +:+ ":").

(** The files whose content must be an array, each with the callback that
    [loadDocuments] runs on its records. *)
Definition array_branches : list (string * (value -> completion document)) :=
  [ ("./documents/tour_details.json", tour_details_document);
    ("./documents/tours.json", tours_document);
    ("./documents/rest_countries.json", rest_countries_document);
    ("./documents/merged_countries.json", merged_countries_document) ].

(** The five callbacks of [loadDocuments]. *)
Definition callbacks : list (value -> completion document) :=
  [ tour_details_document; tours_document; rest_countries_document;
    unesco_sites_document; merged_countries_document ].

(** The corpus files in the order in which they are read, each with the
    callback run on its records and the prefix of the ids of its documents. *)
Definition sources : list (string * ((value -> completion document) * string)) :=
  [ ("./documents/tour_details.json", (tour_details_document, "tour_details_"));
    ("./documents/tours.json", (tours_document, "tours_"));
    ("./documents/rest_countries.json", (rest_countries_document, "rest_countries_"));
    ("./documents/unesco_sites.json", (unesco_sites_document, "unesco_sites_"));
    ("./documents/merged_countries.json", (merged_countries_document, "merged_countries_")) ].

(** The documents that [loadDocuments] gets from one file: what the round of
    its loop for this file pushes, starting from no document. *)
Definition file_documents (w : world) (file : string) : list document :=
  match fst (load_file file [] w) with
  | Normal documents => documents
  | Throw _ => []
  end.

(** A document as [loadDocuments] makes it from a source: no vector yet, and
    an id that is a string starting with the prefix of the source. *)
Definition fresh_from (prefix : string) (d : document) : Prop :=
  embedding d = None /\ exists rest, id d = VString (prefix +:+ rest).

(** The requests sent to the embedding endpoint among some events. *)
Definition embed_request_of (e : event) : option embed_request :=
  match e with Embed request => Some request | _ => None end.

Definition embed_requests (events : list event) : list embed_request :=
  omap embed_request_of events.

(** What the API answers to some requests in a row, the first of them being
    its call number [n]: the vectors of the answers, one answer after the
    other. *)
Fixpoint replies (api : provider) (n : nat) (requests : list embed_request)
    : list (list float) :=
  match requests with
  | [] => []
  | request :: rest => default [] (embed_reply api n request) ++ replies api (S n) rest
  end.

(** The text sent for a document whose text can be built. *)
Definition text_of (d : document) : string :=
  match document_text d with
  | Normal s => s
  | Throw _ => ""
  end.

Definition is_sleep (e : event) : bool :=
  match e with Sleep _ => true | _ => false end.

(** A request of the corpus build: between 1 and 96 texts, for the model and
    the input type of the build. *)
Definition batch_request (request : embed_request) : Prop :=
  (0 < length (texts request) <= 96)%nat /\
  model request = "embed-multilingual-v3.0" /\ input_type request = "search_document".

(** [d'] is the document [d] with a vector. *)
Definition embedded_from (d d' : document) : Prop :=
  id d' = id d /\ data d' = data d /\ is_Some (embedding d').

(** The world in which the corpus build starts when no cache could be
    read. *)
Definition build_start (w : world) : world :=
  with_cachedDocuments
    (add_events w
       [Console WarnLevel "No existing embeddings file found. Will compute embeddings."])
    None.



(** The replies of [/api/auth/login]. *)
Definition login_required : http_response :=
  {| status := 400;
     body := VObject [("success", VBool false);
                      ("message", VString "Email and password are required")] |}.

Definition login_successful : http_response :=
  {| status := 200;
     body := VObject [("success", VBool true);
                      ("message", VString "Login successful");
                      ("token", VString "dummy-token")] |}.

Definition invalid_credentials : http_response :=
  {| status := 401;
     body := VObject [("success", VBool false);
                      ("message", VString "Invalid credentials")] |}.

(** The fields that [/api/auth/login] reads. *)
Definition email_of (request_body : list (string * value)) : value :=
  default VUndefined (own request_body "email").

Definition password_of (request_body : list (string * value)) : value :=
  default VUndefined (own request_body "password").

(** ** Tactics *)

(** A comparison of two integers, settled by arithmetic. *)
Ltac cmp_lia :=
  first [ apply Z.compare_eq_iff; lia | apply Z.compare_lt_iff; lia | apply Z.compare_gt_iff; lia ].
Ltac cmp_nia :=
  first [ apply Z.compare_lt_iff; nia | apply Z.compare_gt_iff; nia ].

(** One step through a sequence of [let!]: the cases of the first
    completion. *)
Ltac step_completion :=
  match goal with
  | |- context [bind_completion ?c _] =>
      destruct c eqn:?; cbn [bind_completion]; try discriminate
  end.

(** ** Sample data *)

Definition sample_document (name : string) (vector : list float) : document :=
  {| id := VString name;
     data := {| title := VString name; snippet := VString "" |};
     embedding := Some (map Num vector) |}.

(** The corpus of the scenario: embeddings [1,0], [0,1], [1,0]. *)
Definition scenario_corpus : list document :=
  [ sample_document "first" [1; 0]%float;
    sample_document "second" [0; 1]%float;
    sample_document "third" [1; 0]%float ].

(** A corpus whose second document has the zero vector. *)
Definition corpus_with_zero_vector : list document :=
  [ sample_document "diagonal" [1; 1]%float;
    sample_document "zero" [0; 0]%float;
    sample_document "aligned" [1; 0]%float ].

(** A corpus that starts with the zero vector. *)
Definition corpus_zero_first : list document :=
  [ sample_document "zero" [0; 0]%float;
    sample_document "aligned" [1; 0]%float ].

(** An API that answers every call: the vector [1,0] for each text, and a
    fixed chat reply. *)
Definition answering_api : provider :=
  {| embed_reply := fun _ request => Some (map (fun _ => [1; 0]%float) (texts request));
     chat_reply := fun _ _ => Some {| text := VString "answer"; citations := VUndefined |} |}.

(** The same API, except that it rejects the embedding call number [n]
    (counted from 0). *)
Definition api_rejecting (n : nat) : provider :=
  {| embed_reply := fun i request =>
       if (i =? n)%nat then None
       else Some (map (fun _ => [1; 0]%float) (texts request));
     chat_reply := chat_reply answering_api |}.

(** An API that rejects every call. *)
Definition rejecting_api : provider :=
  {| embed_reply := fun _ _ => None; chat_reply := fun _ _ => None |}.

(** Corpus files with [n] country profiles in merged_countries.json. *)
Definition sample_files (n : nat) : gmap string file_text :=
  {[ "./documents/merged_countries.json" :=
       Json (VArray (repeat (VObject [("name", VString "Peru"); ("capital", VString "Lima")]) n)) ]}.

Definition sample_item : cache_item :=
  {| item_id := VString "merged_countries_Peru";
     item_title := VString "Peru";
     item_snippet := VString "Capital: Lima";
     item_embedding := Some [Num 1; Num 0]%float |}.

(** A tours.json whose second record is null. *)
Definition files_with_null_record : gmap string file_text :=
  {[ "./documents/tours.json" :=
       Json (VArray [ VObject [("name", VString "Andes"); ("product_line", VString "Trek")];
                      VNull;
                      VObject [("name", VString "Coast")] ]) ]}.

(** An API that answers every embedding call with no vector at all. *)
Definition silent_api : provider :=
  {| embed_reply := fun _ _ => Some []; chat_reply := chat_reply answering_api |}.

(** * Properties *)

Local Open Scope list_scope.

(** ** Number to string *)

(** [Number.toString] on some numbers, as a JavaScript engine prints them. *)
Example Number_toString_samples :
  map Number.toString
    [0.1; 0.5; 1; 100; 1e21; 1e-7; 0.000001; 123456789.12345678; 5e-324;
     1.7976931348623157e308; 0.30000000000000004; 9007199254740992;
     9223372036854775808; 1.5e-323; 1e23; -2.5; neg_zero; nan; infinity;
     neg_infinity]%float =
    ["0.1"; "0.5"; "1"; "100"; "1e+21"; "1e-7"; "0.000001"; "123456789.12345678"; "5e-324";
     "1.7976931348623157e+308"; "0.30000000000000004"; "9007199254740992";
     "9223372036854776000"; "1.5e-323"; "1e+23"; "-2.5"; "0"; "NaN"; "Infinity";
     "-Infinity"].
Proof. vm_compute. reflexivity. Qed.

(** ** Code units *)

(** Indexing and [Object.values] on strings count in code units: a letter
    of two bytes is one element, a character outside the basic plane is two
    (here U+1F600, the surrogates D83D and DE00). *)
Example code_units_samples :
  first_optional (VString "Ürümqi") = VString "Ü" /\
  Object_values (VString "né") = Normal [VString "n"; VString "é"] /\
  first_optional (VString "") = VUndefined /\
  map String.length (code_units (list_ascii_of_string "a€😀")) = [1; 3; 3; 3]%nat /\
  code_units (list_ascii_of_string "😀") = [unit_of 55357; unit_of 56832].
Proof. repeat split; vm_compute; reflexivity. Qed.

(** ** Facts on binary64 arithmetic *)

Module FloatFacts.


Lemma digits2_size (m : positive) : digits2_pos m = Pos.size m.
Proof. induction m; simpl; congruence. Qed.

Lemma digits2_bounds (m : positive) :
  2 ^ (Z.pos (digits2_pos m) - 1) <= Z.pos m < 2 ^ Z.pos (digits2_pos m).
Proof.
  rewrite digits2_size.
  pose proof (Pos.size_gt m) as Hgt.
  pose proof (Pos.size_le m) as Hle.
  assert (E : forall n, Z.pos (2 ^ n) = 2 ^ Z.pos n) by (intros; apply Pos2Z.inj_pow).
  assert (Hgt' : Z.pos m < 2 ^ Z.pos (Pos.size m)) by (rewrite <- E; lia).
  assert (Hle' : 2 ^ Z.pos (Pos.size m) <= 2 * Z.pos m) by (rewrite <- E; lia).
  split; [|exact Hgt'].
  replace (Z.pos (Pos.size m)) with (Z.succ (Z.pos (Pos.size m) - 1)) in Hle' by lia.
  rewrite Z.pow_succ_r in Hle' by lia. lia.
Qed.

(** What validity says of a finite binary64 value. *)
Lemma valid_finite s m e :
  valid_binary (S754_finite s m e) = true ->
  -1074 <= e <= 971 /\ Z.pos (digits2_pos m) <= 53 /\ (-1074 < e -> Z.pos (digits2_pos m) = 53).
Proof.
  unfold valid_binary, SpecFloat.valid_binary, bounded, canonical_mantissa, fexp, emin, prec, emax.
  intros H. apply andb_true_iff in H as [H1 H2].
  apply Z.eqb_eq in H1. apply Z.leb_le in H2. lia.
Qed.

Lemma valid_mantissa s m e :
  valid_binary (S754_finite s m e) = true -> Z.pos m < 2 ^ 53.
Proof.
  intros H. apply valid_finite in H as (_ & Hd & _).
  pose proof (digits2_bounds m) as [_ Hm].
  eapply Z.lt_le_trans; [exact Hm|]. apply Z.pow_le_mono_r; lia.
Qed.

Lemma valid_normal s m e :
  valid_binary (S754_finite s m e) = true -> -1074 < e -> 2 ^ 52 <= Z.pos m.
Proof.
  intros H He. apply valid_finite in H as (_ & _ & Hd). specialize (Hd He).
  pose proof (digits2_bounds m) as [Hm _]. rewrite Hd in Hm. exact Hm.
Qed.

Lemma rank_finite_bounds s m e :
  valid_binary (S754_finite s m e) = true ->
  0 < (e + 1075) * 2 ^ 53 + Z.pos m < 2 ^ 70.
Proof.
  intros H. pose proof (valid_mantissa _ _ _ H). apply valid_finite in H as (He & _).
  change (2 ^ 70) with (2 ^ 17 * 2 ^ 53). 
  assert (0 < 2 ^ 53) by reflexivity. assert (2 ^ 17 = 131072) by reflexivity. nia.
Qed.

Lemma SFcompare_rank x y :
  valid_binary x = true -> valid_binary y = true -> x <> S754_nan -> y <> S754_nan ->
  SFcompare x y = Some (rank_SF x ?= rank_SF y).
Proof.
  intros Hx Hy Nx Ny.
  destruct x as [sx|sx| |sx mx ex], y as [sy|sy| |sy my ey]; try congruence;
    try (pose proof (rank_finite_bounds _ _ _ Hx));
    try (pose proof (rank_finite_bounds _ _ _ Hy));
    try (pose proof (valid_mantissa _ _ _ Hx));
    try (pose proof (valid_mantissa _ _ _ Hy));
    simpl SFcompare; unfold rank_SF, cond_Zopp.
  all: try (destruct sx; destruct sy; f_equal; symmetry;
            first [ apply Z.compare_eq_iff; lia | apply Z.compare_lt_iff; lia | apply Z.compare_gt_iff; lia ]; fail).
  all: try (destruct sx; f_equal; symmetry;
            first [ apply Z.compare_eq_iff; lia | apply Z.compare_lt_iff; lia | apply Z.compare_gt_iff; lia ]; fail).
  all: try (destruct sy; f_equal; symmetry;
            first [ apply Z.compare_eq_iff; lia | apply Z.compare_lt_iff; lia | apply Z.compare_gt_iff; lia ]; fail).
  assert (P : 0 < 2 ^ 53) by reflexivity.
  change (Pos.compare_cont Eq mx my) with (Pos.compare mx my).
  destruct sx, sy; f_equal; symmetry.
  - destruct (Z.compare_spec ex ey) as [E|E|E].
    + subst. destruct (Pos.compare_spec mx my) as [F|F|F]; simpl; cmp_lia.
    + cmp_nia.
    + cmp_nia.
  - cmp_lia.
  - cmp_lia.
  - destruct (Z.compare_spec ex ey) as [E|E|E].
    + subst. destruct (Pos.compare_spec mx my) as [F|F|F]; simpl; cmp_lia.
    + cmp_nia.
    + cmp_nia.
Qed.


(** *** Shifts *)

Lemma iter_xO (m d : positive) : Z.pos (Pos.iter xO m d) = Z.pos m * 2 ^ Z.pos d.
Proof.
  induction d as [|d IH] using Pos.peano_ind.
  - simpl. lia.
  - rewrite Pos.iter_succ, Pos2Z.inj_xO, IH, Pos2Z.inj_succ, Z.pow_succ_r by lia. lia.
Qed.

Lemma shl_align_value m e ez :
  ez <= e -> Z.pos (fst (shl_align m e ez)) = Z.pos m * 2 ^ (e - ez).
Proof.
  intros H. unfold shl_align.
  destruct (ez - e) as [|d|d] eqn:E; simpl fst.
  - replace (e - ez) with 0 by lia. lia.
  - lia.
  - rewrite iter_xO. f_equal. f_equal. lia.
Qed.

Lemma shl_align_exp m e ez :
  -1074 <= e -> -1074 <= ez -> -1074 <= snd (shl_align m e ez).
Proof.
  intros H1 H2. unfold shl_align. destruct (ez - e); simpl; lia.
Qed.

Lemma shr_1_m mrs : 0 <= shr_m mrs -> shr_m (shr_1 mrs) = shr_m mrs / 2.
Proof.
  destruct mrs as [m r s]. cbn [shr_m]. intros H.
  destruct m as [|[p|p|]|p]; cbn [shr_1 shr_m]; try lia; try reflexivity.
  - apply (Z.div_unique _ _ _ 1); lia.
  - apply (Z.div_unique _ _ _ 0); lia.
Qed.

Lemma iter_shr_1 p : forall mrs,
  0 <= shr_m mrs -> shr_m (SpecFloat.iter_pos shr_1 p mrs) = shr_m mrs / 2 ^ Z.pos p.
Proof.
  assert (D : forall mrs, 0 <= shr_m mrs -> 0 <= shr_m (shr_1 mrs)).
  { intros mrs H. rewrite shr_1_m by exact H. apply Z.div_pos; lia. }
  induction p as [p IH|p IH|]; intros mrs H; simpl SpecFloat.iter_pos.
  - assert (P : 0 < 2 ^ Z.pos p) by (apply Z.pow_pos_nonneg; lia).
    assert (H1 : 0 <= shr_m (shr_1 mrs)) by auto.
    assert (H2 : 0 <= shr_m (SpecFloat.iter_pos shr_1 p (shr_1 mrs))).
    { rewrite IH by exact H1. apply Z.div_pos; lia. }
    rewrite IH by exact H2. rewrite IH by exact H1. rewrite shr_1_m by exact H.
    rewrite !Z.div_div by lia. f_equal.
    replace (Z.pos p~1) with (Z.pos p + Z.pos p + 1) by lia.
    rewrite !Z.pow_add_r by lia. change (2 ^ 1) with 2. ring.
  - assert (P : 0 < 2 ^ Z.pos p) by (apply Z.pow_pos_nonneg; lia).
    assert (H2 : 0 <= shr_m (SpecFloat.iter_pos shr_1 p mrs)).
    { rewrite IH by exact H. apply Z.div_pos; lia. }
    rewrite IH by exact H2. rewrite IH by exact H.
    rewrite !Z.div_div by lia. f_equal.
    replace (Z.pos p~0) with (Z.pos p + Z.pos p) by lia.
    rewrite !Z.pow_add_r by lia. ring.
  - rewrite shr_1_m by exact H. reflexivity.
Qed.


(** *** Rounding keeps a non-zero mantissa non-zero *)

Lemma shr_record_of_loc_m m l : shr_m (shr_record_of_loc m l) = m.
Proof. destruct l as [|[]]; reflexivity. Qed.

Lemma shr_fexp_pos m e l :
  0 < m -> -1074 <= e ->
  0 < shr_m (fst (shr_fexp prec emax m e l)) /\ -1074 <= snd (shr_fexp prec emax m e l).
Proof.
  intros Hm He. unfold shr_fexp, shr.
  destruct m as [|p|p]; try lia. cbn [Zdigits2].
  pose proof (digits2_bounds p) as [Hlo Hhi].
  set (d := Z.pos (digits2_pos p)) in *.
  assert (Hd : 0 < d) by (unfold d; lia).
  unfold fexp, emin, prec, emax.
  destruct (Z.max (d + e - 53) (3 - 1024 - 53) - e) as [|n|n] eqn:E; cbn [fst snd].
  - rewrite shr_record_of_loc_m. lia.
  - rewrite iter_shr_1 by (rewrite shr_record_of_loc_m; lia).
    rewrite shr_record_of_loc_m.
    assert (Hn : Z.pos n = d - 53) by lia.
    split; [|lia].
    apply Z.div_str_pos. split; [apply Z.pow_pos_nonneg; lia|].
    eapply Z.le_trans; [|exact Hlo]. apply Z.pow_le_mono_r; lia.
  - rewrite shr_record_of_loc_m. lia.
Qed.

Lemma round_nearest_even_pos m l : 0 < m -> 0 < round_nearest_even m l.
Proof.
  intros H. destruct l as [|[]]; simpl; try lia. destruct (Z.even m); lia.
Qed.

Lemma binary_round_aux_sign sx m e l :
  0 < m -> -1074 <= e ->
  (exists m' e', binary_round_aux prec emax sx m e l = S754_finite sx m' e') \/
  binary_round_aux prec emax sx m e l = S754_infinity sx.
Proof.
  intros Hm He. unfold binary_round_aux.
  pose proof (shr_fexp_pos m e l Hm He) as [H1 H2].
  destruct (shr_fexp prec emax m e l) as [mrs' e']. cbn [fst snd] in H1, H2.
  pose proof (round_nearest_even_pos _ (loc_of_shr_record mrs') H1) as H3.
  pose proof (shr_fexp_pos _ e' loc_Exact H3 H2) as [H4 H5].
  destruct (shr_fexp prec emax _ e' loc_Exact) as [mrs'' e'']. cbn [fst snd] in H4, H5.
  destruct (shr_m mrs'') as [|q|q]; try lia.
  destruct (e'' <=? emax - prec); eauto.
Qed.

Lemma binary_round_sign sx m e :
  -1074 <= e ->
  (exists m' e', binary_round prec emax sx m e = S754_finite sx m' e') \/
  binary_round prec emax sx m e = S754_infinity sx.
Proof.
  intros He. unfold binary_round.
  pose proof (shl_align_exp m e (fexp prec emax (Z.pos (digits2_pos m) + e)) He) as H.
  destruct (shl_align m e _) as [mz ez]. cbn [snd] in H.
  apply binary_round_aux_sign; [lia|].
  apply H. unfold fexp, emin, prec, emax. lia.
Qed.

(** The sign of a sum or difference computed by [binary_normalize]. *)
Lemma binary_normalize_sign d e :
  -1074 <= e ->
  SFltb (S754_zero false) (binary_normalize prec emax d e false) = (0 <? d).
Proof.
  intros He. unfold binary_normalize.
  destruct d as [|p|p].
  - reflexivity.
  - destruct (binary_round_sign false p e He) as [(m' & e' & ->)| ->]; reflexivity.
  - destruct (binary_round_sign true p e He) as [(m' & e' & ->)| ->]; reflexivity.
Qed.

(** *** Subtraction and order *)

Lemma scaled_order sx mx ex sy my ey :
  valid_binary (S754_finite sx mx ex) = true ->
  valid_binary (S754_finite sy my ey) = true ->
  (scaled sx mx ex (Z.min ex ey) ?= scaled sy my ey (Z.min ex ey)) =
  (rank_SF (S754_finite sx mx ex) ?= rank_SF (S754_finite sy my ey)).
Proof.
  intros Hx Hy. unfold scaled.
  rewrite !shl_align_value by lia.
  pose proof (valid_mantissa _ _ _ Hx) as Mx. pose proof (valid_mantissa _ _ _ Hy) as My.
  pose proof (valid_finite _ _ _ Hx) as (Ex & _ & _).
  pose proof (valid_finite _ _ _ Hy) as (Ey & _ & _).
  assert (P : 0 < 2 ^ 53) by reflexivity.
  assert (Q : 2 ^ 53 = 2 * 2 ^ 52) by reflexivity.
  assert (Sx : 0 < Z.pos mx * 2 ^ (ex - Z.min ex ey)).
  { apply Z.mul_pos_pos; [lia|apply Z.pow_pos_nonneg; lia]. }
  assert (Sy : 0 < Z.pos my * 2 ^ (ey - Z.min ex ey)).
  { apply Z.mul_pos_pos; [lia|apply Z.pow_pos_nonneg; lia]. }
  assert (Key : (Z.pos mx * 2 ^ (ex - Z.min ex ey) ?= Z.pos my * 2 ^ (ey - Z.min ex ey)) =
                ((ex + 1075) * 2 ^ 53 + Z.pos mx ?= (ey + 1075) * 2 ^ 53 + Z.pos my)).
  { destruct (Z.lt_trichotomy ex ey) as [L|[L|L]].
    - pose proof (valid_normal _ _ _ Hy ltac:(lia)) as Ny.
      rewrite Z.min_l by lia. replace (ex - ex) with 0 by lia.
      assert (2 ^ 1 <= 2 ^ (ey - ex)) by (apply Z.pow_le_mono_r; lia).
      change (2 ^ 1) with 2 in *. change (2 ^ 0) with 1.
      transitivity Lt; [|symmetry]; apply Z.compare_lt_iff; nia.
    - subst ey. rewrite Z.min_id. replace (ex - ex) with 0 by lia. change (2 ^ 0) with 1.
      destruct (Z.compare_spec (Z.pos mx) (Z.pos my)) as [F|F|F].
      + transitivity Eq; [|symmetry]; apply Z.compare_eq_iff; lia.
      + transitivity Lt; [|symmetry]; apply Z.compare_lt_iff; lia.
      + transitivity Gt; [|symmetry]; apply Z.compare_gt_iff; lia.
    - pose proof (valid_normal _ _ _ Hx ltac:(lia)) as Nx.
      rewrite Z.min_r by lia. replace (ey - ey) with 0 by lia.
      assert (2 ^ 1 <= 2 ^ (ex - ey)) by (apply Z.pow_le_mono_r; lia).
      change (2 ^ 1) with 2 in *. change (2 ^ 0) with 1.
      transitivity Gt; [|symmetry]; apply Z.compare_gt_iff; nia. }
  pose proof (rank_finite_bounds _ _ _ Hx) as Rx.
  pose proof (rank_finite_bounds _ _ _ Hy) as Ry.
  unfold rank_SF, cond_Zopp.
  destruct sx, sy.
  - rewrite !Z.compare_opp.
    rewrite (Z.compare_antisym (Z.pos mx * _)), (Z.compare_antisym ((ex + 1075) * _ + _)).
    rewrite Key. reflexivity.
  - transitivity Lt; [|symmetry]; apply Z.compare_lt_iff; lia.
  - transitivity Gt; [|symmetry]; apply Z.compare_gt_iff; lia.
  - exact Key.
Qed.

Lemma SFsub_sign x y :
  valid_binary x = true -> valid_binary y = true -> x <> S754_nan -> y <> S754_nan ->
  SFltb (S754_zero false) (SF64sub y x) = SFltb x y.
Proof.
  intros Hx Hy Nx Ny.
  destruct x as [sx|sx| |sx mx ex], y as [sy|sy| |sy my ey]; try congruence;
    try (destruct sx, sy; reflexivity); try (destruct sx; reflexivity);
    try (destruct sy; reflexivity).
  unfold SF64sub, SFsub.
  pose proof (valid_finite _ _ _ Hx) as (Ex & _ & _).
  pose proof (valid_finite _ _ _ Hy) as (Ey & _ & _).
  rewrite binary_normalize_sign by lia.
  unfold SFltb. rewrite (SFcompare_rank _ _ Hx Hy Nx Ny).
  rewrite <- (scaled_order _ _ _ _ _ _ Hx Hy). unfold scaled.
  rewrite (Z.min_comm ey ex).
  set (X := cond_Zopp sx _). set (Y := cond_Zopp sy _).
  destruct (Z.compare_spec X Y); destruct (Z.ltb_spec 0 (Y - X)); try reflexivity; lia.
Qed.


(** *** The primitive operations *)

Lemma is_nan_SF (x : float) : is_nan x = true <-> Prim2SF x = S754_nan.
Proof.
  unfold is_nan. rewrite FloatAxioms.eqb_spec. unfold SFeqb.
  destruct (Prim2SF x) as [s|s| |s m e] eqn:E.
  - split; [discriminate|congruence].
  - split; [|congruence]. destruct s; discriminate.
  - split; reflexivity.
  - split; [|congruence].
    pose proof (Prim2SF_valid x) as V. rewrite E in V.
    rewrite (SFcompare_rank _ _ V V) by congruence.
    rewrite Z.compare_refl. discriminate.
Qed.

Lemma not_nan_SF (x : float) : is_nan x = false <-> Prim2SF x <> S754_nan.
Proof.
  rewrite <- is_nan_SF. destruct (is_nan x); split; congruence.
Qed.

Lemma compare_rank (x y : float) :
  is_nan x = false -> is_nan y = false ->
  SFcompare (Prim2SF x) (Prim2SF y) = Some (rank x ?= rank y).
Proof.
  intros Hx Hy. apply SFcompare_rank; try apply Prim2SF_valid; now apply not_nan_SF.
Qed.

Lemma ltb_rank (x y : float) :
  is_nan x = false -> is_nan y = false -> (x <? y)%float = (rank x <? rank y).
Proof.
  intros Hx Hy. rewrite ltb_spec. unfold SFltb. rewrite compare_rank by assumption.
  unfold Z.ltb. destruct (rank x ?= rank y); reflexivity.
Qed.

Lemma leb_rank (x y : float) :
  is_nan x = false -> is_nan y = false -> (x <=? y)%float = (rank x <=? rank y).
Proof.
  intros Hx Hy. rewrite leb_spec. unfold SFleb. rewrite compare_rank by assumption.
  unfold Z.leb. destruct (rank x ?= rank y); reflexivity.
Qed.

Lemma eqb_rank (x y : float) :
  is_nan x = false -> is_nan y = false -> (x =? y)%float = (rank x =? rank y).
Proof.
  intros Hx Hy. rewrite FloatAxioms.eqb_spec. unfold SFeqb. rewrite compare_rank by assumption.
  rewrite Z.eqb_compare. destruct (rank x ?= rank y); reflexivity.
Qed.

Lemma eqb_nan_r (x y : float) : is_nan y = true -> (x =? y)%float = false.
Proof.
  intros H. apply is_nan_SF in H. rewrite FloatAxioms.eqb_spec, H.
  destruct (Prim2SF x); reflexivity.
Qed.

Lemma ltb_nan_r (x y : float) : is_nan y = true -> (x <? y)%float = false.
Proof.
  intros H. apply is_nan_SF in H. rewrite ltb_spec, H.
  destruct (Prim2SF x); reflexivity.
Qed.

(** The comparator of the sort: for two numbers, [y - x] is positive exactly
    when [x < y]. *)
Lemma sub_pos (x y : float) :
  is_nan x = false -> is_nan y = false -> (0 <? y - x)%float = (x <? y)%float.
Proof.
  intros Hx Hy. rewrite !ltb_spec, sub_spec.
  change (Prim2SF 0) with (S754_zero false).
  apply SFsub_sign; try apply Prim2SF_valid; now apply not_nan_SF.
Qed.





Lemma sub_nan_l (x y : float) : is_nan x = true -> is_nan (x - y) = true.
Proof.
  rewrite !is_nan_SF, sub_spec. intros ->. reflexivity.
Qed.

Lemma sub_nan_r (x y : float) : is_nan y = true -> is_nan (x - y) = true.
Proof.
  rewrite !is_nan_SF, sub_spec. intros ->. destruct (Prim2SF x); reflexivity.
Qed.

(** Arithmetic on zeros. *)
Lemma mul_zero_or_nan (x y : float) : zero_or_nan y -> zero_or_nan (x * y).
Proof.
  unfold zero_or_nan. rewrite mul_spec.
  destruct (Prim2SF x), (Prim2SF y); simpl; tauto.
Qed.

Lemma add_zero_or_nan (x y : float) : zero_or_nan x -> zero_or_nan y -> zero_or_nan (x + y).
Proof.
  unfold zero_or_nan. rewrite add_spec.
  destruct (Prim2SF x) as [[]|[]| |[]], (Prim2SF y) as [[]|[]| |[]]; simpl; tauto.
Qed.

Lemma sqrt_zero_or_nan (x : float) : zero_or_nan x -> zero_or_nan (sqrt x).
Proof.
  unfold zero_or_nan. rewrite sqrt_spec.
  destruct (Prim2SF x) as [[]|[]| |[]]; simpl; tauto.
Qed.

Lemma div_zero_or_nan (x y : float) : zero_or_nan x -> zero_or_nan y -> is_nan (x / y) = true.
Proof.
  unfold zero_or_nan. rewrite is_nan_SF, div_spec.
  destruct (Prim2SF x) as [[]|[]| |[]], (Prim2SF y) as [[]|[]| |[]]; simpl; tauto.
Qed.

Lemma is_zero_zero_or_nan (x : float) : is_zero x = true -> zero_or_nan x.
Proof.
  unfold zero_or_nan, is_zero. rewrite FloatAxioms.eqb_spec.
  change (Prim2SF zero) with (S754_zero false).
  destruct (Prim2SF x) as [[]|[]| |[]]; simpl; try discriminate; tauto.
Qed.

Lemma SFmul_comm (x y : spec_float) : SF64mul x y = SF64mul y x.
Proof.
  destruct x as [sx|sx| |sx mx ex], y as [sy|sy| |sy my ey]; simpl;
    rewrite ?(xorb_comm sx sy); try reflexivity.
  now rewrite Pos.mul_comm, Z.add_comm.
Qed.

(** Multiplication of numbers is commutative. *)
Lemma mul_comm (x y : float) : (x * y = y * x)%float.
Proof.
  rewrite <- (SF2Prim_Prim2SF (x * y)), <- (SF2Prim_Prim2SF (y * x)).
  now rewrite !mul_spec, SFmul_comm.
Qed.

Lemma mul_zero_or_nan_l (x y : float) : zero_or_nan x -> zero_or_nan (x * y).
Proof. rewrite mul_comm. apply mul_zero_or_nan. Qed.

End FloatFacts.

(** ** The sort *)

Section SortFacts.

Implicit Types (x y a b : scored) (l : list scored).

Lemma SortCompare_pos a b : (0 <? SortCompare a b)%float = (0 <? comparefn a b)%float.
Proof.
  unfold SortCompare. destruct (is_nan (comparefn a b)) eqn:E; [|reflexivity].
  rewrite (FloatFacts.ltb_nan_r _ _ E). reflexivity.
Qed.

(** With a score that is NaN on either side the comparator reports a tie. *)
Lemma SortCompare_nan a b :
  is_nan (score a) = true \/ is_nan (score b) = true -> (0 <? SortCompare a b)%float = false.
Proof.
  intros H. rewrite SortCompare_pos. apply FloatFacts.ltb_nan_r. unfold comparefn.
  destruct H; [now apply FloatFacts.sub_nan_r | now apply FloatFacts.sub_nan_l].
Qed.

Lemma SortCompare_rank x y :
  numeric x -> numeric y ->
  (0 <? SortCompare x y)%float = (rank (score x) <? rank (score y)).
Proof.
  intros Hx Hy. rewrite SortCompare_pos. unfold comparefn.
  rewrite FloatFacts.sub_pos by assumption. now apply FloatFacts.ltb_rank.
Qed.

Lemma sort_insert_perm x l : Permutation (sort_insert x l) (x :: l).
Proof.
  induction l as [|y l IH]; simpl; [reflexivity|].
  destruct (0 <? SortCompare x y)%float; [|reflexivity].
  rewrite IH. apply perm_swap.
Qed.

Lemma Array_sort_perm l : Permutation (Array_sort l) l.
Proof.
  induction l as [|x l IH]; simpl; [reflexivity|].
  rewrite sort_insert_perm. now constructor.
Qed.

Lemma Array_sort_length l : length (Array_sort l) = length l.
Proof. apply Permutation_length, Array_sort_perm. Qed.

Lemma sort_insert_sorted x l :
  numeric x -> Forall numeric l ->
  StronglySorted by_rank l -> StronglySorted by_rank (sort_insert x l).
Proof.
  intros Hx Hl Hs. induction Hs as [|y l Hs IH Hy]; simpl.
  - repeat constructor.
  - inversion Hl as [|? ? Ny Nl]; subst.
    rewrite SortCompare_rank by assumption.
    destruct (Z.ltb_spec (rank (score x)) (rank (score y))) as [L|L].
    + constructor; [now apply IH|].
      eapply Permutation_Forall; [symmetry; apply sort_insert_perm|].
      constructor; [unfold by_rank; lia|exact Hy].
    + constructor; [now constructor|].
      constructor; [exact L|].
      eapply Forall_impl; [exact Hy|]. unfold by_rank. intros; lia.
Qed.

Lemma Array_sort_sorted l : Forall numeric l -> StronglySorted by_rank (Array_sort l).
Proof.
  induction 1 as [|x l Hx Hl IH]; simpl; [constructor|].
  apply sort_insert_sorted; auto.
  eapply Permutation_Forall; [symmetry; apply Array_sort_perm|exact Hl].
Qed.

(** Stability: the elements of one score keep their order. *)
Lemma sort_insert_stable (s : float) x l :
  numeric x -> Forall numeric l ->
  List.filter (fun a => (score a =? s)%float) (sort_insert x l) =
  List.filter (fun a => (score a =? s)%float) (x :: l).
Proof.
  intros Hx Hl. induction Hl as [|y l Hy Hl IH]; [reflexivity|].
  cbn [sort_insert]. rewrite SortCompare_rank by assumption.
  destruct (Z.ltb_spec (rank (score x)) (rank (score y))) as [L|L]; [|reflexivity].
  cbn [List.filter] in *. rewrite IH.
  destruct (score x =? s)%float eqn:Ex; [|reflexivity].
  destruct (score y =? s)%float eqn:Ey; [|reflexivity].
  exfalso.
  destruct (is_nan s) eqn:Ns.
  - rewrite FloatFacts.eqb_nan_r in Ex by assumption. discriminate.
  - rewrite FloatFacts.eqb_rank in Ex, Ey by assumption.
    apply Z.eqb_eq in Ex, Ey. lia.
Qed.

Lemma Array_sort_stable (s : float) l :
  Forall numeric l ->
  List.filter (fun a => (score a =? s)%float) (Array_sort l) =
  List.filter (fun a => (score a =? s)%float) l.
Proof.
  induction 1 as [|x l Hx Hl IH]; [reflexivity|].
  cbn [Array_sort fold_right]. fold (Array_sort l).
  rewrite sort_insert_stable; auto.
  - cbn [List.filter]. rewrite IH. reflexivity.
  - eapply Permutation_Forall; [symmetry; apply Array_sort_perm|exact Hl].
Qed.

End SortFacts.


(** ** Similarity search *)

Section SearchFacts.

Variable queryEmbedding : list float.

Lemma StronglySorted_impl_on {A : Type} (R R' : A -> A -> Prop) (P : A -> Prop) (l : list A) :
  (forall a b, P a -> P b -> R a b -> R' a b) ->
  Forall P l -> StronglySorted R l -> StronglySorted R' l.
Proof.
  intros HR HP Hs. induction Hs as [|a l Hs IH Ha]; [constructor|].
  inversion HP as [|? ? Pa Pl]; subst.
  constructor; [now apply IH|].
  rewrite Forall_forall in *. intros b Hb. apply HR; auto.
Qed.

Lemma StronglySorted_map {A B : Type} (R : B -> B -> Prop) (f : A -> B) (l : list A) :
  StronglySorted (fun a b => R (f a) (f b)) l -> StronglySorted R (map f l).
Proof.
  induction 1 as [|a l Hs IH Ha]; simpl; [constructor|].
  constructor; [exact IH|].
  rewrite Forall_forall in Ha. apply Forall_forall. intros b Hb.
  apply list_elem_of_In, in_map_iff in Hb as (c & <- & Hc). apply list_elem_of_In in Hc. auto.
Qed.

(** Every document has a vector: the scores are computed without an error. *)
Lemma similarities_of (docs : list document) :
  Forall (fun d => is_Some (embedding d)) docs ->
  map_completion
    (fun d =>
       let! s := cosineSimilarity (Some queryEmbedding) (embedding d) in
       Normal {| doc := d; score := s |}) docs
  = Normal (map (scored_document queryEmbedding) docs).
Proof.
  induction 1 as [|d docs [v Hd] Hdocs IH]; [reflexivity|].
  cbn [map_completion map]. rewrite IH.
  unfold scored_document at 2, similarity. rewrite Hd. reflexivity.
Qed.

Lemma getTopKDocuments_sorted (docs : list document) (k : nat) :
  Forall (fun d => is_Some (embedding d)) docs ->
  getTopKDocuments (Some queryEmbedding) (Some docs) k =
  Normal (map doc (take k (Array_sort (map (scored_document queryEmbedding) docs)))).
Proof.
  intros H. unfold getTopKDocuments. rewrite (similarities_of docs H). reflexivity.
Qed.

(** The search never fails on documents that have vectors, and returns
    [min k n] documents. *)
Lemma getTopKDocuments_length (docs : list document) (k : nat) :
  Forall (fun d => is_Some (embedding d)) docs ->
  exists top,
    getTopKDocuments (Some queryEmbedding) (Some docs) k = Normal top /\
    length top = Nat.min k (length docs).
Proof.
  intros H. eexists. split; [apply getTopKDocuments_sorted, H|].
  rewrite length_map, length_take, Array_sort_length, length_map. reflexivity.
Qed.

Lemma comparable_vector (d : document) :
  comparable queryEmbedding d = true ->
  is_Some (embedding d) /\ numeric (scored_document queryEmbedding d).
Proof.
  unfold comparable, numeric, scored_document, similarity. simpl.
  destruct (embedding d) as [v|]; [|discriminate].
  intros H. split; [eauto|]. now apply negb_true_iff in H.
Qed.

Lemma comparable_all (docs : list document) :
  forallb (comparable queryEmbedding) docs = true ->
  Forall (fun d => is_Some (embedding d)) docs /\
  Forall numeric (map (scored_document queryEmbedding) docs).
Proof.
  induction docs as [|d docs IH]; simpl; [auto|].
  intros H. apply andb_true_iff in H as [Hd Hdocs].
  destruct (comparable_vector d Hd), (IH Hdocs). split; constructor; auto.
Qed.

End SearchFacts.

(** The documents in their stable descending order: what is returned,
    followed by what is cut off, is a rearrangement of the corpus, ordered by
    descending similarity, in which the documents of any one similarity keep
    their corpus order. *)
Lemma getTopKDocuments_stable_order (queryEmbedding : list float) (docs : list document) (k : nat) :
  forallb (comparable queryEmbedding) docs = true ->
  exists top rest,
    getTopKDocuments (Some queryEmbedding) (Some docs) k = Normal top /\
    length top = Nat.min k (length docs) /\
    Permutation (top ++ rest) docs /\
    StronglySorted (descending queryEmbedding) (top ++ rest) /\
    forall s, with_similarity queryEmbedding s (top ++ rest) =
              with_similarity queryEmbedding s docs.
Proof.
  intros H. destruct (comparable_all _ _ H) as [Hv Hn].
  set (l := map (scored_document queryEmbedding) docs) in *.
  exists (map doc (take k (Array_sort l))), (map doc (drop k (Array_sort l))).
  assert (Hl : map doc l = docs).
  { unfold l. rewrite map_map. simpl. apply map_id. }
  assert (Hinv : Forall (fun a => score a = similarity queryEmbedding (doc a) /\ numeric a)
                   (Array_sort l)).
  { eapply Permutation_Forall; [symmetry; apply Array_sort_perm|].
    unfold l. rewrite Forall_forall. intros a Ha.
    apply list_elem_of_In, in_map_iff in Ha as (d & <- & Hd).
    split; [reflexivity|]. rewrite Forall_forall in Hn. apply Hn.
    apply list_elem_of_In, in_map. exact Hd. }
  rewrite <- map_app, take_drop.
  split; [now apply getTopKDocuments_sorted|].
  split; [rewrite length_map, length_take, Array_sort_length; unfold l; now rewrite length_map|].
  split; [transitivity (map doc l); [apply Permutation_map, Array_sort_perm|now rewrite Hl]|].
  split.
  - apply StronglySorted_map.
    eapply StronglySorted_impl_on; [|exact Hinv|apply Array_sort_sorted, Hn].
    intros a b [Ea Na] [Eb Nb] Hab. unfold descending. rewrite <- Ea, <- Eb.
    rewrite FloatFacts.leb_rank by assumption. now apply Z.leb_le.
  - intros s. unfold with_similarity. rewrite filter_map_swap.
    rewrite (filter_ext_in _ (fun a => (score a =? s)%float)).
    + rewrite Array_sort_stable by exact Hn.
      unfold l. rewrite filter_map_swap, map_map. simpl. apply map_id.
    + intros a Ha. rewrite Forall_forall in Hinv. apply list_elem_of_In in Ha.
      destruct (Hinv a Ha) as [-> _]. reflexivity.
Qed.

(** C1 (as amended): when every document has a vector and every similarity is
    a number (none is NaN), [getTopKDocuments] returns [min k n] documents,
    ordered by descending similarity; the returned documents of any one
    similarity are the first of that similarity in the corpus, in corpus
    order (the sort is stable); and no document that is cut off has a greater
    similarity than a returned one. *)
Theorem getTopKDocuments_ranking (queryEmbedding : list float) (docs : list document) (k : nat) :
  forallb (comparable queryEmbedding) docs = true ->
  exists top rest,
    getTopKDocuments (Some queryEmbedding) (Some docs) k = Normal top /\
    length top = Nat.min k (length docs) /\
    StronglySorted (descending queryEmbedding) top /\
    (forall s, with_similarity queryEmbedding s top `prefix_of`
               with_similarity queryEmbedding s docs) /\
    Permutation (top ++ rest) docs /\
    (forall d d', d ∈ top -> d' ∈ rest -> descending queryEmbedding d d').
Proof.
  intros H.
  destruct (getTopKDocuments_stable_order queryEmbedding docs k H)
    as (top & rest & Hrun & Hlen & Hperm & Hsorted & Hstable).
  exists top, rest. repeat split; try assumption.
  - eapply StronglySorted_app_1_l, Hsorted.
  - intros s. rewrite <- Hstable. unfold with_similarity.
    rewrite List.filter_app. now eexists.
  - intros d d'. now apply StronglySorted_app_1_elem_of.
Qed.

(** The scenario of the specification: the two documents with the vector
    [1,0] are returned, in corpus order. *)
Example getTopKDocuments_scenario :
  getTopKDocuments (Some [1; 0]%float) (Some scenario_corpus) 2 =
  Normal [ sample_document "first" [1; 0]%float; sample_document "third" [1; 0]%float ].
Proof. vm_compute. reflexivity. Qed.

Lemma getTopKDocuments_ranking_witness :
  forallb (comparable [1; 0]%float) scenario_corpus = true /\
  exists top rest,
    getTopKDocuments (Some [1; 0]%float) (Some scenario_corpus) 2 = Normal top /\
    length top = Nat.min 2 (length scenario_corpus) /\
    StronglySorted (descending [1; 0]%float) top /\
    (forall s, with_similarity [1; 0]%float s top `prefix_of`
               with_similarity [1; 0]%float s scenario_corpus) /\
    Permutation (top ++ rest) scenario_corpus /\
    (forall d d', d ∈ top -> d' ∈ rest -> descending [1; 0]%float d d').
Proof.
  split; [vm_compute; reflexivity|].
  apply (getTopKDocuments_ranking [1; 0]%float scenario_corpus 2).
  vm_compute. reflexivity.
Defined.

(** C1, as stated, fails where a similarity is NaN: with the zero vector in
    the middle of the corpus every comparison between neighbours is a tie,
    and the three documents come back in corpus order, the document of
    similarity 0.707 ahead of the document of similarity 1. *)
Lemma getTopKDocuments_not_descending :
  getTopKDocuments (Some [1; 0]%float) (Some corpus_with_zero_vector) 3 =
    Normal corpus_with_zero_vector /\
  (similarity [1; 0]%float (sample_document "diagonal" [1; 1]%float)
   <? similarity [1; 0]%float (sample_document "aligned" [1; 0]%float))%float = true.
Proof. split; vm_compute; reflexivity. Qed.

(** ** Vectors of norm zero and vectors of another dimension *)

Section CosineFacts.

Variable vecA : list float.

Lemma ToNumber_zero_or_nan (vecB : list component) (idx : nat) :
  forallb zero_component vecB = true -> zero_or_nan (ToNumber (vecB !! idx)).
Proof.
  intros H. destruct (vecB !! idx) as [c|] eqn:E; [|exact I].
  apply list_elem_of_lookup_2, list_elem_of_In in E.
  rewrite forallb_forall in H. specialize (H c E).
  destruct c as [x|]; simpl in *; [now apply FloatFacts.is_zero_zero_or_nan|exact I].
Qed.

Lemma reduce_zero_or_nan {A : Type} (term : A -> nat -> float) (l : list A) :
  (forall a idx, In a l -> zero_or_nan (term a idx)) ->
  forall idx acc, zero_or_nan acc ->
  zero_or_nan (reduce (fun sum a i => (sum + term a i)%float) l idx acc).
Proof.
  induction l as [|a l IH]; intros Hterm idx acc Hacc; simpl; [exact Hacc|].
  apply IH; [intros; apply Hterm; now right|].
  apply FloatFacts.add_zero_or_nan; [exact Hacc|]. apply Hterm. now left.
Qed.

(** The similarity to a vector whose components are all zero is NaN. *)
Lemma cosine_zero_vector (vecB : list component) :
  forallb zero_component vecB = true -> is_nan (cosine vecA vecB) = true.
Proof.
  intros H. unfold cosine. apply FloatFacts.div_zero_or_nan.
  - unfold dotProduct.
    apply (reduce_zero_or_nan (fun a idx => (a * ToNumber (vecB !! idx))%float)); [|exact I].
    intros a idx _. apply FloatFacts.mul_zero_or_nan, ToNumber_zero_or_nan, H.
  - apply FloatFacts.mul_zero_or_nan. unfold magB. apply FloatFacts.sqrt_zero_or_nan.
    apply (reduce_zero_or_nan (fun b _ => (ToNumber (Some b) * ToNumber (Some b))%float));
      [|exact I].
    intros b _ Hb. apply FloatFacts.mul_zero_or_nan.
    rewrite forallb_forall in H. specialize (H b Hb).
    destruct b as [x|]; simpl in *; [now apply FloatFacts.is_zero_zero_or_nan|exact I].
Qed.






End CosineFacts.

(** C4 (as amended): on a corpus whose documents have vectors the search
    raises no error and returns [min k n] documents.  A document whose
    vector has only zero components (its norm is exactly zero) has the
    similarity NaN to every query, and the comparator of the sort reports a
    tie between it and every other document, in both directions.  It gets no
    priority of its own: in a corpus of two documents it stays where the
    corpus has it, whatever the similarity of the other document, first when
    it comes first and last when it comes last. *)
Theorem zero_vector_is_a_tie (queryEmbedding : list float) (k : nat)
    (z : document) (vecB : list component) :
  embedding z = Some vecB ->
  forallb zero_component vecB = true ->
  (forall docs,
     Forall (fun d => is_Some (embedding d)) docs ->
     exists top,
       getTopKDocuments (Some queryEmbedding) (Some docs) k = Normal top /\
       length top = Nat.min k (length docs)) /\
  is_nan (similarity queryEmbedding z) = true /\
  (forall d,
     (0 <? SortCompare (scored_document queryEmbedding z)
             (scored_document queryEmbedding d))%float = false /\
     (0 <? SortCompare (scored_document queryEmbedding d)
             (scored_document queryEmbedding z))%float = false) /\
  (forall d,
     is_Some (embedding d) ->
     getTopKDocuments (Some queryEmbedding) (Some [z; d]) k = Normal (take k [z; d]) /\
     getTopKDocuments (Some queryEmbedding) (Some [d; z]) k = Normal (take k [d; z])).
Proof.
  intros Hz Hzero.
  assert (Hnan : is_nan (similarity queryEmbedding z) = true).
  { unfold similarity. rewrite Hz. now apply cosine_zero_vector. }
  assert (Hsome : is_Some (embedding z)) by (rewrite Hz; eauto).
  split; [intros docs Hdocs; now apply getTopKDocuments_length|].
  split; [exact Hnan|].
  split; [intros d; split; apply SortCompare_nan; simpl; auto|].
  intros d Hd. split.
  - rewrite getTopKDocuments_sorted by (repeat constructor; assumption).
    cbn [map Array_sort fold_right sort_insert].
    rewrite SortCompare_nan by (left; exact Hnan).
    rewrite <- firstn_map. reflexivity.
  - rewrite getTopKDocuments_sorted by (repeat constructor; assumption).
    cbn [map Array_sort fold_right sort_insert].
    rewrite SortCompare_nan by (right; exact Hnan).
    rewrite <- firstn_map. reflexivity.
Qed.

Lemma zero_vector_is_a_tie_witness :
  (forall docs,
     Forall (fun d => is_Some (embedding d)) docs ->
     exists top,
       getTopKDocuments (Some [1; 0]%float) (Some docs) 1 = Normal top /\
       length top = Nat.min 1 (length docs)) /\
  is_nan (similarity [1; 0]%float (sample_document "zero" [0; 0]%float)) = true /\
  (forall d,
     (0 <? SortCompare (scored_document [1; 0]%float (sample_document "zero" [0; 0]%float))
             (scored_document [1; 0]%float d))%float = false /\
     (0 <? SortCompare (scored_document [1; 0]%float d)
             (scored_document [1; 0]%float (sample_document "zero" [0; 0]%float)))%float
       = false) /\
  (forall d,
     is_Some (embedding d) ->
     getTopKDocuments (Some [1; 0]%float)
       (Some [sample_document "zero" [0; 0]%float; d]) 1 =
       Normal (take 1 [sample_document "zero" [0; 0]%float; d]) /\
     getTopKDocuments (Some [1; 0]%float)
       (Some [d; sample_document "zero" [0; 0]%float]) 1 =
       Normal (take 1 [d; sample_document "zero" [0; 0]%float])).
Proof.
  apply (zero_vector_is_a_tie [1; 0]%float 1
           (sample_document "zero" [0; 0]%float) [Num 0; Num 0]%float).
  - reflexivity.
  - vm_compute. reflexivity.
Defined.

(** C4, as stated, fails: the document with the zero vector is returned as
    the best match, ahead of a document whose similarity is 1. *)
Lemma zero_vector_ranked_first :
  getTopKDocuments (Some [1; 0]%float) (Some corpus_zero_first) 1 =
    Normal [sample_document "zero" [0; 0]%float] /\
  similarity [1; 0]%float (sample_document "aligned" [1; 0]%float) = 1%float.
Proof. split; vm_compute; reflexivity. Qed.

(** A norm that is computed as zero is not always the norm of a zero vector:
    the squares of small components underflow.  The division then gives an
    infinity, again without an error, and the document is ranked first. *)
Example underflowing_norm_gives_infinity :
  similarity [1; 0]%float (sample_document "tiny" [1e-170; 0]%float) = infinity /\
  getTopKDocuments (Some [1; 0]%float)
    (Some [sample_document "aligned" [1; 0]%float; sample_document "tiny" [1e-170; 0]%float]) 1 =
    Normal [sample_document "tiny" [1e-170; 0]%float].
Proof. split; vm_compute; reflexivity. Qed.




(** ** The pipeline *)

Section PipelineFacts.

Lemma add_events_nil (w : world) : add_events w [] = w.
Proof. destruct w. unfold add_events. simpl. now rewrite app_nil_r. Qed.

Lemma add_events_app (w : world) (a b : list event) :
  add_events (add_events w a) b = add_events w (a ++ b).
Proof. unfold add_events. simpl. now rewrite app_assoc. Qed.

Lemma embed_calls_add_events (w : world) (events : list event) :
  embed_calls (add_events w events) = (embed_calls w + embeds events)%nat.
Proof. unfold embed_calls, embeds. simpl. now rewrite List.filter_app, length_app. Qed.

Lemma chat_calls_add_events (w : world) (events : list event) :
  chat_calls (add_events w events) = (chat_calls w + chats events)%nat.
Proof. unfold chat_calls, chats. simpl. now rewrite List.filter_app, length_app. Qed.

Lemma embeds_app (a b : list event) : embeds (a ++ b) = (embeds a + embeds b)%nat.
Proof. unfold embeds. now rewrite List.filter_app, length_app. Qed.

Lemma chats_app (a b : list event) : chats (a ++ b) = (chats a + chats b)%nat.
Proof. unfold chats. now rewrite List.filter_app, length_app. Qed.

Lemma writes_app (a b : list event) : writes (a ++ b) = (writes a + writes b)%nat.
Proof. unfold writes. now rewrite List.filter_app, length_app. Qed.

(** *** loadDocuments *)

(** One file adds console lines only, and cannot fail. *)
Lemma load_file_run (file : string) (documents : list document) (w : world) :
  exists documents' events,
    load_file file documents w = (Normal documents', add_events w events) /\
    embeds events = 0%nat /\ chats events = 0%nat /\ writes events = 0%nat.
Proof.
  unfold load_file, try_catch, bind, readFile, lift, console_error, emit, ret.
  destruct (files w !! file) as [[|json]|]; simpl.
  - exists documents, [Console ErrorLevel ("Error reading " +:+ file +:+ ":")]. auto.
  - destruct (push_documents file json documents) as [[[]|e] documents'].
    + exists documents', []. rewrite add_events_nil. auto.
    + exists documents', [Console ErrorLevel ("Error reading " +:+ file +:+ ":")]. auto.
  - exists documents, [Console ErrorLevel ("Error reading " +:+ file +:+ ":")]. auto.
Qed.

Lemma load_files_run (paths : list string) :
  forall (documents : list document) (w : world),
  exists documents' events,
    load_files paths documents w = (Normal documents', add_events w events) /\
    embeds events = 0%nat /\ chats events = 0%nat /\ writes events = 0%nat.
Proof.
  induction paths as [|file paths IH]; intros documents w; simpl.
  - exists documents, []. unfold ret. rewrite add_events_nil. auto.
  - unfold bind.
    destruct (load_file_run file documents w) as (d1 & e1 & -> & E1 & C1 & W1).
    destruct (IH d1 (add_events w e1)) as (d2 & e2 & -> & E2 & C2 & W2).
    exists d2, (e1 ++ e2)%list. rewrite add_events_app, embeds_app, chats_app, writes_app.
    repeat split; auto; lia.
Qed.

(** [loadDocuments] always returns the corpus, after console lines only. *)
Lemma loadDocuments_run (w : world) :
  exists events,
    loadDocuments w = (Normal (corpus w), add_events w events) /\
    embeds events = 0%nat /\ chats events = 0%nat /\ writes events = 0%nat.
Proof.
  unfold corpus, loadDocuments, bind.
  destruct (load_files_run corpus_files [] w) as (d & e & -> & E & C & W).
  unfold console_log, emit, ret. simpl.
  exists (e ++ [Console LogLevel ("Loaded " +:+ Number.of_nat (length d) +:+ " documents")])%list.
  rewrite add_events_app, embeds_app, chats_app, writes_app, E, C, W.
  repeat split; reflexivity.
Qed.

(** *** The batches *)

Lemma ceil_div_0 (b : nat) : (0 < b)%nat -> ceil_div 0 b = 0%nat.
Proof. intros H. unfold ceil_div. apply Nat.div_small. lia. Qed.

Lemma ceil_div_step (n b : nat) :
  (0 < b)%nat -> (0 < n)%nat -> ceil_div n b = S (ceil_div (n - b) b).
Proof.
  intros Hb Hn. unfold ceil_div.
  destruct (Nat.le_gt_cases n b) as [L|L].
  - replace (n - b)%nat with 0%nat by lia.
    replace (n + b - 1)%nat with ((n - 1) + 1 * b)%nat by lia.
    rewrite Nat.div_add by lia. rewrite !Nat.div_small by lia. reflexivity.
  - replace (n + b - 1)%nat with ((n - b + b - 1) + 1 * b)%nat by lia.
    rewrite Nat.div_add by lia. lia.
Qed.

Lemma document_texts (l : list document) :
  Forall renders l ->
  exists batch_texts, map_completion document_text l = Normal batch_texts /\
                      length batch_texts = length l.
Proof.
  induction 1 as [|d l [s Hd] Hl (ts & IH & Hlen)]; simpl.
  - exists []. auto.
  - rewrite Hd, IH. simpl. exists (s :: ts). simpl. auto.
Qed.

(** With an API that answers, the loop makes one call for each batch and
    collects one vector for each document. *)
Lemma embed_loop_run (documents : list document) (batchSize : nat) :
  (0 < batchSize)%nat -> Forall renders documents ->
  forall (fuel i : nat) (allEmbeddings : list (list float)) (w : world),
    answers_embed (cohere w) ->
    (ceil_div (length documents - i) batchSize <= fuel)%nat ->
    exists embeddings events,
      embed_loop fuel documents batchSize i allEmbeddings w =
        (Normal (allEmbeddings ++ embeddings), add_events w events) /\
      length embeddings = (length documents - i)%nat /\
      embeds events = ceil_div (length documents - i) batchSize /\
      chats events = 0%nat /\ writes events = 0%nat.
Proof.
  intros Hb Hr. induction fuel as [|fuel IH]; intros i acc w Hapi Hfuel.
  - assert (Hi : (length documents - i = 0)%nat).
    { destruct (length documents - i)%nat eqn:E; [reflexivity|].
      rewrite ceil_div_step in Hfuel by lia. lia. }
    simpl. destruct (Nat.ltb_spec i (length documents)); [lia|].
    exists [], []. unfold ret. rewrite add_events_nil, app_nil_r, Hi, ceil_div_0 by lia. auto.
  - simpl. destruct (Nat.ltb_spec i (length documents)) as [Hi|Hi].
    + unfold bind at 1, console_log, emit.
      set (w1 := add_events w _).
      destruct (document_texts (take batchSize (drop i documents))) as (ts & Hts & Hlen).
      { apply Forall_take, Forall_drop, Hr. }
      unfold bind at 1, lift. rewrite Hts.
      unfold bind at 1, cohere_embed, emit.
      destruct (Hapi (embed_calls w1)
                  {| texts := map VString ts; model := "embed-multilingual-v3.0";
                     input_type := "search_document" |}) as (es & Hes & Hles).
      change (cohere w1) with (cohere w). rewrite Hes.
      unfold bind at 1, sleep, emit. rewrite !add_events_app.
      set (w2 := add_events w1 _).
      destruct (IH (i + batchSize)%nat (acc ++ es) w2) as (es' & ev' & Hrun & Hl' & He' & Hc' & Hw').
      { exact Hapi. }
      { rewrite ceil_div_step in Hfuel by lia.
        replace (length documents - (i + batchSize))%nat
          with (length documents - i - batchSize)%nat by lia. lia. }
      rewrite Hrun. unfold w2, w1. rewrite !add_events_app.
      exists (es ++ es'). eexists.
      split; [rewrite <- app_assoc; reflexivity|].
      simpl in Hles. rewrite length_map in Hles.
      rewrite length_take, length_drop in Hlen.
      split; [rewrite length_app; lia|].
      rewrite !embeds_app, !chats_app, !writes_app, He', Hc', Hw'.
      rewrite (ceil_div_step (length documents - i)) by lia.
      replace (length documents - (i + batchSize))%nat
        with (length documents - i - batchSize)%nat by lia. simpl. auto.
    + exists [], []. unfold ret. rewrite add_events_nil, app_nil_r.
      replace (length documents - i)%nat with 0%nat by lia.
      rewrite ceil_div_0 by lia. auto.
Qed.

(** When a call of the run is rejected, the loop stops with a rejection. *)
Lemma embed_loop_fails (documents : list document) (batchSize : nat) :
  (0 < batchSize)%nat ->
  forall (fuel j i : nat) (allEmbeddings : list (list float)) (w : world),
    (forall request, embed_reply (cohere w) (embed_calls w + j) request = None) ->
    (j < ceil_div (length documents - i) batchSize)%nat ->
    (ceil_div (length documents - i) batchSize <= fuel)%nat ->
    exists e events,
      embed_loop fuel documents batchSize i allEmbeddings w = (Throw e, add_events w events) /\
      chats events = 0%nat /\ writes events = 0%nat.
Proof.
  intros Hb. induction fuel as [|fuel IH]; intros j i acc w Hrej Hj Hfuel; [lia|].
  assert (Hi : (i < length documents)%nat).
  { destruct (Nat.le_gt_cases (length documents) i) as [L|L]; [|exact L].
    replace (length documents - i)%nat with 0%nat in Hj by lia.
    rewrite ceil_div_0 in Hj by lia. lia. }
  rewrite ceil_div_step in Hj, Hfuel by lia.
  simpl. destruct (Nat.ltb_spec i (length documents)); [|lia].
  unfold bind at 1, console_log, emit.
  set (w1 := add_events w _).
  unfold bind at 1, lift.
  destruct (map_completion document_text (take batchSize (drop i documents))) as [ts|e].
  - unfold bind at 1, cohere_embed, emit.
    change (cohere w1) with (cohere w).
    assert (Hcalls : embed_calls w1 = embed_calls w).
    { unfold w1. rewrite embed_calls_add_events. unfold embeds. simpl. lia. }
    rewrite Hcalls.
    destruct (embed_reply (cohere w) (embed_calls w) _) as [es|] eqn:Hreply.
    + destruct j as [|j].
      { rewrite Nat.add_0_r in Hrej. rewrite Hrej in Hreply. discriminate. }
      unfold bind at 1, sleep, emit. unfold w1. rewrite !add_events_app.
      set (w2 := add_events w _).
      destruct (IH j (i + batchSize)%nat (acc ++ es) w2) as (e & ev & Hrun & Hc & Hw).
      * intros request. change (cohere w2) with (cohere w).
        unfold w2. rewrite embed_calls_add_events. unfold embeds. simpl.
        rewrite <- (Hrej request). f_equal. lia.
      * replace (length documents - (i + batchSize))%nat
          with (length documents - i - batchSize)%nat by lia. lia.
      * replace (length documents - (i + batchSize))%nat
          with (length documents - i - batchSize)%nat by lia. lia.
      * rewrite Hrun. unfold w2. rewrite add_events_app.
        exists e. eexists. split; [reflexivity|].
        rewrite chats_app, writes_app, Hc, Hw. split; reflexivity.
    + unfold w1. rewrite add_events_app.
      exists ProviderError. eexists. split; [reflexivity|]. split; reflexivity.
  - exists e. eexists. split; [reflexivity|]. split; reflexivity.
Qed.

(** *** The cache file *)

Lemma saveEmbeddingsToFile_run (documents : list document) (w : world) :
  disk_writable w = true ->
  saveEmbeddingsToFile documents w =
    (Normal tt,
     add_events (with_embeddings_file w (JSON_stringify (map item_of_document documents)))
       [FileWritten EMBEDDINGS_FILE;
        Console LogLevel ("Embeddings saved to " +:+ EMBEDDINGS_FILE)]).
Proof.
  intros H. unfold saveEmbeddingsToFile, bind, writeFile, console_log, emit. rewrite H.
  rewrite add_events_app. reflexivity.
Qed.

Lemma saveEmbeddingsToFile_fails (documents : list document) (w : world) :
  disk_writable w = false -> saveEmbeddingsToFile documents w = (Throw FileError, w).
Proof.
  intros H. unfold saveEmbeddingsToFile, bind, writeFile. rewrite H. reflexivity.
Qed.

Lemma loadEmbeddingsFromFile_valid (items : list cache_item) (w : world) :
  embeddings_file w = Some (CacheJson items) ->
  loadEmbeddingsFromFile w =
    (Normal (Some (map document_of_item items)),
     add_events w [Console LogLevel ("Loaded " +:+ Number.of_nat (length items)
                                     +:+ " embeddings from " +:+ EMBEDDINGS_FILE)]).
Proof.
  intros H. unfold loadEmbeddingsFromFile, try_catch, bind, readEmbeddingsFile.
  rewrite H. reflexivity.
Qed.

Lemma loadEmbeddingsFromFile_no_cache (w : world) :
  no_cache w ->
  loadEmbeddingsFromFile w =
    (Normal None,
     add_events w
       [Console WarnLevel "No existing embeddings file found. Will compute embeddings."]).
Proof.
  intros [H|H]; unfold loadEmbeddingsFromFile, try_catch, bind, readEmbeddingsFile;
    rewrite H; reflexivity.
Qed.

Lemma assign_embeddings_run (allEmbeddings : list (list float)) :
  forall (i : nat) (documents : list document),
    (i + length allEmbeddings <= length documents)%nat ->
    exists documents',
      assign_embeddings allEmbeddings i documents = Normal documents' /\
      length documents' = length documents.
Proof.
  induction allEmbeddings as [|e rest IH]; intros i documents H; simpl in *.
  - exists documents. auto.
  - destruct (lookup_lt_is_Some_2 documents i) as [d Hd]; [lia|]. rewrite Hd.
    destruct (IH (S i) (<[i:=set_embedding d e]> documents)) as (docs' & Hrun & Hlen).
    + rewrite length_insert. lia.
    + exists docs'. rewrite length_insert in Hlen. auto.
Qed.

(** *** initializeDocuments *)

Lemma initializeDocuments_valid (items : list cache_item) (w : world) :
  embeddings_file w = Some (CacheJson items) ->
  initializeDocuments w =
    (Normal tt,
     with_cachedDocuments
       (add_events w [Console LogLevel ("Loaded " +:+ Number.of_nat (length items)
                                        +:+ " embeddings from " +:+ EMBEDDINGS_FILE)])
       (Some (map document_of_item items))).
Proof.
  intros H. unfold initializeDocuments, bind.
  rewrite (loadEmbeddingsFromFile_valid items w H). reflexivity.
Qed.

(** Without a usable cache, corrupt or absent alike, the corpus is built. *)
Lemma initializeDocuments_no_cache (w : world) :
  no_cache w ->
  initializeDocuments w =
    build_corpus
      (with_cachedDocuments
         (add_events w
            [Console WarnLevel "No existing embeddings file found. Will compute embeddings."])
         None).
Proof.
  intros H. unfold initializeDocuments, bind.
  rewrite (loadEmbeddingsFromFile_no_cache w H). reflexivity.
Qed.

(** The corpus depends on the corpus files only. *)
Lemma load_file_files (file : string) (documents : list document) (w w' : world) :
  files w = files w' -> fst (load_file file documents w) = fst (load_file file documents w').
Proof.
  intros H. unfold load_file, try_catch, bind, readFile, lift, console_error, emit, ret.
  rewrite <- H. destruct (files w !! file) as [[|json]|]; simpl; try reflexivity.
  destruct (push_documents file json documents) as [[[]|e] documents']; reflexivity.
Qed.

Lemma load_files_files (paths : list string) :
  forall (documents : list document) (w w' : world),
    files w = files w' ->
    fst (load_files paths documents w) = fst (load_files paths documents w').
Proof.
  induction paths as [|file paths IH]; intros documents w w' H; simpl; [reflexivity|].
  unfold bind. pose proof (load_file_files file documents w w' H) as Hd.
  destruct (load_file_run file documents w) as (d1 & e1 & E1 & _).
  destruct (load_file_run file documents w') as (d1' & e1' & E1' & _).
  rewrite E1, E1' in *. simpl in Hd. injection Hd as <-.
  apply IH. exact H.
Qed.

Lemma corpus_depends_on_files (w w' : world) :
  files w = files w' -> corpus w = corpus w'.
Proof.
  intros H. unfold corpus, loadDocuments, bind.
  pose proof (load_files_files corpus_files [] w w' H) as Hd.
  destruct (load_files_run corpus_files [] w) as (d & e & E & _).
  destruct (load_files_run corpus_files [] w') as (d' & e' & E' & _).
  rewrite E, E' in *. simpl in Hd. injection Hd as <-. reflexivity.
Qed.

Lemma ceil_div_le (n b : nat) : (0 < b)%nat -> (ceil_div n b <= n)%nat.
Proof.
  intros Hb. destruct n as [|n]; [rewrite ceil_div_0 by lia; lia|].
  unfold ceil_div. apply Nat.Div0.div_le_upper_bound. nia.
Qed.

(** The build, when the API answers and the file can be written. *)
Lemma build_corpus_run (w : world) :
  answers_embed (cohere w) -> disk_writable w = true -> Forall renders (corpus w) ->
  exists (w' : world) (documents : list document),
    build_corpus w = (Normal tt, w') /\
    embed_calls w' = (embed_calls w + ceil_div (length (corpus w)) 96)%nat /\
    chat_calls w' = chat_calls w /\
    embeddings_file w' = Some (JSON_stringify (map item_of_document documents)) /\
    cachedDocuments w' = Some documents /\
    length documents = length (corpus w).
Proof.
  intros Hapi Hdisk Hr. unfold build_corpus, embed_corpus.
  destruct (loadDocuments_run w) as (e1 & Hload & E1 & C1 & W1).
  unfold bind at 1. unfold bind at 1. rewrite Hload.
  unfold bind at 1, console_log, emit. rewrite add_events_app.
  set (w1 := add_events w _).
  destruct (embed_loop_run (corpus w) 96 ltac:(lia) Hr (length (corpus w)) 0 [] w1)
    as (es & e2 & Hloop & Hlen & E2 & C2 & W2).
  { exact Hapi. }
  { rewrite Nat.sub_0_r. apply ceil_div_le. lia. }
  unfold bind at 1, embedDocumentsInBatches. rewrite Hloop. simpl app.
  rewrite Nat.sub_0_r in Hlen, E2.
  destruct (assign_embeddings_run es 0 (corpus w)) as (docs & Hassign & Hdocs); [simpl; lia|].
  unfold bind at 1, lift. rewrite Hassign.
  unfold bind at 1. rewrite saveEmbeddingsToFile_run by exact Hdisk.
  unfold bind, set_cachedDocuments, console_log, emit.
  eexists. exists docs. split; [reflexivity|].
  unfold w1. rewrite add_events_app.
  unfold embed_calls, chat_calls in *. unfold embeds, chats in *.
  cbn [trace add_events with_cachedDocuments with_embeddings_file embeddings_file
       cachedDocuments].
  rewrite !List.filter_app, !length_app, E1, C1, E2, C2.
  repeat split; auto; simpl; lia.
Qed.

(** The build, when a call of the run is rejected. *)
Lemma build_corpus_fails (w : world) (j : nat) :
  (forall request, embed_reply (cohere w) (embed_calls w + j) request = None) ->
  (j < ceil_div (length (corpus w)) 96)%nat ->
  exists e events,
    build_corpus w = (Throw e, add_events w events) /\
    chats events = 0%nat /\ writes events = 0%nat.
Proof.
  intros Hrej Hj. unfold build_corpus, embed_corpus.
  destruct (loadDocuments_run w) as (e1 & Hload & E1 & C1 & W1).
  unfold bind at 1. unfold bind at 1. rewrite Hload.
  unfold bind at 1, console_log, emit. rewrite add_events_app.
  set (w1 := add_events w _).
  destruct (embed_loop_fails (corpus w) 96 ltac:(lia) (length (corpus w)) j 0 [] w1)
    as (e & e2 & Hloop & C2 & W2).
  - intros request. change (cohere w1) with (cohere w).
    unfold w1. rewrite embed_calls_add_events, embeds_app, E1. simpl.
    rewrite Nat.add_0_r. apply Hrej.
  - rewrite Nat.sub_0_r. exact Hj.
  - rewrite Nat.sub_0_r. apply ceil_div_le. lia.
  - unfold bind at 1, embedDocumentsInBatches. rewrite Hloop.
    unfold w1. rewrite add_events_app.
    exists e. eexists. split; [reflexivity|].
    rewrite !chats_app, !writes_app, C1, W1, C2, W2. split; reflexivity.
Qed.

(** *** What assigns [cachedDocuments] *)

Lemma keeps_ret {A : Type} (a : A) : keeps_cachedDocuments (ret a).
Proof. intros w. reflexivity. Qed.

Lemma keeps_lift {A : Type} (c : completion A) : keeps_cachedDocuments (lift c).
Proof. intros w. reflexivity. Qed.

Lemma keeps_emit (e : event) : keeps_cachedDocuments (emit e).
Proof. intros w. reflexivity. Qed.

Lemma keeps_bind {A B : Type} (m : M A) (k : A -> M B) :
  keeps_cachedDocuments m -> (forall a, keeps_cachedDocuments (k a)) ->
  keeps_cachedDocuments (bind m k).
Proof.
  intros Hm Hk w. unfold bind. specialize (Hm w).
  destruct (m w) as [[a|e] w']; simpl in *; [|exact Hm].
  rewrite Hk. exact Hm.
Qed.

Lemma keeps_try_catch {A : Type} (body : M A) (handler : error -> M A) :
  keeps_cachedDocuments body -> (forall e, keeps_cachedDocuments (handler e)) ->
  keeps_cachedDocuments (try_catch body handler).
Proof.
  intros Hm Hk w. unfold try_catch. specialize (Hm w).
  destruct (body w) as [[a|e] w']; simpl in *; [exact Hm|].
  rewrite Hk. exact Hm.
Qed.

Lemma keeps_readFile (file : string) : keeps_cachedDocuments (readFile file).
Proof. intros w. unfold readFile. destruct (files w !! file); reflexivity. Qed.

Lemma keeps_readEmbeddingsFile : keeps_cachedDocuments readEmbeddingsFile.
Proof. intros w. unfold readEmbeddingsFile. destruct (embeddings_file w); reflexivity. Qed.

Lemma keeps_writeFile (content : cache_text) : keeps_cachedDocuments (writeFile content).
Proof. intros w. unfold writeFile. destruct (disk_writable w); reflexivity. Qed.

Lemma keeps_cohere_embed (request : embed_request) :
  keeps_cachedDocuments (cohere_embed request).
Proof.
  intros w. unfold cohere_embed, emit.
  destruct (embed_reply (cohere w) (embed_calls w) request); reflexivity.
Qed.

Lemma keeps_console_log (line : string) : keeps_cachedDocuments (console_log line).
Proof. apply keeps_emit. Qed.

Lemma keeps_console_warn (line : string) : keeps_cachedDocuments (console_warn line).
Proof. apply keeps_emit. Qed.

Lemma keeps_console_error (line : string) : keeps_cachedDocuments (console_error line).
Proof. apply keeps_emit. Qed.

Lemma keeps_sleep (ms : Z) : keeps_cachedDocuments (sleep ms).
Proof. apply keeps_emit. Qed.

Create HintDb frame.

#[local] Hint Resolve keeps_ret keeps_lift keeps_emit keeps_bind keeps_try_catch
  keeps_readFile keeps_readEmbeddingsFile keeps_writeFile keeps_cohere_embed
  keeps_console_log keeps_console_warn keeps_console_error keeps_sleep : frame.

Lemma keeps_load_file (file : string) (documents : list document) :
  keeps_cachedDocuments (load_file file documents).
Proof.
  unfold load_file. apply keeps_try_catch; [|auto with frame].
  do 2 (apply keeps_bind; [auto with frame|intros ?]).
  destruct (push_documents file _ documents) as [[[]|e] documents']; auto with frame.
Qed.

Lemma keeps_load_files (paths : list string) :
  forall documents, keeps_cachedDocuments (load_files paths documents).
Proof.
  pose proof keeps_load_file.
  induction paths as [|file paths IH]; intros documents; simpl; auto with frame.
Qed.

Lemma keeps_loadDocuments : keeps_cachedDocuments loadDocuments.
Proof. pose proof keeps_load_files. unfold loadDocuments. auto with frame. Qed.

Lemma keeps_embed_loop (documents : list document) (batchSize : nat) :
  forall fuel i allEmbeddings,
    keeps_cachedDocuments (embed_loop fuel documents batchSize i allEmbeddings).
Proof.
  induction fuel as [|fuel IH]; intros i acc; simpl;
    destruct (i <? length documents)%nat; auto 8 with frame.
Qed.

Lemma keeps_saveEmbeddingsToFile (documents : list document) :
  keeps_cachedDocuments (saveEmbeddingsToFile documents).
Proof. unfold saveEmbeddingsToFile. auto with frame. Qed.

Lemma keeps_loadEmbeddingsFromFile : keeps_cachedDocuments loadEmbeddingsFromFile.
Proof. unfold loadEmbeddingsFromFile. auto 8 with frame. Qed.

(** Down to the call of [saveEmbeddingsToFile] the build does not assign
    [cachedDocuments]. *)
Lemma keeps_embed_corpus : keeps_cachedDocuments embed_corpus.
Proof.
  pose proof keeps_loadDocuments. pose proof keeps_embed_loop.
  pose proof keeps_saveEmbeddingsToFile.
  unfold embed_corpus, embedDocumentsInBatches. auto 10 with frame.
Qed.

End PipelineFacts.

(** ** Start-up *)

(** C2: with a valid cache file [initializeDocuments] completes without a
    call to the provider and serves the documents of the file; without a
    cache file, when the API answers every batch with one vector for each
    text and the file can be written, it completes after exactly
    [ceil(n / 96)] embedding calls, [n] being the size of the corpus, and the
    cache file written holds [n] records. *)
Theorem initializeDocuments_embedding_calls (w : world) :
  (forall items,
     embeddings_file w = Some (CacheJson items) ->
     exists w',
       initializeDocuments w = (Normal tt, w') /\
       embed_calls w' = embed_calls w /\ chat_calls w' = chat_calls w /\
       cachedDocuments w' = Some (map document_of_item items)) /\
  (embeddings_file w = None ->
   answers_embed (cohere w) -> disk_writable w = true -> Forall renders (corpus w) ->
     exists w' items,
       initializeDocuments w = (Normal tt, w') /\
       embed_calls w' = (embed_calls w + ceil_div (length (corpus w)) 96)%nat /\
       embeddings_file w' = Some (CacheJson items) /\
       length items = length (corpus w)).
Proof.
  split.
  - intros items H. eexists. split; [apply (initializeDocuments_valid items w H)|].
    unfold embed_calls, chat_calls. simpl. rewrite !List.filter_app, !length_app. simpl.
    repeat split; lia.
  - intros Hnone Hapi Hdisk Hr.
    rewrite initializeDocuments_no_cache by (left; exact Hnone).
    set (w0 := with_cachedDocuments _ None).
    assert (Hc : corpus w0 = corpus w) by (apply corpus_depends_on_files; reflexivity).
    destruct (build_corpus_run w0) as (w' & docs & Hrun & He & _ & Hfile & _ & Hlen).
    + exact Hapi.
    + exact Hdisk.
    + rewrite Hc. exact Hr.
    + exists w', (map JSON_item (map item_of_document docs)).
      rewrite Hc in He, Hlen.
      split; [exact Hrun|]. split.
      * rewrite He. unfold w0, embed_calls. simpl.
        rewrite List.filter_app, length_app. simpl. lia.
      * split; [exact Hfile|]. now rewrite !length_map.
Qed.

Lemma initializeDocuments_embedding_calls_witness :
  (exists w',
     initializeDocuments
       (initial_world (sample_files 3) (Some (CacheJson [sample_item])) true answering_api)
       = (Normal tt, w') /\
     embed_calls w' = 0%nat /\ chat_calls w' = 0%nat /\
     cachedDocuments w' = Some [document_of_item sample_item]) /\
  (exists w' items,
     initializeDocuments (initial_world (sample_files 200) None true answering_api)
       = (Normal tt, w') /\
     embed_calls w' = 3%nat /\
     embeddings_file w' = Some (CacheJson items) /\
     length items = 200%nat).
Proof.
  split.
  - destruct (initializeDocuments_embedding_calls
                (initial_world (sample_files 3) (Some (CacheJson [sample_item])) true
                   answering_api)) as [H _].
    apply (H [sample_item]). reflexivity.
  - assert (Hn : length (corpus (initial_world (sample_files 200) None true answering_api))
                 = 200%nat) by (vm_compute; reflexivity).
    destruct (initializeDocuments_embedding_calls
                (initial_world (sample_files 200) None true answering_api)) as [_ H].
    destruct H as (w' & items & Hrun & He & Hf & Hl).
    + reflexivity.
    + intros n request. eexists. split; [reflexivity|]. simpl. apply length_map.
    + reflexivity.
    + apply Forall_forall. intros d Hd.
      assert (Hall : forallb (fun d => match document_text d with Normal _ => true | _ => false end)
                       (corpus (initial_world (sample_files 200) None true answering_api)) = true)
        by (vm_compute; reflexivity).
      rewrite forallb_forall in Hall. apply list_elem_of_In in Hd. specialize (Hall d Hd).
      unfold renders. destruct (document_text d) as [t|]; [eauto|discriminate].
    + rewrite Hn in He, Hl. exists w', items. repeat split; assumption.
Defined.

(** C5: when a batch call is rejected during the corpus build,
    [initializeDocuments] is rejected: the embeddings file is what it was,
    no file has been written, and [cachedDocuments] is null, not the
    documents embedded so far. *)
Theorem failed_batch_writes_no_cache (w : world) (j : nat) :
  no_cache w ->
  (j < ceil_div (length (corpus w)) 96)%nat ->
  (forall request, embed_reply (cohere w) (embed_calls w + j) request = None) ->
  exists e w',
    initializeDocuments w = (Throw e, w') /\
    embeddings_file w' = embeddings_file w /\
    writes (trace w') = writes (trace w) /\
    cachedDocuments w' = None.
Proof.
  intros Hno Hj Hrej. rewrite initializeDocuments_no_cache by exact Hno.
  set (w0 := with_cachedDocuments _ None).
  assert (Hc : corpus w0 = corpus w) by (apply corpus_depends_on_files; reflexivity).
  destruct (build_corpus_fails w0 j) as (e & events & Hrun & _ & Hw).
  - intros request. change (cohere w0) with (cohere w).
    replace (embed_calls w0) with (embed_calls w); [apply Hrej|].
    unfold w0, embed_calls. simpl. rewrite List.filter_app, length_app. simpl. lia.
  - rewrite Hc. exact Hj.
  - exists e. eexists. split; [exact Hrun|]. simpl.
    rewrite <- app_assoc, writes_app, writes_app, Hw. simpl. repeat split; lia.
Qed.

(** The scenario of the specification: the call for batch 2 of 3 fails. *)
Lemma failed_batch_writes_no_cache_witness :
  exists e w',
    initializeDocuments (initial_world (sample_files 200) None true (api_rejecting 1))
      = (Throw e, w') /\
    embeddings_file w' = None /\
    writes (trace w') = 0%nat /\
    cachedDocuments w' = None.
Proof.
  apply (failed_batch_writes_no_cache
           (initial_world (sample_files 200) None true (api_rejecting 1)) 1).
  - left. reflexivity.
  - assert (Hn : length (corpus (initial_world (sample_files 200) None true (api_rejecting 1)))
                 = 200%nat) by (vm_compute; reflexivity).
    rewrite Hn. vm_compute. lia.
  - intros request. reflexivity.
Defined.

(** X2: while [initializeDocuments] runs, [cachedDocuments] is assigned at two
    places only.  Reading the cache leaves it as it was, the initial [[]];
    without a usable cache it is then null, and it stays null while the
    documents are loaded, embedded and saved, until the assignment that ends
    the build. *)
Theorem cachedDocuments_during_build (w : world) :
  cachedDocuments (snd (loadEmbeddingsFromFile w)) = cachedDocuments w /\
  (no_cache w ->
   exists w0,
     initializeDocuments w = build_corpus w0 /\
     cachedDocuments w0 = None /\
     cachedDocuments (snd (embed_corpus w0)) = None).
Proof.
  split; [apply keeps_loadEmbeddingsFromFile|].
  intros H. eexists. split; [apply (initializeDocuments_no_cache w H)|].
  split; [reflexivity|]. rewrite keeps_embed_corpus. reflexivity.
Qed.

Lemma cachedDocuments_during_build_witness :
  exists w0,
    initializeDocuments (initial_world (sample_files 3) None true answering_api)
      = build_corpus w0 /\
    cachedDocuments w0 = None /\
    cachedDocuments (snd (embed_corpus w0)) = None.
Proof.
  destruct (cachedDocuments_during_build
              (initial_world (sample_files 3) None true answering_api)) as [_ H].
  apply H. left. reflexivity.
Defined.

(** C9 (as amended): [loadEmbeddingsFromFile] has two outcomes.  A file that
    holds the JSON array gives the documents; a file that is absent and a
    file that cannot be parsed give the same result: null, after the one
    warning "No existing embeddings file found. Will compute embeddings.",
    and [initializeDocuments] goes on to build the corpus. *)
Theorem loadEmbeddingsFromFile_outcomes (w : world) :
  (forall items,
     embeddings_file w = Some (CacheJson items) ->
     loadEmbeddingsFromFile w =
       (Normal (Some (map document_of_item items)),
        add_events w [Console LogLevel ("Loaded " +:+ Number.of_nat (length items)
                                        +:+ " embeddings from " +:+ EMBEDDINGS_FILE)])) /\
  (no_cache w ->
     loadEmbeddingsFromFile w =
       (Normal None,
        add_events w
          [Console WarnLevel "No existing embeddings file found. Will compute embeddings."]) /\
     initializeDocuments w =
       build_corpus
         (with_cachedDocuments
            (add_events w
               [Console WarnLevel "No existing embeddings file found. Will compute embeddings."])
            None)).
Proof.
  split.
  - intros items H. now apply loadEmbeddingsFromFile_valid.
  - intros H. split; [now apply loadEmbeddingsFromFile_no_cache
                     |now apply initializeDocuments_no_cache].
Qed.

Lemma loadEmbeddingsFromFile_outcomes_witness :
  loadEmbeddingsFromFile
    (initial_world (sample_files 3) (Some (CacheJson [sample_item])) true answering_api) =
    (Normal (Some [document_of_item sample_item]),
     add_events
       (initial_world (sample_files 3) (Some (CacheJson [sample_item])) true answering_api)
       [Console LogLevel "Loaded 1 embeddings from ./documents/embeddings.json"]) /\
  fst (loadEmbeddingsFromFile
         (initial_world (sample_files 3) (Some CacheNotJson) true answering_api)) =
    Normal None.
Proof.
  split.
  - destruct (loadEmbeddingsFromFile_outcomes
                (initial_world (sample_files 3) (Some (CacheJson [sample_item])) true
                   answering_api)) as [H _].
    apply (H [sample_item]). reflexivity.
  - destruct (loadEmbeddingsFromFile_outcomes
                (initial_world (sample_files 3) (Some CacheNotJson) true answering_api))
      as [_ H].
    destruct H as [-> _]; [right; reflexivity|reflexivity].
Defined.

(** C9, as stated, fails: a file that cannot be parsed gets the warning of
    the absent file, word for word, and the same result. *)
Lemma corrupt_cache_warns_like_absent :
  trace (snd (loadEmbeddingsFromFile
                (initial_world (sample_files 3) (Some CacheNotJson) true answering_api))) =
  trace (snd (loadEmbeddingsFromFile
                (initial_world (sample_files 3) None true answering_api))) /\
  fst (loadEmbeddingsFromFile
         (initial_world (sample_files 3) (Some CacheNotJson) true answering_api)) =
  fst (loadEmbeddingsFromFile
         (initial_world (sample_files 3) None true answering_api)).
Proof. split; reflexivity. Qed.

(** ** The request handlers *)

Section HandlerFacts.

Variable request_body : list (string * value).
Variable w : world.

Lemma generate_total : exists r w', generate request_body w = (Normal r, w').
Proof.
  unfold generate. destruct (negb (ToBoolean _)); [unfold ret; eauto|].
  unfold try_catch. destruct (bind _ _ w) as [[r|e] w']; [eauto|].
  unfold bind, console_error, emit, ret. eauto.
Qed.

(** X1: a request whose prompt is missing or falsy is rejected at once, with
    the reply 400 "Prompt is required"; the world is left as it was: no call
    to the provider, no line on the console. *)
Lemma generate_rejects_missing_prompt :
  ToBoolean (prompt_of request_body) = false ->
  generate request_body w = (Normal prompt_required, w).
Proof.
  intros H. unfold generate. cbv zeta. rewrite H. reflexivity.
Qed.

Lemma generate_null_corpus :
  ToBoolean (prompt_of request_body) = true ->
  cachedDocuments w = None ->
  exists w', generate request_body w = (Normal cohere_request_failed, w') /\
             chat_calls w' = chat_calls w.
Proof.
  intros Hp Hc. unfold generate. cbv zeta. rewrite Hp. cbn [negb]. cbv beta iota.
  unfold try_catch, bind at 1, console_log, emit.
  unfold bind at 1, cohere_embed, emit.
  destruct (embed_reply _ _ _) as [es|].
  - unfold bind at 1, get_cachedDocuments. simpl cachedDocuments. rewrite Hc.
    unfold bind at 1, lift. simpl getTopKDocuments.
    unfold bind, console_error, emit, ret. eexists. split; [reflexivity|].
    rewrite !add_events_app, chat_calls_add_events. unfold chats. simpl. lia.
  - unfold bind, console_error, emit, ret. eexists. split; [reflexivity|].
    rewrite !add_events_app, chat_calls_add_events. unfold chats. simpl. lia.
Qed.

Lemma generate_empty_corpus (embeddings : list (list float)) (response : chat_response) :
  ToBoolean (prompt_of request_body) = true ->
  cachedDocuments w = Some [] ->
  embed_reply (cohere w) (embed_calls w) (prompt_embed_request (prompt_of request_body))
    = Some embeddings ->
  chat_reply (cohere w) (chat_calls w) (generate_chat_request (prompt_of request_body) [])
    = Some response ->
  exists w', generate request_body w = (Normal (generated response), w').
Proof.
  intros Hp Hc He Hr. unfold generate. cbv zeta. rewrite Hp.
  cbn [negb]. cbv beta iota.
  unfold try_catch, bind at 1, console_log, emit.
  unfold bind at 1, cohere_embed, emit.
  fold (prompt_embed_request (prompt_of request_body)).
  rewrite embed_calls_add_events. unfold embeds at 1. simpl length. rewrite Nat.add_0_r.
  simpl cohere. rewrite He.
  unfold bind at 1, get_cachedDocuments. simpl cachedDocuments. rewrite Hc.
  unfold bind at 1, lift. simpl getTopKDocuments.
  unfold bind at 1, console_log, emit.
  unfold bind at 1, lift. simpl map_completion.
  unfold bind at 1, cohere_chat, emit.
  fold (generate_chat_request (prompt_of request_body) []).
  rewrite !add_events_app, chat_calls_add_events. unfold chats at 1. simpl length.
  rewrite Nat.add_0_r. simpl cohere. rewrite Hr.
  unfold bind, console_log, emit, ret. eexists. reflexivity.
Qed.

Lemma generate_upstream_failure :
  ToBoolean (prompt_of request_body) = true ->
  embed_reply (cohere w) (embed_calls w) (prompt_embed_request (prompt_of request_body))
    = None ->
  exists w', generate request_body w = (Normal cohere_request_failed, w').
Proof.
  intros Hp He. unfold generate. cbv zeta. rewrite Hp.
  cbn [negb]. cbv beta iota.
  unfold try_catch, bind at 1, console_log, emit.
  unfold bind at 1, cohere_embed, emit.
  fold (prompt_embed_request (prompt_of request_body)).
  rewrite embed_calls_add_events. unfold embeds at 1. simpl length. rewrite Nat.add_0_r.
  simpl cohere. rewrite He.
  unfold bind, console_error, emit, ret. eexists. reflexivity.
Qed.

End HandlerFacts.

Lemma generate_rejects_missing_prompt_witness :
  generate [("prompt", VString "")] (initial_world (sample_files 3) None true answering_api) =
  (Normal prompt_required, initial_world (sample_files 3) None true answering_api).
Proof.
  apply (generate_rejects_missing_prompt [("prompt", VString "")]
           (initial_world (sample_files 3) None true answering_api)).
  reflexivity.
Defined.

(** C3 (as amended): a request handled before the corpus build has
    completed gets no reply of its own.  The handler always replies.  While
    [cachedDocuments] is null (the build is running) the reply is the 500
    "Cohere request failed" that a failed call to the provider also gets, and
    no chat call is made; while [cachedDocuments] is still the empty array of
    the start, the empty corpus is ranked, the chat call is made with no
    documents, and the generated text is returned with status 200. *)
Theorem generate_before_ready (request_body : list (string * value)) (w : world) :
  ToBoolean (prompt_of request_body) = true ->
  (exists r w', generate request_body w = (Normal r, w')) /\
  (cachedDocuments w = None ->
     exists w', generate request_body w = (Normal cohere_request_failed, w') /\
                chat_calls w' = chat_calls w) /\
  (embed_reply (cohere w) (embed_calls w) (prompt_embed_request (prompt_of request_body))
     = None ->
     exists w', generate request_body w = (Normal cohere_request_failed, w')) /\
  (cachedDocuments w = Some [] ->
     forall embeddings response,
       embed_reply (cohere w) (embed_calls w) (prompt_embed_request (prompt_of request_body))
         = Some embeddings ->
       chat_reply (cohere w) (chat_calls w) (generate_chat_request (prompt_of request_body) [])
         = Some response ->
       exists w', generate request_body w = (Normal (generated response), w')).
Proof.
  intros Hp. split; [apply generate_total|].
  split; [now apply generate_null_corpus|].
  split; [now apply generate_upstream_failure|].
  intros Hc embeddings response. now apply generate_empty_corpus.
Qed.

Lemma generate_before_ready_witness :
  exists w',
    generate [("prompt", VString "Where?")]
      (with_cachedDocuments (initial_world (sample_files 3) None true answering_api) None)
    = (Normal cohere_request_failed, w') /\
    chat_calls w' = 0%nat.
Proof.
  destruct (generate_before_ready [("prompt", VString "Where?")]
              (with_cachedDocuments (initial_world (sample_files 3) None true answering_api) None))
    as (_ & H & _).
  - reflexivity.
  - apply H. reflexivity.
Defined.

(** C3, as stated, fails: before [initializeDocuments] has done anything the
    corpus is the empty array, and a request gets a generated answer with
    status 200, from a chat call that carries no documents. *)
Lemma generate_answers_on_empty_corpus :
  fst (generate [("prompt", VString "Where?")]
         (initial_world (sample_files 3) None true answering_api)) =
    Normal {| status := 200;
              body := VObject [("text", VString "answer"); ("citations", VArray [])] |} /\
  List.filter is_chat
    (trace (snd (generate [("prompt", VString "Where?")]
                   (initial_world (sample_files 3) None true answering_api)))) =
    [Chat (generate_chat_request (VString "Where?") [])].
Proof. split; reflexivity. Qed.

(** The reply of a request handled while [cachedDocuments] is null is the
    reply of a request whose embedding call is rejected when the corpus is
    ready. *)
Example generate_not_ready_like_upstream_failure :
  fst (generate [("prompt", VString "Where?")]
         (with_cachedDocuments (initial_world (sample_files 3) None true answering_api) None)) =
  fst (generate [("prompt", VString "Where?")]
         (with_cachedDocuments (initial_world (sample_files 3) None true rejecting_api)
            (Some scenario_corpus))).
Proof. reflexivity. Qed.

(** C8: [/generate] rejects a missing prompt before any call (see
    [generate_rejects_missing_prompt]), but [/holiday] does not check
    [userInput]: with an empty body it still calls the chat endpoint, with
    the text "undefined" in the message. *)
Theorem holiday_calls_provider_without_userInput (w : world) :
  chat_calls (snd (holiday [] w)) = S (chat_calls w) /\
  exists request,
    trace (snd (holiday [] w)) !! length (trace w) = Some (Chat request) /\
    message request =
      VString ("Generate a holiday itinerary based on this request: " +:+ double_quote
               +:+ "undefined" +:+ double_quote
               +:+ ". Format the response as Day-wise itinerary.").
Proof.
  unfold holiday, try_catch, bind, lift, cohere_chat, emit. simpl template.
  cbv iota beta.
  destruct (chat_reply _ _ _) as [response|]; simpl.
  - split.
    + unfold chat_calls. simpl. rewrite List.filter_app, length_app. simpl. lia.
    + eexists. split; [apply list_lookup_middle; reflexivity|reflexivity].
  - split.
    + unfold chat_calls. simpl. rewrite <- app_assoc, List.filter_app, length_app. simpl. lia.
    + eexists. split; [rewrite <- app_assoc; apply list_lookup_middle; reflexivity|].
      reflexivity.
Qed.

(** ** The normaliser *)

(** C6: a record without fields does not make the normaliser throw, but its
    missing fields are not replaced by the empty string: the text of the
    document reads "undefined" for each of them. *)
Theorem missing_fields_become_undefined :
  rest_countries_document (VObject []) =
    Normal {| id := VString "rest_countries_undefined";
              data := {| title := VString "";
                         snippet := VString "Official Name: undefined. Capital: . Region: undefined. Subregion: undefined. Population: undefined. Languages: . Area: undefined sq km." |};
              embedding := None |} /\
  merged_countries_document (VObject []) =
    Normal {| id := VString "merged_countries_undefined";
              data := {| title := VString "";
                         snippet := VString "Capital: undefined, Region: undefined, Population: undefined, Language: undefined, Currency: undefined" |};
              embedding := None |}.
Proof. split; reflexivity. Qed.

(** ** The cache file: saving, then loading *)

Section RoundTrip.

(** Induction on values, through arrays and objects. *)
Lemma value_induction (P : value -> Prop) :
  P VUndefined -> P VNull -> (forall b, P (VBool b)) -> (forall x, P (VNumber x)) ->
  (forall s, P (VString s)) ->
  (forall items, Forall P items -> P (VArray items)) ->
  (forall props, Forall (fun p => P (snd p)) props -> P (VObject props)) ->
  forall v, P v.
Proof.
  intros Hu Hn Hb Hx Hs Ha Ho.
  fix IH 1. intros [| |b|x|s|items|props];
    [exact Hu|exact Hn|apply Hb|apply Hx|apply Hs| |].
  - apply Ha. induction items as [|v items IHitems]; constructor; [apply IH|exact IHitems].
  - apply Ho. induction props as [|[k v] props IHprops]; constructor;
      [apply IH|exact IHprops].
Qed.

Lemma JSON_safe_number_exact (x : float) :
  JSON_safe_number x = true ->
  is_finite x = true /\ (if is_zero x then 0%float else x) = x.
Proof.
  unfold JSON_safe_number. intros H. apply andb_true_iff in H as [Hf Hz].
  split; [exact Hf|]. destruct (is_zero x); [|reflexivity].
  simpl in Hz. symmetry. now apply FloatAxioms.Leibniz.eqb_spec in Hz.
Qed.

Lemma JSON_value_safe : forall v, JSON_safe v = true -> JSON_value v = v.
Proof.
  apply (value_induction (fun v => JSON_safe v = true -> JSON_value v = v));
    try (intros; simpl in *; congruence).
  - intros x H. simpl in *. destruct (JSON_safe_number_exact x H) as [-> ->]. reflexivity.
  - intros items IH H. simpl in *. f_equal.
    induction IH as [|v items Hv _ IHitems]; [reflexivity|].
    simpl in *. apply andb_true_iff in H as [H1 H2].
    rewrite Hv by exact H1. f_equal. now apply IHitems.
  - intros props IH H. cbn [JSON_value JSON_safe] in *. f_equal.
    induction IH as [|[k v] props Hv _ IHprops]; [reflexivity|].
    apply andb_true_iff in H as [H1 H2]. simpl in Hv.
    rewrite IHprops by exact H2. rewrite Hv by exact H1.
    destruct v; try reflexivity. discriminate.
Qed.

Lemma JSON_property_safe (v : value) : JSON_safe_property v = true -> JSON_property v = v.
Proof.
  destruct v; try reflexivity; intros H; unfold JSON_property; now apply JSON_value_safe.
Qed.

Lemma JSON_component_safe (c : component) :
  JSON_safe_component c = true -> JSON_component c = c.
Proof.
  destruct c as [x|]; [|reflexivity]. simpl. intros H.
  destruct (JSON_safe_number_exact x H) as [-> ->]. reflexivity.
Qed.

Lemma JSON_document_safe (d : document) :
  JSON_safe_document d = true -> document_of_item (JSON_item (item_of_document d)) = d.
Proof.
  destruct d as [i [t s] e]. unfold JSON_safe_document, document_of_item, JSON_item,
    item_of_document. simpl. intros H.
  apply andb_true_iff in H as [H He]. apply andb_true_iff in H as [H Hs].
  apply andb_true_iff in H as [Hi Ht].
  rewrite !JSON_property_safe by assumption. f_equal.
  destruct e as [vector|]; [|reflexivity]. simpl. f_equal.
  induction vector as [|c vector IH]; [reflexivity|].
  simpl in *. apply andb_true_iff in He as [Hc Hv].
  rewrite JSON_component_safe by exact Hc. f_equal. now apply IH.
Qed.

(** What is loaded after any save: one document for each saved document. *)
Lemma save_then_load_any (saved : list document) (w : world) :
  disk_writable w = true ->
  fst (loadEmbeddingsFromFile (snd (saveEmbeddingsToFile saved w))) =
  Normal (Some (map (fun d => document_of_item (JSON_item (item_of_document d))) saved)).
Proof.
  intros H. rewrite saveEmbeddingsToFile_run by exact H. simpl snd.
  erewrite loadEmbeddingsFromFile_valid by reflexivity. simpl fst.
  now rewrite !map_map.
Qed.

End RoundTrip.

(** C10 (as amended): when the file can be written and every number of the
    saved documents is finite and is not the negative zero (and no value
    inside an array or an object is undefined), loading after saving gives
    the saved documents back: as many, in the same order, each with the same
    id, title, snippet and embedding. *)
Theorem save_then_load (saved : list document) (w : world) :
  disk_writable w = true ->
  forallb JSON_safe_document saved = true ->
  fst (loadEmbeddingsFromFile (snd (saveEmbeddingsToFile saved w))) = Normal (Some saved).
Proof.
  intros Hw Hs. rewrite save_then_load_any by exact Hw. do 2 f_equal.
  induction saved as [|d saved IH]; [reflexivity|].
  simpl in *. apply andb_true_iff in Hs as [Hd Hrest].
  rewrite JSON_document_safe by exact Hd. f_equal. now apply IH.
Qed.

Lemma save_then_load_witness :
  fst (loadEmbeddingsFromFile
         (snd (saveEmbeddingsToFile scenario_corpus
                 (initial_world (sample_files 3) None true answering_api)))) =
  Normal (Some scenario_corpus).
Proof.
  apply (save_then_load scenario_corpus
           (initial_world (sample_files 3) None true answering_api)).
  - reflexivity.
  - vm_compute. reflexivity.
Defined.

(** C10, as stated, fails: JSON has no NaN, no infinity and no negative
    zero.  A vector with such components is loaded with null, null and 0 in
    their place. *)
Lemma save_then_load_changes_numbers :
  fst (loadEmbeddingsFromFile
         (snd (saveEmbeddingsToFile [sample_document "odd" [nan; infinity; neg_zero; 1]%float]
                 (initial_world (sample_files 3) None true answering_api)))) =
  Normal (Some [ {| id := VString "odd";
                    data := {| title := VString "odd"; snippet := VString "" |};
                    embedding := Some [Null; Null; Num 0; Num 1] |} ]).
Proof. vm_compute. reflexivity. Qed.

(** * Further properties of the code *)

(** ** Similarity search: selection, failure, symmetry *)

Section MoreSearchFacts.

Lemma cosineSimilarity_TypeError (vecA : option (list float)) (vecB : option (list component))
    (e : error) :
  cosineSimilarity vecA vecB = Throw e -> e = TypeError.
Proof. destruct vecA, vecB; simpl; congruence. Qed.

(** The scores of a corpus in which a vector is missing cannot be computed. *)
Lemma similarities_missing_vector (queryEmbedding : option (list float)) (docs : list document) :
  (docs <> [] /\ queryEmbedding = None) \/ Exists (fun d => embedding d = None) docs ->
  map_completion
    (fun d =>
       let! s := cosineSimilarity queryEmbedding (embedding d) in
       Normal {| doc := d; score := s |}) docs
  = Throw TypeError.
Proof.
  intros H. induction docs as [|d docs IH].
  - destruct H as [[H _]|H]; [congruence|inversion H].
  - cbn [map_completion].
    destruct (cosineSimilarity queryEmbedding (embedding d)) as [s|e] eqn:E; simpl.
    + rewrite IH; [reflexivity|].
      destruct H as [[_ ->]|H]; [discriminate|].
      inversion H as [? ? Hd|? ? Hrest]; subst; [|now right].
      rewrite Hd in E. destruct queryEmbedding; discriminate.
    + now rewrite (cosineSimilarity_TypeError _ _ _ E).
Qed.

Lemma getTopKDocuments_throws (queryEmbedding : option (list float)) (docs : list document)
    (k : nat) :
  (docs <> [] /\ queryEmbedding = None) \/ Exists (fun d => embedding d = None) docs ->
  getTopKDocuments queryEmbedding (Some docs) k = Throw TypeError.
Proof.
  intros H. unfold getTopKDocuments. now rewrite similarities_missing_vector.
Qed.

(** When it does not throw, the search returns at most [k] documents. *)
Lemma getTopKDocuments_at_most (queryEmbedding : option (list float))
    (cached : option (list document)) (k : nat) (top : list document) :
  getTopKDocuments queryEmbedding cached k = Normal top -> (length top <= k)%nat.
Proof.
  unfold getTopKDocuments. destruct cached as [docs|]; [|discriminate].
  destruct (map_completion _ docs) as [l|e]; simpl; [|discriminate].
  intros [= <-]. rewrite length_map, length_take. lia.
Qed.

(** With scores that are all NaN the sort leaves the array as it is. *)
Lemma Array_sort_all_nan (l : list scored) :
  Forall (fun a => is_nan (score a) = true) l -> Array_sort l = l.
Proof.
  induction 1 as [|x l Hx Hl IH]; [reflexivity|].
  cbn [Array_sort fold_right]. fold (Array_sort l). rewrite IH.
  destruct l as [|y rest]; [reflexivity|]. cbn [sort_insert].
  rewrite SortCompare_nan by (left; exact Hx). reflexivity.
Qed.

(** A query whose components are all zero has no similarity to anything. *)
Lemma cosine_zero_query (queryEmbedding : list float) (vecB : list component) :
  forallb is_zero queryEmbedding = true -> is_nan (cosine queryEmbedding vecB) = true.
Proof.
  intros H. rewrite forallb_forall in H. unfold cosine.
  apply FloatFacts.div_zero_or_nan.
  - unfold dotProduct.
    apply (reduce_zero_or_nan (fun a idx => (a * ToNumber (vecB !! idx))%float)); [|exact I].
    intros a idx Ha. apply FloatFacts.mul_zero_or_nan_l, FloatFacts.is_zero_zero_or_nan, H, Ha.
  - apply FloatFacts.mul_zero_or_nan_l. unfold magA. apply FloatFacts.sqrt_zero_or_nan.
    apply (reduce_zero_or_nan (fun a _ => (a * a)%float)); [|exact I].
    intros a _ Ha. apply FloatFacts.mul_zero_or_nan, FloatFacts.is_zero_zero_or_nan, H, Ha.
Qed.

Lemma map_doc_scored (queryEmbedding : list float) (docs : list document) :
  map doc (map (scored_document queryEmbedding) docs) = docs.
Proof. rewrite map_map. simpl. apply map_id. Qed.

(** The two sums of the product, term by term. *)
Lemma dotProduct_swap (vecA vecB : list float) :
  forall (pa pb : list component) (acc : float),
    length vecA = length vecB -> length pa = length pb ->
    reduce (fun sum a idx => (sum + a * ToNumber ((pb ++ map Num vecB) !! idx))%float)
      vecA (length pa) acc =
    reduce (fun sum b idx => (sum + b * ToNumber ((pa ++ map Num vecA) !! idx))%float)
      vecB (length pb) acc.
Proof.
  revert vecB. induction vecA as [|a vecA IH]; intros [|b vecB] pa pb acc Hl Hp;
    try discriminate; [reflexivity|].
  cbn [reduce map].
  rewrite (list_lookup_middle pb _ (Num b) (length pa)) by exact Hp.
  rewrite (list_lookup_middle pa _ (Num a) (length pb)) by (symmetry; exact Hp).
  cbn [ToNumber]. rewrite (FloatFacts.mul_comm b a).
  specialize (IH vecB (pa ++ [Num a]) (pb ++ [Num b]) (acc + a * b)%float).
  rewrite !length_app, <- !app_assoc in IH. simpl in IH.
  rewrite !Nat.add_1_r in IH. apply IH; [now injection Hl|now rewrite Hp].
Qed.

Lemma magB_Num (vec : list float) : magB (map Num vec) = magA vec.
Proof.
  unfold magB, magA. f_equal. generalize 0%nat, 0%float.
  induction vec as [|x vec IH]; intros idx acc; [reflexivity|]. simpl. apply IH.
Qed.

End MoreSearchFacts.

(** X3: whatever the similarities are (NaN included), the search on a corpus
    whose documents have vectors returns the first [k] documents of one
    ranking of the whole corpus, and that ranking is a rearrangement of the
    corpus: no document is lost, repeated or invented, and asking for more
    documents does not change the first ones. *)
Theorem getTopKDocuments_selection (queryEmbedding : list float) (docs : list document)
    (k : nat) :
  Forall (fun d => is_Some (embedding d)) docs ->
  exists ranking,
    getTopKDocuments (Some queryEmbedding) (Some docs) (length docs) = Normal ranking /\
    Permutation ranking docs /\
    getTopKDocuments (Some queryEmbedding) (Some docs) k = Normal (take k ranking).
Proof.
  intros H. set (l := map (scored_document queryEmbedding) docs).
  exists (map doc (Array_sort l)).
  rewrite !getTopKDocuments_sorted by exact H. fold l.
  assert (Hlen : length (Array_sort l) = length docs).
  { rewrite Array_sort_length. unfold l. apply length_map. }
  rewrite <- Hlen, firstn_all. split; [reflexivity|]. split.
  - rewrite <- (map_doc_scored queryEmbedding docs). apply Permutation_map, Array_sort_perm.
  - now rewrite firstn_map.
Qed.

Lemma getTopKDocuments_selection_witness :
  exists ranking,
    getTopKDocuments (Some [1; 0]%float) (Some corpus_with_zero_vector)
      (length corpus_with_zero_vector) = Normal ranking /\
    Permutation ranking corpus_with_zero_vector /\
    getTopKDocuments (Some [1; 0]%float) (Some corpus_with_zero_vector) 2 =
      Normal (take 2 ranking).
Proof.
  apply (getTopKDocuments_selection [1; 0]%float corpus_with_zero_vector 2).
  repeat constructor; eexists; reflexivity.
Defined.

(** X4: the search throws a TypeError, and returns nothing, as soon as one
    document of the corpus has no vector, or when the query vector is
    undefined and the corpus is not empty. *)
Theorem getTopKDocuments_missing_vector (queryEmbedding : option (list float))
    (docs : list document) (k : nat) :
  (docs <> [] /\ queryEmbedding = None) \/ Exists (fun d => embedding d = None) docs ->
  getTopKDocuments queryEmbedding (Some docs) k = Throw TypeError.
Proof. apply getTopKDocuments_throws. Qed.

Lemma getTopKDocuments_missing_vector_witness :
  getTopKDocuments (Some [1; 0]%float)
    (Some [sample_document "first" [1; 0]%float; document_of_item
             {| item_id := VString "bare"; item_title := VString "bare";
                item_snippet := VString ""; item_embedding := None |}]) 1
  = Throw TypeError.
Proof.
  apply (getTopKDocuments_missing_vector (Some [1; 0]%float)).
  right. apply Exists_cons_tl, Exists_cons_hd. reflexivity.
Defined.

(** X5: on two vectors of numbers of the same length [cosineSimilarity] is
    symmetric: exchanging the query and the document vector gives the same
    number. *)
Theorem cosineSimilarity_symmetric (vecA vecB : list float) :
  length vecA = length vecB ->
  cosineSimilarity (Some vecA) (Some (map Num vecB)) =
  cosineSimilarity (Some vecB) (Some (map Num vecA)).
Proof.
  intros H. unfold cosineSimilarity, cosine, dotProduct. f_equal.
  pose proof (dotProduct_swap vecA vecB [] [] 0%float H eq_refl) as Hdot.
  simpl in Hdot. rewrite Hdot.
  rewrite !magB_Num, (FloatFacts.mul_comm (magA vecA)). reflexivity.
Qed.

Lemma cosineSimilarity_symmetric_witness :
  cosineSimilarity (Some [1; 2; 3]%float) (Some (map Num [0.5; 0.25; 4]%float)) =
  cosineSimilarity (Some [0.5; 0.25; 4]%float) (Some (map Num [1; 2; 3]%float)).
Proof. apply (cosineSimilarity_symmetric [1; 2; 3]%float [0.5; 0.25; 4]%float). reflexivity. Defined.

(** X6: for a query whose components are all zero (the empty vector
    included) every similarity is NaN, every comparison is a tie, and the
    search returns the first [k] documents of the corpus, in corpus order. *)
Theorem zero_query_returns_first_documents (queryEmbedding : list float)
    (docs : list document) (k : nat) :
  forallb is_zero queryEmbedding = true ->
  Forall (fun d => is_Some (embedding d)) docs ->
  getTopKDocuments (Some queryEmbedding) (Some docs) k = Normal (take k docs).
Proof.
  intros Hq Hd. rewrite getTopKDocuments_sorted by exact Hd.
  rewrite Array_sort_all_nan.
  - now rewrite <- firstn_map, map_doc_scored.
  - apply Forall_forall. intros a Ha.
    apply list_elem_of_In, in_map_iff in Ha as (d & <- & Hin).
    rewrite Forall_forall in Hd. apply list_elem_of_In in Hin.
    destruct (Hd d Hin) as [v Hv]. unfold scored_document, similarity. simpl.
    rewrite Hv. now apply cosine_zero_query.
Qed.

Lemma zero_query_returns_first_documents_witness :
  getTopKDocuments (Some [0; 0]%float) (Some scenario_corpus) 2 = Normal (take 2 scenario_corpus).
Proof.
  apply (zero_query_returns_first_documents [0; 0]%float scenario_corpus 2).
  - reflexivity.
  - repeat constructor; eexists; reflexivity.
Defined.

(** ** The normaliser: tags, files that cannot be used, the shape of the corpus *)

Section MoreNormaliserFacts.

Lemma is_gt_not_lt (c : ascii) : is_gt c = true -> is_lt c = false.
Proof. unfold is_gt, is_lt. intros H. apply Ascii.eqb_eq in H. now subst. Qed.

Lemma strip_from_plain_fixed (text : list ascii) :
  plain text = true -> strip_from false text = text.
Proof.
  induction text as [|c rest IH]; [reflexivity|]. cbn [plain strip_from].
  intros H. apply andb_true_iff in H as [Hc Hr]. specialize (IH Hr).
  destruct (is_lt c); [|now rewrite IH].
  destruct rest as [|c1 r]; [reflexivity|].
  replace (negb (is_gt c1) && existsb is_gt (c1 :: r)) with false; [now rewrite IH|].
  destruct (is_gt c1), (existsb is_gt (c1 :: r)); simpl in *; congruence.
Qed.

(** What is left contains no ">" that the text did not contain. *)
Lemma strip_from_no_gt (text : list ascii) :
  existsb is_gt text = false -> forall inside, existsb is_gt (strip_from inside text) = false.
Proof.
  induction text as [|c rest IH]; intros H inside; [now destruct inside|].
  cbn [existsb] in H. apply orb_false_iff in H as [Hc Hr]. specialize (IH Hr).
  cbn [strip_from]. rewrite Hc. destruct inside; [apply IH|].
  destruct (is_lt c).
  - destruct rest as [|c1 r]; [cbn; now rewrite Hc|].
    rewrite Hr, andb_false_r. cbn [existsb]. now rewrite Hc, IH.
  - cbn [existsb]. now rewrite Hc, IH.
Qed.

Lemma strip_from_is_plain (text : list ascii) :
  plain (strip_from false text) = true /\ plain (strip_from true text) = true.
Proof.
  induction text as [|c rest [IHf IHt]]; [split; reflexivity|]. split.
  - cbn [strip_from]. destruct (is_lt c) eqn:Hlt.
    + destruct rest as [|c1 r]; [cbn [plain]; now rewrite Hlt|].
      destruct (negb (is_gt c1) && existsb is_gt (c1 :: r)) eqn:E; [exact IHt|].
      cbn [plain]. rewrite Hlt, IHf, andb_true_r.
      destruct (is_gt c1) eqn:Hgt.
      * cbn [strip_from]. rewrite (is_gt_not_lt c1 Hgt). now rewrite Hgt.
      * simpl in E. rewrite (strip_from_no_gt (c1 :: r) E false).
        destruct (strip_from false (c1 :: r)); [reflexivity|apply orb_true_r].
    + cbn [plain]. now rewrite Hlt, IHf.
  - cbn [strip_from]. now destruct (is_gt c).
Qed.

Lemma no_lt_plain (text : list ascii) :
  forallb (fun c => negb (is_lt c)) text = true -> plain text = true.
Proof.
  induction text as [|c rest IH]; [reflexivity|]. cbn [forallb plain].
  intros H. apply andb_true_iff in H as [Hc Hr]. apply negb_true_iff in Hc.
  now rewrite Hc, IH.
Qed.

(** *** What a file adds *)

Lemma forEach_push_all (callback : value -> completion document) (records : list value) :
  forall (documents pushed : list document),
    map_completion callback records = Normal pushed ->
    forEach_push callback records documents = (Normal tt, documents ++ pushed).
Proof.
  induction records as [|r records IH]; intros documents pushed; cbn [map_completion].
  - intros [= <-]. now rewrite app_nil_r.
  - destruct (callback r) as [d|e] eqn:E; [|discriminate]. cbn [bind_completion].
    destruct (map_completion callback records) as [ds|e]; [|discriminate].
    intros [= <-]. cbn [forEach_push]. rewrite E, (IH _ ds eq_refl), <- app_assoc. reflexivity.
Qed.

Lemma forEach_push_throw (callback : value -> completion document) (bad : value)
    (post : list value) (e : error) :
  callback bad = Throw e ->
  forall (pre : list value) (documents pushed : list document),
    map_completion callback pre = Normal pushed ->
    forEach_push callback (pre ++ bad :: post) documents = (Throw e, documents ++ pushed).
Proof.
  intros Hbad. induction pre as [|r pre IH]; intros documents pushed; cbn [map_completion].
  - intros [= <-]. cbn. now rewrite Hbad, app_nil_r.
  - destruct (callback r) as [d|e'] eqn:E; [|discriminate]. cbn [bind_completion].
    destruct (map_completion callback pre) as [ds|e']; [|discriminate].
    intros [= <-]. cbn [app forEach_push]. rewrite E, (IH _ ds eq_refl), <- app_assoc.
    reflexivity.
Qed.

(** The documents that are there stay, and every document added is the
    result of the callback on a record. *)
Lemma forEach_push_pushed (callback : value -> completion document) (records : list value) :
  forall documents,
  exists pushed,
    snd (forEach_push callback records documents) = documents ++ pushed /\
    Forall (fun d => exists r, callback r = Normal d) pushed.
Proof.
  induction records as [|r records IH]; intros documents; cbn [forEach_push].
  - exists []. now rewrite app_nil_r.
  - destruct (callback r) as [d|e] eqn:E.
    + destruct (IH (documents ++ [d])) as (pushed & -> & Hp).
      exists (d :: pushed). rewrite <- app_assoc. split; [reflexivity|].
      constructor; [eauto|exact Hp].
    + exists []. now rewrite app_nil_r.
Qed.

Lemma forEach_json_pushed (callback : value -> completion document) (json : value)
    (documents : list document) :
  exists pushed,
    snd (forEach_json callback json documents) = documents ++ pushed /\
    Forall (fun d => exists r, callback r = Normal d) pushed.
Proof.
  unfold forEach_json. destruct (array_items json) as [records|e].
  - apply forEach_push_pushed.
  - exists []. now rewrite app_nil_r.
Qed.

Lemma push_documents_pushed (file : string) (json : value) (documents : list document) :
  exists pushed,
    snd (push_documents file json documents) = documents ++ pushed /\
    Forall (fun d => exists callback r, In callback callbacks /\ callback r = Normal d) pushed.
Proof.
  assert (Hweak : forall callback pushed,
             In callback callbacks ->
             Forall (fun d => exists r, callback r = Normal d) pushed ->
             Forall (fun d => exists callback r, In callback callbacks /\ callback r = Normal d)
               pushed).
  { intros callback pushed Hin Hp. eapply Forall_impl; [exact Hp|].
    intros d [r Hr]. eauto. }
  assert (Hnone : exists pushed,
             documents = documents ++ pushed /\
             Forall (fun d => exists callback r, In callback callbacks /\ callback r = Normal d)
               pushed).
  { exists []. now rewrite app_nil_r. }
  unfold push_documents, forEach_rows.
  repeat match goal with
         | |- context [if ?b then _ else _] => destruct b
         end;
    try (destruct (get json "query") as [query|]; [|exact Hnone];
         destruct (get_optional query "row") as [row|]; [|exact Hnone];
         destruct (is_nullish row); [exact Hnone|]);
    try exact Hnone;
    match goal with
    | |- context [forEach_json ?callback ?v _] =>
        destruct (forEach_json_pushed callback v documents) as (pushed & Hs & Hp);
        exists pushed; split; [exact Hs|]; apply (Hweak callback); [cbn; tauto|exact Hp]
    end.
Qed.

Lemma push_documents_branch (file : string) (callback : value -> completion document)
    (json : value) (documents : list document) :
  In (file, callback) array_branches ->
  push_documents file json documents = forEach_json callback json documents.
Proof.
  intros [H|[H|[H|[H|[]]]]]; injection H as <- <-; reflexivity.
Qed.

Lemma load_file_pushed (file : string) (documents : list document) (w : world) :
  exists pushed events,
    load_file file documents w = (Normal (documents ++ pushed), add_events w events) /\
    events `sublist_of` [error_line file] /\
    Forall (fun d => exists callback r, In callback callbacks /\ callback r = Normal d) pushed.
Proof.
  unfold load_file, try_catch, bind, readFile, lift, console_error, emit, ret.
  destruct (files w !! file) as [[|json]|]; cbn [JSON_parse].
  - exists [], [error_line file]. now rewrite app_nil_r.
  - destruct (push_documents_pushed file json documents) as (pushed & Hs & Hp).
    destruct (push_documents file json documents) as [[[]|e] documents']; simpl in Hs; subst.
    + exists pushed, []. rewrite add_events_nil. split; [reflexivity|].
      split; [apply sublist_nil_l|exact Hp].
    + exists pushed, [error_line file]. auto.
  - exists [], [error_line file]. now rewrite app_nil_r.
Qed.

Lemma load_files_pushed (paths : list string) :
  forall (documents : list document) (w : world),
  exists pushed events,
    load_files paths documents w = (Normal (documents ++ pushed), add_events w events) /\
    events `sublist_of` map error_line paths /\
    Forall (fun d => exists callback r, In callback callbacks /\ callback r = Normal d) pushed.
Proof.
  induction paths as [|file paths IH]; intros documents w; cbn [load_files map].
  - exists [], []. unfold ret. now rewrite add_events_nil, app_nil_r.
  - unfold bind.
    destruct (load_file_pushed file documents w) as (p1 & e1 & -> & S1 & F1).
    destruct (IH (documents ++ p1) (add_events w e1)) as (p2 & e2 & -> & S2 & F2).
    exists (p1 ++ p2), (e1 ++ e2). rewrite add_events_app, <- app_assoc.
    split; [reflexivity|]. split; [|now apply Forall_app].
    change (error_line file :: map error_line paths)
      with ([error_line file] ++ map error_line paths).
    now apply sublist_app.
Qed.

Lemma template_prefix (prefix : string) (v : value) (s : string) :
  template [Lit prefix; Sub v] = Normal s -> exists rest, s = prefix +:+ rest.
Proof.
  cbn [template]. destruct (ToString v) as [t|]; cbn [bind_completion]; [|discriminate].
  intros [= <-]. eauto.
Qed.

(** Each callback makes documents with the prefix of its source. *)
Lemma callback_fresh_from (file : string) (callback : value -> completion document)
    (prefix : string) (r : value) (d : document) :
  In (file, (callback, prefix)) sources -> callback r = Normal d -> fresh_from prefix d.
Proof.
  intros [H|[H|[H|[H|[H|[]]]]]]; injection H as <- <- <-;
    unfold tour_details_document, tours_document, rest_countries_document,
      unesco_sites_document, merged_countries_document;
    repeat step_completion; intros [= <-]; (split; [reflexivity|]);
    match goal with
    | H : template [Lit _; Sub _] = Normal _ |- _ =>
        destruct (template_prefix _ _ _ H) as [rest ->]; exists rest; reflexivity
    end.
Qed.

(** What a file pushes does not depend on the documents collected before. *)
Lemma forEach_push_from_nil (callback : value -> completion document) (records : list value) :
  forall documents,
    forEach_push callback records documents =
      (fst (forEach_push callback records []),
       documents ++ snd (forEach_push callback records [])).
Proof.
  induction records as [|r records IH]; intros documents; cbn [forEach_push].
  - cbn. now rewrite app_nil_r.
  - destruct (callback r) as [d|e]; [|cbn; now rewrite app_nil_r].
    rewrite (IH (documents ++ [d])), (IH ([] ++ [d])). cbn [fst snd app].
    now rewrite <- app_assoc.
Qed.

Lemma forEach_json_from_nil (callback : value -> completion document) (json : value)
    (documents : list document) :
  forEach_json callback json documents =
    (fst (forEach_json callback json []), documents ++ snd (forEach_json callback json [])).
Proof.
  unfold forEach_json. destruct (array_items json) as [records|e].
  - apply forEach_push_from_nil.
  - cbn. now rewrite app_nil_r.
Qed.

Lemma push_documents_from_nil (file : string) (json : value) (documents : list document) :
  push_documents file json documents =
    (fst (push_documents file json []), documents ++ snd (push_documents file json [])).
Proof.
  unfold push_documents, forEach_rows.
  repeat match goal with
         | |- context [if ?b then _ else _] => destruct b
         end;
    try apply forEach_json_from_nil;
    try (cbn; now rewrite app_nil_r).
  destruct (get json "query") as [query|]; [|cbn; now rewrite app_nil_r].
  destruct (get_optional query "row") as [row|]; [|cbn; now rewrite app_nil_r].
  destruct (is_nullish row); [cbn; now rewrite app_nil_r|apply forEach_json_from_nil].
Qed.

Lemma file_documents_eq (w : world) (file : string) :
  file_documents w file =
    match files w !! file with
    | Some (Json json) => snd (push_documents file json [])
    | _ => []
    end.
Proof.
  unfold file_documents, load_file, try_catch, bind, readFile, lift, console_error, emit, ret.
  destruct (files w !! file) as [[|json]|]; cbn [JSON_parse]; try reflexivity.
  destruct (push_documents file json []) as [[[]|e] documents]; reflexivity.
Qed.

(** A round of the loop appends the documents of its file. *)
Lemma load_file_appends (file : string) (documents : list document) (w : world) :
  exists events,
    load_file file documents w =
      (Normal (documents ++ file_documents w file), add_events w events).
Proof.
  rewrite file_documents_eq.
  unfold load_file, try_catch, bind, readFile, lift, console_error, emit, ret.
  destruct (files w !! file) as [[|json]|]; cbn [JSON_parse].
  - exists [error_line file]. now rewrite app_nil_r.
  - rewrite (push_documents_from_nil file json documents).
    destruct (fst (push_documents file json [])) as [[]|e].
    + exists []. now rewrite add_events_nil.
    + exists [error_line file]. reflexivity.
  - exists [error_line file]. now rewrite app_nil_r.
Qed.

Lemma file_documents_add_events (w : world) (events : list event) (file : string) :
  file_documents (add_events w events) file = file_documents w file.
Proof. now rewrite !file_documents_eq. Qed.

Lemma load_files_concat (paths : list string) :
  forall (documents : list document) (w : world),
  exists events,
    load_files paths documents w =
      (Normal (documents ++ concat (map (file_documents w) paths)), add_events w events).
Proof.
  induction paths as [|file paths IH]; intros documents w; cbn [load_files map concat].
  - exists []. unfold ret. now rewrite add_events_nil, app_nil_r.
  - unfold bind. destruct (load_file_appends file documents w) as (e1 & ->).
    destruct (IH (documents ++ file_documents w file) (add_events w e1)) as (e2 & ->).
    exists (e1 ++ e2). rewrite add_events_app, <- app_assoc.
    rewrite (map_ext (file_documents (add_events w e1)) (file_documents w)); [reflexivity|].
    intros f. apply file_documents_add_events.
Qed.

(** What the branch of a source pushes has the prefix of the source. *)
Lemma push_documents_fresh (file : string) (callback : value -> completion document)
    (prefix : string) (json : value) :
  In (file, (callback, prefix)) sources ->
  Forall (fresh_from prefix) (snd (push_documents file json [])).
Proof.
  intros Hin.
  assert (Hjson : forall v, Forall (fresh_from prefix) (snd (forEach_json callback v []))).
  { intros v. destruct (forEach_json_pushed callback v []) as (pushed & -> & Hp).
    cbn [app]. eapply Forall_impl; [exact Hp|].
    intros d [r Hr]. exact (callback_fresh_from file callback prefix r d Hin Hr). }
  destruct Hin as [H|[H|[H|[H|[H|[]]]]]]; injection H as <- <- <-;
    try apply Hjson.
  change (push_documents "./documents/unesco_sites.json" json [])
    with (forEach_rows unesco_sites_document json []).
  unfold forEach_rows.
  destruct (get json "query") as [query|]; [|constructor].
  destruct (get_optional query "row") as [row|]; [|constructor].
  destruct (is_nullish row); [constructor|apply Hjson].
Qed.

End MoreNormaliserFacts.

(** X7: text without "<" goes through the tag filter unchanged. *)
Theorem strip_tags_plain_text (text : string) :
  forallb (fun c => negb (is_lt c)) (list_ascii_of_string text) = true ->
  strip_tags text = text.
Proof.
  intros H. unfold strip_tags.
  rewrite strip_from_plain_fixed by now apply no_lt_plain.
  apply string_of_list_ascii_of_string.
Qed.

Lemma strip_tags_plain_text_witness :
  strip_tags "Machu Picchu, 2 > 1" = "Machu Picchu, 2 > 1".
Proof. apply (strip_tags_plain_text "Machu Picchu, 2 > 1"). reflexivity. Defined.

(** X8: the tag filter leaves nothing it would remove: filtering a second
    time changes nothing. *)
Theorem strip_tags_idempotent (text : string) :
  strip_tags (strip_tags text) = strip_tags text.
Proof.
  unfold strip_tags. rewrite list_ascii_of_string_of_list_ascii.
  rewrite strip_from_plain_fixed; [reflexivity|]. apply strip_from_is_plain.
Qed.

(** X9: [loadDocuments] never rejects, whatever the corpus files hold.  It
    writes to the console only: at most one error line for each file, in the
    order of the files, and then the line that counts the documents it
    returns. *)
Theorem loadDocuments_never_rejects (w : world) :
  exists documents errors,
    loadDocuments w =
      (Normal documents,
       add_events w
         (errors ++ [Console LogLevel ("Loaded " +:+ Number.of_nat (length documents)
                                       +:+ " documents")])) /\
    errors `sublist_of` map error_line corpus_files.
Proof.
  destruct (load_files_pushed corpus_files [] w) as (pushed & errors & Hrun & Hs & _).
  exists pushed, errors. unfold loadDocuments, bind. rewrite Hrun.
  unfold console_log, emit, ret. rewrite add_events_app. auto.
Qed.

(** X10: a file that is absent, that is not JSON, or (for the four files read
    as arrays) whose content is not an array is passed over: the documents
    collected so far are kept, and one error line is written. *)
Theorem load_file_skips_unusable (file : string) (documents : list document) (w : world) :
  files w !! file = None \/
  files w !! file = Some NotJson \/
  (exists callback json,
     In (file, callback) array_branches /\
     files w !! file = Some (Json json) /\ array_items json = Throw TypeError) ->
  load_file file documents w = (Normal documents, add_events w [error_line file]).
Proof.
  unfold load_file, try_catch, bind, readFile, lift, console_error, emit, ret.
  intros [->|[->|(callback & json & Hin & -> & Hjson)]]; try reflexivity.
  cbn [JSON_parse]. rewrite (push_documents_branch file callback) by exact Hin.
  unfold forEach_json. rewrite Hjson. reflexivity.
Qed.

Lemma load_file_skips_unusable_witness :
  load_file "./documents/tours.json" scenario_corpus
    (initial_world (sample_files 3) None true answering_api) =
  (Normal scenario_corpus,
   add_events (initial_world (sample_files 3) None true answering_api)
     [error_line "./documents/tours.json"]).
Proof.
  apply (load_file_skips_unusable "./documents/tours.json" scenario_corpus
           (initial_world (sample_files 3) None true answering_api)).
  left. reflexivity.
Defined.

(** X11: when the callback succeeds on every record of an array file, the
    file adds one document for each record, in the order of the records,
    after the documents collected so far, and nothing is written to the
    console. *)
Theorem load_file_complete (file : string) (callback : value -> completion document)
    (records : list value) (documents pushed : list document) (w : world) :
  In (file, callback) array_branches ->
  files w !! file = Some (Json (VArray records)) ->
  map_completion callback records = Normal pushed ->
  load_file file documents w = (Normal (documents ++ pushed), w) /\
  length pushed = length records.
Proof.
  intros Hin Hfile Hall. split.
  - unfold load_file, try_catch, bind, readFile, lift, ret. rewrite Hfile. cbn [JSON_parse].
    rewrite (push_documents_branch file callback) by exact Hin.
    unfold forEach_json. cbn [array_items]. now rewrite (forEach_push_all _ _ _ pushed Hall).
  - clear Hfile. revert pushed Hall.
    induction records as [|r records IH]; intros pushed; cbn [map_completion].
    + now intros [= <-].
    + destruct (callback r); [|discriminate]. cbn [bind_completion].
      destruct (map_completion callback records) as [ds|]; [|discriminate].
      intros [= <-]. cbn. now rewrite (IH ds eq_refl).
Qed.

Lemma load_file_complete_witness :
  exists pushed,
    load_file "./documents/merged_countries.json" scenario_corpus
      (initial_world (sample_files 3) None true answering_api) =
    (Normal (scenario_corpus ++ pushed),
     initial_world (sample_files 3) None true answering_api) /\
    length pushed = 3%nat.
Proof.
  eexists.
  apply (load_file_complete "./documents/merged_countries.json" merged_countries_document
           (repeat (VObject [("name", VString "Peru"); ("capital", VString "Lima")]) 3)).
  - cbn. tauto.
  - reflexivity.
  - reflexivity.
Defined.

(** X12: when the callback throws on a record of an array file, the
    documents of the records before it stay in the corpus, the records after
    it are not read, and one error line is written. *)
Theorem load_file_partial (file : string) (callback : value -> completion document)
    (pre post : list value) (bad : value) (e : error)
    (documents pushed : list document) (w : world) :
  In (file, callback) array_branches ->
  files w !! file = Some (Json (VArray (pre ++ bad :: post))) ->
  map_completion callback pre = Normal pushed ->
  callback bad = Throw e ->
  load_file file documents w =
    (Normal (documents ++ pushed), add_events w [error_line file]).
Proof.
  intros Hin Hfile Hpre Hbad.
  unfold load_file, try_catch, bind, readFile, lift, console_error, emit, ret.
  rewrite Hfile. cbn [JSON_parse].
  rewrite (push_documents_branch file callback) by exact Hin.
  unfold forEach_json. cbn [array_items].
  now rewrite (forEach_push_throw callback bad post e Hbad pre documents pushed Hpre).
Qed.

Lemma load_file_partial_witness :
  load_file "./documents/tours.json" []
    (initial_world files_with_null_record None true answering_api) =
  (Normal [ {| id := VString "tours_Andes";
               data := {| title := VString "Andes"; snippet := VString "Trek" |};
               embedding := None |} ],
   add_events (initial_world files_with_null_record None true answering_api)
     [error_line "./documents/tours.json"]).
Proof.
  apply (load_file_partial "./documents/tours.json" tours_document
           [VObject [("name", VString "Andes"); ("product_line", VString "Trek")]]
           [VObject [("name", VString "Coast")]] VNull TypeError []).
  - cbn. tauto.
  - reflexivity.
  - reflexivity.
  - reflexivity.
Defined.

(** X13: the documents that [loadDocuments] returns are the documents of the
    five files, file after file in the order in which the files are read;
    every document of a file has no vector yet, and an id that is a string
    starting with the prefix of that file. *)
Theorem corpus_documents_are_fresh (w : world) :
  map fst sources = corpus_files /\
  corpus w = concat (map (file_documents w) corpus_files) /\
  forall file callback prefix,
    In (file, (callback, prefix)) sources ->
    Forall (fresh_from prefix) (file_documents w file).
Proof.
  split; [reflexivity|]. split.
  - unfold corpus, loadDocuments, bind.
    destruct (load_files_concat corpus_files [] w) as (events & ->). reflexivity.
  - intros file callback prefix Hin. rewrite file_documents_eq.
    destruct (files w !! file) as [[|json]|]; try constructor.
    exact (push_documents_fresh file callback prefix json Hin).
Qed.

(** ** The pipeline: the batches, the vectors, the disk, a second start *)

Section MorePipelineFacts.

Lemma document_texts_of (l : list document) :
  Forall renders l -> map_completion document_text l = Normal (map text_of l).
Proof.
  induction 1 as [|d l [t Hd] Hl IH]; [reflexivity|].
  cbn [map_completion map]. unfold text_of at 1. rewrite Hd, IH. reflexivity.
Qed.

(** The run of the loop when the API answers: what is sent, what comes
    back, and the pauses. *)
Lemma embed_loop_trace (documents : list document) (batchSize : nat) :
  (0 < batchSize)%nat -> Forall renders documents ->
  forall (fuel i : nat) (allEmbeddings : list (list float)) (w : world),
    answers_embed (cohere w) ->
    (ceil_div (length documents - i) batchSize <= fuel)%nat ->
    exists events,
      embed_loop fuel documents batchSize i allEmbeddings w =
        (Normal (allEmbeddings ++ replies (cohere w) (embed_calls w) (embed_requests events)),
         add_events w events) /\
      concat (map texts (embed_requests events)) =
        map (fun d => VString (text_of d)) (drop i documents) /\
      Forall (fun request =>
                (0 < length (texts request) <= batchSize)%nat /\
                model request = "embed-multilingual-v3.0" /\
                input_type request = "search_document") (embed_requests events) /\
      List.filter is_sleep events =
        repeat (Sleep 10000) (ceil_div (length documents - i) batchSize).
Proof.
  intros Hb Hr. induction fuel as [|fuel IH]; intros i acc w Hapi Hfuel.
  - assert (Hi : (length documents - i = 0)%nat).
    { destruct (length documents - i)%nat eqn:E; [reflexivity|].
      rewrite ceil_div_step in Hfuel by lia. lia. }
    simpl. destruct (Nat.ltb_spec i (length documents)); [lia|].
    exists []. unfold ret. rewrite add_events_nil, Hi, ceil_div_0 by lia.
    rewrite drop_ge by lia. cbn. rewrite app_nil_r. auto.
  - simpl. destruct (Nat.ltb_spec i (length documents)) as [Hi|Hi].
    + unfold bind at 1, console_log, emit.
      set (w1 := add_events w _).
      assert (Hc1 : embed_calls w1 = embed_calls w).
      { unfold w1. rewrite embed_calls_add_events. unfold embeds. simpl. lia. }
      unfold bind at 1, lift.
      rewrite document_texts_of by (apply Forall_take, Forall_drop, Hr).
      unfold bind at 1, cohere_embed, emit.
      set (request := {| texts := _; model := _; input_type := _ |}).
      destruct (Hapi (embed_calls w) request) as (es & Hes & Hles).
      change (cohere w1) with (cohere w). rewrite Hc1, Hes.
      unfold bind at 1, sleep, emit. rewrite !add_events_app.
      set (w2 := add_events w1 _).
      assert (Hc2 : embed_calls w2 = S (embed_calls w)).
      { unfold w2. rewrite embed_calls_add_events, Hc1. unfold embeds. simpl. lia. }
      destruct (IH (i + batchSize)%nat (acc ++ es) w2) as (ev' & Hrun & Ht & Hf & Hs).
      { exact Hapi. }
      { rewrite ceil_div_step in Hfuel by lia.
        replace (length documents - (i + batchSize))%nat
          with (length documents - i - batchSize)%nat by lia. lia. }
      rewrite Hrun.
      eassert (Hw2 : w2 = add_events w _)
        by (unfold w2, w1; rewrite !add_events_app; reflexivity).
      match type of Hw2 with _ = add_events w ?sent => exists (sent ++ ev') end.
      split; [|split; [|split]].
      * rewrite <- add_events_app, <- Hw2. f_equal. f_equal.
        unfold embed_requests. rewrite omap_app. cbn [app omap list_omap embed_request_of replies].
        fold (embed_requests ev'). rewrite Hes. cbn [default].
        change (cohere w2) with (cohere w). rewrite Hc2, <- app_assoc. reflexivity.
      * unfold embed_requests. rewrite omap_app. cbn [app omap list_omap embed_request_of map concat].
        fold (embed_requests ev'). rewrite Ht. fold request. cbn [texts request].
        rewrite map_map, <- map_app. f_equal.
        rewrite <- (drop_drop documents), take_drop. reflexivity.
      * unfold embed_requests. rewrite omap_app. cbn [app omap list_omap embed_request_of].
        fold (embed_requests ev'). constructor; [|exact Hf].
        cbn [texts request model input_type].
        rewrite !length_map, length_take, length_drop. repeat split; lia.
      * rewrite List.filter_app. cbn [app List.filter is_sleep]. rewrite Hs.
        rewrite (ceil_div_step (length documents - i)) by lia.
        replace (length documents - (i + batchSize))%nat
          with (length documents - i - batchSize)%nat by lia. reflexivity.
    + exists []. unfold ret. rewrite add_events_nil.
      replace (length documents - i)%nat with 0%nat by lia.
      rewrite ceil_div_0, drop_ge by lia. cbn. rewrite app_nil_r. auto.
Qed.

(** [allEmbeddings.forEach] on documents that follow the documents [done]. *)
Lemma assign_embeddings_zip (allEmbeddings : list (list float)) :
  forall (done documents : list document),
    (length allEmbeddings <= length documents)%nat ->
    assign_embeddings allEmbeddings (length done) (done ++ documents) =
      Normal (done ++ zip_with set_embedding documents allEmbeddings
                   ++ drop (length allEmbeddings) documents).
Proof.
  induction allEmbeddings as [|e rest IH]; intros done documents H; cbn [assign_embeddings].
  - now destruct documents.
  - destruct documents as [|d documents]; [simpl in H; lia|].
    rewrite list_lookup_middle by reflexivity.
    replace (<[length done:=set_embedding d e]> (done ++ d :: documents))
      with ((done ++ [set_embedding d e]) ++ documents).
    + replace (S (length done)) with (length (done ++ [set_embedding d e]))
        by (rewrite length_app; simpl; lia).
      rewrite IH by (simpl in H; lia). now rewrite <- app_assoc.
    + rewrite <- app_assoc. cbn [app].
      rewrite <- (Nat.add_0_r (length done)). now rewrite insert_app_r.
Qed.

Lemma assign_embeddings_excess (allEmbeddings : list (list float)) :
  forall (done documents : list document),
    (length documents < length allEmbeddings)%nat ->
    assign_embeddings allEmbeddings (length done) (done ++ documents) = Throw TypeError.
Proof.
  induction allEmbeddings as [|e rest IH]; intros done documents H; cbn [assign_embeddings].
  - simpl in H. lia.
  - destruct documents as [|d documents].
    + rewrite app_nil_r, lookup_ge_None_2 by lia. reflexivity.
    + rewrite list_lookup_middle by reflexivity.
      replace (<[length done:=set_embedding d e]> (done ++ d :: documents))
        with ((done ++ [set_embedding d e]) ++ documents).
      * replace (S (length done)) with (length (done ++ [set_embedding d e]))
          by (rewrite length_app; simpl; lia).
        apply IH. simpl in H. lia.
      * rewrite <- app_assoc. cbn [app].
        rewrite <- (Nat.add_0_r (length done)). now rewrite insert_app_r.
Qed.

Lemma zip_with_embedded (documents : list document) :
  forall allEmbeddings : list (list float),
    length allEmbeddings = length documents ->
    Forall2 embedded_from documents (zip_with set_embedding documents allEmbeddings).
Proof.
  induction documents as [|d documents IH]; intros [|e es] H; try discriminate; cbn.
  - constructor.
  - constructor; [|apply IH; now injection H].
    repeat split. cbn. eauto.
Qed.

(** The corpus build down to the write of the file, when the API answers:
    every document gets a vector; the write succeeds or fails with the disk. *)
Lemma embed_corpus_run (w : world) :
  answers_embed (cohere w) -> Forall renders (corpus w) ->
  exists (documents : list document) (events : list event),
    Forall2 embedded_from (corpus w) documents /\
    embeds events = ceil_div (length (corpus w)) 96 /\
    chats events = 0%nat /\ writes events = 0%nat /\
    embed_corpus w =
      if disk_writable w then
        (Normal documents,
         add_events
           (with_embeddings_file (add_events w events)
              (JSON_stringify (map item_of_document documents)))
           [FileWritten EMBEDDINGS_FILE;
            Console LogLevel ("Embeddings saved to " +:+ EMBEDDINGS_FILE)])
      else (Throw FileError, add_events w events).
Proof.
  intros Hapi Hr. unfold embed_corpus.
  destruct (loadDocuments_run w) as (e1 & Hload & E1 & C1 & W1).
  unfold bind at 1. rewrite Hload.
  unfold bind at 1, console_log, emit. rewrite add_events_app.
  set (w1 := add_events w _).
  destruct (embed_loop_run (corpus w) 96 ltac:(lia) Hr (length (corpus w)) 0 [] w1)
    as (es & e2 & Hloop & Hlen & E2 & C2 & W2).
  { exact Hapi. }
  { rewrite Nat.sub_0_r. apply ceil_div_le. lia. }
  unfold bind at 1, embedDocumentsInBatches. rewrite Hloop. simpl app.
  rewrite Nat.sub_0_r in Hlen, E2.
  pose proof (assign_embeddings_zip es [] (corpus w) ltac:(lia)) as Hassign.
  cbn [length app] in Hassign.
  rewrite drop_ge, app_nil_r in Hassign by lia.
  unfold bind at 1, lift. rewrite Hassign.
  exists (zip_with set_embedding (corpus w) es),
         ((e1 ++ [Console LogLevel "Embedding documents..."]) ++ e2).
  split; [now apply zip_with_embedded|].
  rewrite !embeds_app, !chats_app, !writes_app, E1, C1, W1, E2, C2, W2.
  do 3 (split; [reflexivity|]).
  unfold bind at 1. unfold w1. rewrite add_events_app.
  destruct (disk_writable w) eqn:Hdisk.
  - rewrite saveEmbeddingsToFile_run by exact Hdisk. reflexivity.
  - rewrite saveEmbeddingsToFile_fails by exact Hdisk. reflexivity.
Qed.

End MorePipelineFacts.

(** X14: when the API answers, [embedDocumentsInBatches] sends the text of
    every document exactly once, in the order of the corpus, in requests of
    between 1 and 96 texts; what it returns is the vectors of the answers,
    one answer after the other. *)
Theorem embedDocumentsInBatches_requests (documents : list document) (w : world) :
  answers_embed (cohere w) -> Forall renders documents ->
  exists events,
    embedDocumentsInBatches documents 96 w =
      (Normal (replies (cohere w) (embed_calls w) (embed_requests events)),
       add_events w events) /\
    concat (map texts (embed_requests events)) =
      map (fun d => VString (text_of d)) documents /\
    Forall batch_request (embed_requests events).
Proof.
  intros Hapi Hr.
  destruct (embed_loop_trace documents 96 ltac:(lia) Hr (length documents) 0 [] w Hapi)
    as (events & Hrun & Ht & Hf & _).
  { rewrite Nat.sub_0_r. apply ceil_div_le. lia. }
  exists events. split; [exact Hrun|]. split; [exact Ht|exact Hf].
Qed.

Lemma embedDocumentsInBatches_requests_witness :
  exists events,
    embedDocumentsInBatches scenario_corpus 96
      (initial_world (sample_files 3) None true answering_api) =
      (Normal (replies answering_api 0 (embed_requests events)),
       add_events (initial_world (sample_files 3) None true answering_api) events) /\
    concat (map texts (embed_requests events)) =
      map (fun d => VString (text_of d)) scenario_corpus /\
    Forall batch_request (embed_requests events).
Proof.
  apply (embedDocumentsInBatches_requests scenario_corpus
           (initial_world (sample_files 3) None true answering_api)).
  - intros n request. eexists. split; [reflexivity|]. simpl. apply length_map.
  - repeat constructor; eexists; reflexivity.
Defined.

(** X15: the loop pauses for 10 seconds after every batch, the last one
    included: a build of [n] documents waits [ceil(n / 96)] times. *)
Theorem embedDocumentsInBatches_pauses (documents : list document) (w : world) :
  answers_embed (cohere w) -> Forall renders documents ->
  exists allEmbeddings events,
    embedDocumentsInBatches documents 96 w = (Normal allEmbeddings, add_events w events) /\
    List.filter is_sleep events = repeat (Sleep 10000) (ceil_div (length documents) 96).
Proof.
  intros Hapi Hr.
  destruct (embed_loop_trace documents 96 ltac:(lia) Hr (length documents) 0 [] w Hapi)
    as (events & Hrun & _ & _ & Hs).
  { rewrite Nat.sub_0_r. apply ceil_div_le. lia. }
  rewrite Nat.sub_0_r in Hs. eauto.
Qed.

Lemma embedDocumentsInBatches_pauses_witness :
  exists allEmbeddings events,
    embedDocumentsInBatches scenario_corpus 96
      (initial_world (sample_files 3) None true answering_api) =
      (Normal allEmbeddings,
       add_events (initial_world (sample_files 3) None true answering_api) events) /\
    List.filter is_sleep events = repeat (Sleep 10000) (ceil_div (length scenario_corpus) 96).
Proof.
  apply (embedDocumentsInBatches_pauses scenario_corpus
           (initial_world (sample_files 3) None true answering_api)).
  - intros n request. eexists. split; [reflexivity|]. simpl. apply length_map.
  - repeat constructor; eexists; reflexivity.
Defined.

(** X16: the vectors are given to the documents by position.  With no more
    vectors than documents, the first documents get a vector each and the
    others are left without one; with more vectors than documents the
    assignment throws a TypeError. *)
Theorem assign_embeddings_by_position (allEmbeddings : list (list float))
    (documents : list document) :
  ((length allEmbeddings <= length documents)%nat ->
   assign_embeddings allEmbeddings 0 documents =
     Normal (zip_with set_embedding documents allEmbeddings
             ++ drop (length allEmbeddings) documents)) /\
  ((length documents < length allEmbeddings)%nat ->
   assign_embeddings allEmbeddings 0 documents = Throw TypeError).
Proof.
  split; intros H.
  - apply (assign_embeddings_zip allEmbeddings [] documents H).
  - apply (assign_embeddings_excess allEmbeddings [] documents H).
Qed.

Lemma assign_embeddings_by_position_witness :
  assign_embeddings [[0.5; 0.5]%float] 0 scenario_corpus =
    Normal (zip_with set_embedding scenario_corpus [[0.5; 0.5]%float]
            ++ drop 1 scenario_corpus) /\
  assign_embeddings [[1]; [2]; [3]; [4]]%float 0 scenario_corpus = Throw TypeError.
Proof.
  destruct (assign_embeddings_by_position [[0.5; 0.5]%float] scenario_corpus) as [H1 _].
  destruct (assign_embeddings_by_position [[1]; [2]; [3]; [4]]%float scenario_corpus)
    as [_ H2].
  split; [apply H1|apply H2]; simpl; lia.
Defined.

Section StartFacts.

Variable w : world.
Hypothesis Hcache : no_cache w.
Hypothesis Hapi : answers_embed (cohere w).
Hypothesis Hrenders : Forall renders (corpus w).

Lemma cold_start_run :
  disk_writable w = true ->
  exists (w' : world) (documents : list document),
    initializeDocuments w = (Normal tt, w') /\
    cachedDocuments w' = Some documents /\
    Forall2 embedded_from (corpus w) documents /\
    embeddings_file w' = Some (JSON_stringify (map item_of_document documents)) /\
    embed_calls w' = (embed_calls w + ceil_div (length (corpus w)) 96)%nat.
Proof.
  intros Hdisk. rewrite initializeDocuments_no_cache by exact Hcache. fold (build_start w). set (w0 := build_start w).
  assert (Hc : corpus w0 = corpus w) by (apply corpus_depends_on_files; reflexivity).
  destruct (embed_corpus_run w0) as (documents & events & Hf & He & _ & _ & Hrun).
  { exact Hapi. }
  { rewrite Hc. exact Hrenders. }
  change (disk_writable w0) with (disk_writable w) in Hrun. rewrite Hdisk in Hrun.
  rewrite Hc in Hf, He.
  unfold build_corpus, bind at 1. rewrite Hrun.
  unfold bind, set_cachedDocuments, console_log, emit.
  eexists. exists documents. split; [reflexivity|].
  cbn [cachedDocuments embeddings_file add_events with_cachedDocuments with_embeddings_file].
  do 3 (split; [first [reflexivity|exact Hf]|]).
  unfold embed_calls, embeds in *.
  cbn [trace add_events with_cachedDocuments with_embeddings_file w0 build_start].
  rewrite !List.filter_app, !length_app, He. simpl. lia.
Qed.

Lemma cold_start_unwritable :
  disk_writable w = false ->
  exists w' : world,
    initializeDocuments w = (Throw FileError, w') /\
    embed_calls w' = (embed_calls w + ceil_div (length (corpus w)) 96)%nat /\
    cachedDocuments w' = None /\
    embeddings_file w' = embeddings_file w.
Proof.
  intros Hdisk. rewrite initializeDocuments_no_cache by exact Hcache. fold (build_start w). set (w0 := build_start w).
  assert (Hc : corpus w0 = corpus w) by (apply corpus_depends_on_files; reflexivity).
  destruct (embed_corpus_run w0) as (documents & events & _ & He & _ & _ & Hrun).
  { exact Hapi. }
  { rewrite Hc. exact Hrenders. }
  change (disk_writable w0) with (disk_writable w) in Hrun. rewrite Hdisk in Hrun.
  rewrite Hc in He.
  unfold build_corpus, bind at 1. rewrite Hrun.
  eexists. split; [reflexivity|].
  split; [|split; reflexivity].
  unfold embed_calls, embeds in *. cbn [trace add_events with_cachedDocuments w0 build_start].
  rewrite !List.filter_app, !length_app, He. simpl. lia.
Qed.

End StartFacts.

(** X17: when the embeddings file cannot be written, [initializeDocuments]
    is rejected after all the embedding calls have been made and answered:
    [cachedDocuments] stays null, the vectors are lost, and the server does
    not become ready. *)
Theorem unwritable_disk_never_ready (w : world) :
  no_cache w -> answers_embed (cohere w) -> Forall renders (corpus w) ->
  disk_writable w = false ->
  exists w' : world,
    initializeDocuments w = (Throw FileError, w') /\
    embed_calls w' = (embed_calls w + ceil_div (length (corpus w)) 96)%nat /\
    cachedDocuments w' = None /\
    embeddings_file w' = embeddings_file w.
Proof. apply cold_start_unwritable. Qed.

Lemma unwritable_disk_never_ready_witness :
  exists w' : world,
    initializeDocuments (initial_world (sample_files 3) None false answering_api)
      = (Throw FileError, w') /\
    embed_calls w' =
      (0 + ceil_div
             (length (corpus (initial_world (sample_files 3) None false answering_api))) 96)%nat /\
    cachedDocuments w' = None /\
    embeddings_file w' = None.
Proof.
  apply (unwritable_disk_never_ready
           (initial_world (sample_files 3) None false answering_api)).
  - left. reflexivity.
  - intros n request. eexists. split; [reflexivity|]. simpl. apply length_map.
  - repeat constructor; eexists; reflexivity.
  - reflexivity.
Defined.

(** X18: after a start without a cache, when the API answers and the file
    can be written, the corpus that is served is the corpus that was loaded,
    document for document and in the same order, each document with a
    vector; the file holds the records of the same documents. *)
Theorem cold_start_serves_embedded_corpus (w : world) :
  no_cache w -> answers_embed (cohere w) -> Forall renders (corpus w) ->
  disk_writable w = true ->
  exists (w' : world) (documents : list document),
    initializeDocuments w = (Normal tt, w') /\
    cachedDocuments w' = Some documents /\
    Forall2 embedded_from (corpus w) documents /\
    embeddings_file w' = Some (JSON_stringify (map item_of_document documents)).
Proof.
  intros Hcache Hapi Hr Hdisk.
  destruct (cold_start_run w Hcache Hapi Hr Hdisk) as (w' & documents & H1 & H2 & H3 & H4 & _).
  eauto 6.
Qed.

Lemma cold_start_serves_embedded_corpus_witness :
  exists (w' : world) (documents : list document),
    initializeDocuments (initial_world (sample_files 3) None true answering_api)
      = (Normal tt, w') /\
    cachedDocuments w' = Some documents /\
    Forall2 embedded_from
      (corpus (initial_world (sample_files 3) None true answering_api)) documents /\
    embeddings_file w' = Some (JSON_stringify (map item_of_document documents)).
Proof.
  apply (cold_start_serves_embedded_corpus
           (initial_world (sample_files 3) None true answering_api)).
  - left. reflexivity.
  - intros n request. eexists. split; [reflexivity|]. simpl. apply length_map.
  - repeat constructor; eexists; reflexivity.
  - reflexivity.
Defined.

(** X19: a second start after such a first start reads the file that the
    first one wrote: it makes no call to the provider, and serves the
    documents of the first start as the file gives them back. *)
Theorem restart_reads_the_cache (w : world) :
  no_cache w -> answers_embed (cohere w) -> Forall renders (corpus w) ->
  disk_writable w = true ->
  exists (w' w'' : world) (documents : list document),
    initializeDocuments w = (Normal tt, w') /\
    cachedDocuments w' = Some documents /\
    initializeDocuments w' = (Normal tt, w'') /\
    embed_calls w'' = embed_calls w' /\
    cachedDocuments w'' =
      Some (map (fun d => document_of_item (JSON_item (item_of_document d))) documents).
Proof.
  intros Hcache Hapi Hr Hdisk.
  destruct (cold_start_run w Hcache Hapi Hr Hdisk) as (w' & documents & H1 & H2 & _ & H4 & _).
  exists w'. eexists. exists documents.
  split; [exact H1|]. split; [exact H2|].
  split; [apply (initializeDocuments_valid _ w' H4)|].
  split.
  - unfold embed_calls. simpl. rewrite List.filter_app, length_app. simpl. lia.
  - cbn [cachedDocuments with_cachedDocuments]. now rewrite !map_map.
Qed.

Lemma restart_reads_the_cache_witness :
  exists (w' w'' : world) (documents : list document),
    initializeDocuments (initial_world (sample_files 3) None true answering_api)
      = (Normal tt, w') /\
    cachedDocuments w' = Some documents /\
    initializeDocuments w' = (Normal tt, w'') /\
    embed_calls w'' = embed_calls w' /\
    cachedDocuments w'' =
      Some (map (fun d => document_of_item (JSON_item (item_of_document d))) documents).
Proof.
  apply (restart_reads_the_cache (initial_world (sample_files 3) None true answering_api)).
  - left. reflexivity.
  - intros n request. eexists. split; [reflexivity|]. simpl. apply length_map.
  - repeat constructor; eexists; reflexivity.
  - reflexivity.
Defined.

(** ** The request handlers: replies and calls *)

Section MoreHandlerFacts.

Lemma map_completion_length {A B : Type} (f : A -> completion B) (l : list A) :
  forall l', map_completion f l = Normal l' -> length l' = length l.
Proof.
  induction l as [|a l IH]; intros l'; cbn [map_completion].
  - now intros [= <-].
  - destruct (f a); [|discriminate]. cbn [bind_completion].
    destruct (map_completion f l) as [bs|]; [|discriminate].
    intros [= <-]. cbn. now rewrite (IH bs eq_refl).
Qed.

Lemma strict_equals_true (s : string) (v : value) :
  strict_equals s v = true <-> v = VString s.
Proof.
  destruct v; simpl; try (split; [discriminate|congruence]).
  rewrite String.eqb_eq. split; congruence.
Qed.

(** What [/generate] does, in every case. *)
Lemma generate_run (request_body : list (string * value)) (w : world) :
  exists (r : http_response) (events : list event),
    generate request_body w = (Normal r, add_events w events) /\
    (r = prompt_required \/ r = cohere_request_failed \/
     exists response, r = generated response) /\
    (embeds events <= 1)%nat /\ (chats events <= 1)%nat /\ writes events = 0%nat /\
    forall request,
      In (Chat request) events ->
      message request = prompt_of request_body /\
      exists document_texts,
        documents request = Some document_texts /\ (length document_texts <= 10)%nat.
Proof.
  unfold generate. cbv zeta.
  destruct (ToBoolean (prompt_of request_body)); cbn [negb]; cbv beta iota.
  2: { exists prompt_required, []. unfold ret. rewrite add_events_nil.
       split; [reflexivity|]. split; [now left|]. do 2 (split; [cbn; lia|]).
       split; [reflexivity|]. intros request []. }
  unfold try_catch, bind at 1, console_log, emit.
  unfold bind at 1, cohere_embed, emit.
  destruct (embed_reply _ _ _) as [es|].
  2: { unfold bind, console_error, emit, ret. rewrite !add_events_app.
       exists cohere_request_failed. eexists. split; [reflexivity|].
       split; [now right; left|]. do 2 (split; [cbn; lia|]). split; [reflexivity|].
       intros request Hin. cbn in Hin. intuition discriminate. }
  unfold bind at 1, get_cachedDocuments. unfold bind at 1, lift.
  destruct (getTopKDocuments _ _ 10) as [top|e] eqn:Htop.
  2: { unfold bind, console_error, emit, ret. rewrite !add_events_app.
       exists cohere_request_failed. eexists. split; [reflexivity|].
       split; [now right; left|]. do 2 (split; [cbn; lia|]). split; [reflexivity|].
       intros request Hin. cbn in Hin. intuition discriminate. }
  unfold bind at 1, console_log, emit. unfold bind at 1, lift.
  destruct (map_completion document_text top) as [ts|e] eqn:Hts.
  2: { unfold bind, console_error, emit, ret. rewrite !add_events_app.
       exists cohere_request_failed. eexists. split; [reflexivity|].
       split; [now right; left|]. do 2 (split; [cbn; lia|]). split; [reflexivity|].
       intros request Hin. cbn in Hin. intuition discriminate. }
  assert (Hlen : (length ts <= 10)%nat).
  { rewrite (map_completion_length _ _ _ Hts). exact (getTopKDocuments_at_most _ _ _ _ Htop). }
  unfold bind at 1, cohere_chat, emit.
  destruct (chat_reply _ _ _) as [response|].
  - unfold bind, console_log, emit, ret. rewrite !add_events_app.
    exists (generated response). eexists. split; [reflexivity|].
    split; [right; right; now exists response|].
    do 2 (split; [cbn; lia|]). split; [reflexivity|].
    intros request Hin. cbn in Hin.
    destruct Hin as [Hin|[Hin|[Hin|[Hin|[Hin|[]]]]]]; try discriminate.
    injection Hin as <-. cbn. eauto.
  - unfold bind, console_error, emit, ret. rewrite !add_events_app.
    exists cohere_request_failed. eexists. split; [reflexivity|].
    split; [now right; left|]. do 2 (split; [cbn; lia|]). split; [reflexivity|].
    intros request Hin. cbn in Hin.
    destruct Hin as [Hin|[Hin|[Hin|[Hin|[Hin|[]]]]]]; try discriminate.
    injection Hin as <-. cbn. eauto.
Qed.

(** A search that throws ends the request with the reply 500, before the
    chat call. *)
Lemma generate_search_throws (request_body : list (string * value)) (w : world) :
  ToBoolean (prompt_of request_body) = true ->
  (forall queryEmbedding, exists e,
     getTopKDocuments queryEmbedding (cachedDocuments w) 10 = Throw e) ->
  exists w', generate request_body w = (Normal cohere_request_failed, w') /\
             chat_calls w' = chat_calls w.
Proof.
  intros Hp Hthrow. unfold generate. cbv zeta. rewrite Hp. cbn [negb]. cbv beta iota.
  unfold try_catch, bind at 1, console_log, emit.
  unfold bind at 1, cohere_embed, emit.
  destruct (embed_reply _ _ _) as [es|].
  - unfold bind at 1, get_cachedDocuments. cbn [cachedDocuments add_events].
    unfold bind at 1, lift. destruct (Hthrow (head es)) as [e ->].
    unfold bind, console_error, emit, ret. eexists. split; [reflexivity|].
    rewrite !add_events_app, chat_calls_add_events. unfold chats. simpl. lia.
  - unfold bind, console_error, emit, ret. eexists. split; [reflexivity|].
    rewrite !add_events_app, chat_calls_add_events. unfold chats. simpl. lia.
Qed.

Lemma JSON_value_defined (v : value) : JSON_value v <> VUndefined.
Proof. destruct v; simpl; try discriminate. destruct (is_finite x); discriminate. Qed.

Lemma JSON_number_again (x : float) :
  is_finite x = true ->
  is_finite (if is_zero x then 0%float else x) = true /\
  (if is_zero (if is_zero x then 0%float else x) then 0%float
   else (if is_zero x then 0%float else x)) = (if is_zero x then 0%float else x).
Proof.
  intros Hf. destruct (is_zero x) eqn:Hz; [split; reflexivity|].
  rewrite Hz. now split.
Qed.

Lemma JSON_value_again : forall v, JSON_value (JSON_value v) = JSON_value v.
Proof.
  apply (value_induction (fun v => JSON_value (JSON_value v) = JSON_value v));
    try reflexivity.
  - intros x. cbn [JSON_value]. destruct (is_finite x) eqn:Hf; [|reflexivity].
    cbn [JSON_value]. destruct (JSON_number_again x Hf) as [-> ->]. reflexivity.
  - intros items IH. cbn [JSON_value]. f_equal. rewrite map_map.
    induction IH as [|v items Hv _ IHitems]; [reflexivity|].
    cbn [map]. now rewrite Hv, IHitems.
  - intros props IH. cbn [JSON_value]. f_equal.
    induction IH as [|[k v] props Hv _ IHprops]; [reflexivity|].
    cbn [snd] in Hv. destruct v as [| |b|x|t|items|ps].
    + exact IHprops.
    + cbn [JSON_value]. now rewrite IHprops.
    + cbn [JSON_value]. now rewrite IHprops.
    + cbn [JSON_value]. destruct (is_finite x) eqn:Hf; cbn [JSON_value].
      * destruct (JSON_number_again x Hf) as [-> ->]. now rewrite IHprops.
      * now rewrite IHprops.
    + cbn [JSON_value]. now rewrite IHprops.
    + cbn [JSON_value] in Hv |- *. rewrite IHprops. now rewrite Hv.
    + cbn [JSON_value] in Hv |- *. rewrite IHprops. now rewrite Hv.
Qed.

Lemma JSON_item_again (item : cache_item) : JSON_item (JSON_item item) = JSON_item item.
Proof.
  destruct item as [i t s e]. unfold JSON_item. cbn. f_equal.
  1-3: match goal with
       | |- JSON_property (JSON_property ?v) = _ =>
           destruct v; try reflexivity; unfold JSON_property at 2;
           pose proof (JSON_value_defined) as Hd;
           unfold JSON_property;
           match goal with
           | |- match ?u with _ => _ end = _ =>
               destruct u eqn:E; try (now rewrite <- E, JSON_value_again);
               exfalso; eapply Hd; exact E
           end
       end.
  destruct e as [vector|]; [|reflexivity]. cbn. f_equal. rewrite map_map.
  apply map_ext. intros [x|]; [|reflexivity]. cbn [JSON_component].
  destruct (is_finite x) eqn:Hf; [|reflexivity]. cbn [JSON_component].
  destruct (JSON_number_again x Hf) as [-> ->]. reflexivity.
Qed.

End MoreHandlerFacts.

(** X20: [/api/auth/login] answers 400 when the email or the password is
    missing or falsy, 200 with the token exactly when the email is the string
    "test@cohere.com" and the password is the string "123456" (a password
    sent as the number 123456 is refused), and 401 in every other case. *)
Theorem login_outcomes (request_body : list (string * value)) :
  (login request_body = login_required <->
     ToBoolean (email_of request_body) = false \/
     ToBoolean (password_of request_body) = false) /\
  (login request_body = login_successful <->
     email_of request_body = VString "test@cohere.com" /\
     password_of request_body = VString "123456") /\
  (login request_body = login_required \/ login request_body = login_successful \/
   login request_body = invalid_credentials).
Proof.
  unfold login. cbv zeta. fold (email_of request_body) (password_of request_body).
  fold login_required login_successful invalid_credentials.
  destruct (ToBoolean (email_of request_body)) eqn:He,
           (ToBoolean (password_of request_body)) eqn:Hp; cbn [negb orb];
    try (repeat split; intros; intuition (try discriminate; try congruence);
         match goal with
         | H : email_of _ = _ |- _ => rewrite H in He; discriminate
         | H : password_of _ = _ |- _ => rewrite H in Hp; discriminate
         end).
  unfold users. cbn [List.find email password].
  destruct (strict_equals "test@cohere.com" (email_of request_body)) eqn:E1;
    [destruct (strict_equals "123456" (password_of request_body)) eqn:E2|];
    cbn [andb].
  - apply strict_equals_true in E1, E2.
    repeat split; intros; intuition (try discriminate; try congruence).
  - repeat split; intros; intuition (try discriminate; try congruence).
    apply strict_equals_true in H1. congruence.
  - repeat split; intros; intuition (try discriminate; try congruence).
    apply strict_equals_true in H0. congruence.
Qed.

(** X21: [/generate] always replies, with one of three replies: 400 "Prompt
    is required", 500 "Cohere request failed", or 200 with the text and the
    citations.  It changes nothing but the trace; it makes at most one
    embedding call and at most one chat call and writes no file; the chat
    call carries the prompt and at most 10 document texts. *)
Theorem generate_outcomes (request_body : list (string * value)) (w : world) :
  exists (r : http_response) (events : list event),
    generate request_body w = (Normal r, add_events w events) /\
    (r = prompt_required \/ r = cohere_request_failed \/
     exists response, r = generated response) /\
    (embeds events <= 1)%nat /\ (chats events <= 1)%nat /\ writes events = 0%nat /\
    forall request,
      In (Chat request) events ->
      message request = prompt_of request_body /\
      exists document_texts,
        documents request = Some document_texts /\ (length document_texts <= 10)%nat.
Proof. apply generate_run. Qed.

(** X22: when a document of the served corpus has no vector, every request
    with a prompt gets the reply 500 "Cohere request failed", and no chat
    call is made. *)
Theorem generate_fails_on_missing_vector (request_body : list (string * value)) (w : world)
    (docs : list document) :
  ToBoolean (prompt_of request_body) = true ->
  cachedDocuments w = Some docs ->
  Exists (fun d => embedding d = None) docs ->
  exists w', generate request_body w = (Normal cohere_request_failed, w') /\
             chat_calls w' = chat_calls w.
Proof.
  intros Hp Hc Hd. apply generate_search_throws; [exact Hp|].
  intros queryEmbedding. exists TypeError. rewrite Hc.
  apply getTopKDocuments_throws. now right.
Qed.

Lemma generate_fails_on_missing_vector_witness :
  exists w',
    generate [("prompt", VString "Where?")]
      (with_cachedDocuments (initial_world (sample_files 3) None true answering_api)
         (Some [document_of_item
                  {| item_id := VString "bare"; item_title := VString "bare";
                     item_snippet := VString ""; item_embedding := None |}]))
    = (Normal cohere_request_failed, w') /\
    chat_calls w' = 0%nat.
Proof.
  apply (generate_fails_on_missing_vector [("prompt", VString "Where?")]
           (with_cachedDocuments (initial_world (sample_files 3) None true answering_api)
              (Some [document_of_item
                       {| item_id := VString "bare"; item_title := VString "bare";
                          item_snippet := VString ""; item_embedding := None |}]))
           [document_of_item
              {| item_id := VString "bare"; item_title := VString "bare";
                 item_snippet := VString ""; item_embedding := None |}]).
  - reflexivity.
  - reflexivity.
  - apply Exists_cons_hd. reflexivity.
Defined.


(** X24: saving the documents that were loaded from a saved file writes the
    same file again: what the file holds is not changed by a further load
    and save. *)
Theorem save_load_save (saved : list document) (w : world) :
  disk_writable w = true ->
  exists loaded,
    fst (loadEmbeddingsFromFile (snd (saveEmbeddingsToFile saved w))) = Normal (Some loaded) /\
    embeddings_file
      (snd (saveEmbeddingsToFile loaded
              (snd (loadEmbeddingsFromFile (snd (saveEmbeddingsToFile saved w)))))) =
    embeddings_file (snd (saveEmbeddingsToFile saved w)).
Proof.
  intros Hdisk. eexists. split; [apply (save_then_load_any saved w Hdisk)|].
  rewrite (saveEmbeddingsToFile_run saved w Hdisk). cbn [snd].
  erewrite loadEmbeddingsFromFile_valid by reflexivity. cbn [snd].
  rewrite saveEmbeddingsToFile_run by exact Hdisk.
  cbn [snd embeddings_file add_events with_embeddings_file]. unfold JSON_stringify.
  rewrite !map_map. do 2 f_equal. apply map_ext. intros d.
  replace (item_of_document (document_of_item (JSON_item (item_of_document d))))
    with (JSON_item (item_of_document d)) by now destruct (JSON_item (item_of_document d)).
  apply JSON_item_again.
Qed.

Lemma save_load_save_witness :
  exists loaded,
    fst (loadEmbeddingsFromFile
           (snd (saveEmbeddingsToFile [sample_document "odd" [nan; neg_zero; 1]%float]
                   (initial_world (sample_files 3) None true answering_api)))) =
      Normal (Some loaded) /\
    embeddings_file
      (snd (saveEmbeddingsToFile loaded
              (snd (loadEmbeddingsFromFile
                      (snd (saveEmbeddingsToFile [sample_document "odd" [nan; neg_zero; 1]%float]
                              (initial_world (sample_files 3) None true answering_api))))))) =
    embeddings_file
      (snd (saveEmbeddingsToFile [sample_document "odd" [nan; neg_zero; 1]%float]
              (initial_world (sample_files 3) None true answering_api))).
Proof.
  apply (save_load_save [sample_document "odd" [nan; neg_zero; 1]%float]
           (initial_world (sample_files 3) None true answering_api)).
  reflexivity.
Defined.

(** X25: the snippet of a document made from a UNESCO record is a string in
    which no HTML tag is left: the filtered description when the description
    is a string, and the empty string when the description is missing
    (undefined or null). *)
Theorem unesco_snippet_has_no_tags (site : value) (d : document) :
  unesco_sites_document site = Normal d ->
  exists s,
    snippet (data d) = VString s /\
    plain (list_ascii_of_string s) = true /\
    (forall description,
       get site "short_description" = Normal (VString description) ->
       s = strip_tags description) /\
    (forall description,
       get site "short_description" = Normal description ->
       is_nullish description = true -> s = "").
Proof.
  unfold unesco_sites_document. repeat step_completion. intros [= <-]. cbn [snippet data].
  match goal with
  | H : match ?v with _ => _ end = Normal ?stripped |- _ =>
      destruct v as [| |b|x|text|items|props]; try discriminate; injection H as <-
  end.
  - exists "". repeat split; try reflexivity. intros description [= <-].
  - exists "". repeat split; try reflexivity. intros description [= <-].
  - exists (strip_tags text). split; [|split; [|split]].
    + unfold or_else. cbn [ToBoolean].
      destruct (strip_tags text =? "")%string eqn:E; [|reflexivity].
      apply String.eqb_eq in E. now rewrite E.
    + unfold strip_tags. rewrite list_ascii_of_string_of_list_ascii.
      apply strip_from_is_plain.
    + now intros description [= <-].
    + intros description [= <-]. discriminate.
Qed.

Lemma unesco_snippet_has_no_tags_witness :
  (exists s,
     snippet (data {| id := VString "unesco_sites_Cusco";
                      data := {| title := VString "Cusco"; snippet := VString "Old city" |};
                      embedding := None |}) = VString s /\
     plain (list_ascii_of_string s) = true /\
     (forall description,
        get (VObject [("site", VString "Cusco");
                      ("short_description", VString "<p>Old <b>city</b></p>")])
          "short_description" = Normal (VString description) ->
        s = strip_tags description) /\
     (forall description,
        get (VObject [("site", VString "Cusco");
                      ("short_description", VString "<p>Old <b>city</b></p>")])
          "short_description" = Normal description ->
        is_nullish description = true -> s = "")) /\
  (exists s,
     snippet (data {| id := VString "unesco_sites_Cusco";
                      data := {| title := VString "Cusco"; snippet := VString "" |};
                      embedding := None |}) = VString s /\
     plain (list_ascii_of_string s) = true /\
     (forall description,
        get (VObject [("site", VString "Cusco")]) "short_description"
          = Normal (VString description) ->
        s = strip_tags description) /\
     (forall description,
        get (VObject [("site", VString "Cusco")]) "short_description" = Normal description ->
        is_nullish description = true -> s = "")).
Proof.
  split.
  - apply (unesco_snippet_has_no_tags
             (VObject [("site", VString "Cusco");
                       ("short_description", VString "<p>Old <b>city</b></p>")])).
    reflexivity.
  - apply (unesco_snippet_has_no_tags (VObject [("site", VString "Cusco")])).
    reflexivity.
Defined.
